(** * F1 chat backend: the chat route (retrieval, generation fallback, framing)

    A shallow embedding of the route handler [POST] of the chat endpoint and
    of its helpers [getHuggingFaceEmbedding], [streamText], [generateWithGroq],
    [generateWithHF] and [emit], followed by the properties of the
    specification that concern them; then of the streaming variant of the
    route and of the script that loads the collection. Part I holds the
    definitions: the embedding of the route, then the notions of the
    specification that the properties are stated with, then concrete
    deployments, then the streaming variant and the loading script. Part II
    holds the lemmas and the claims C1 to C10, Part III the properties X1 to
    X24 that the code has beyond the claims.

    Conventions of the embedding.
    - A JavaScript string is the list of its UTF-16 code units ([jsstring]).
    - A [Uint8Array] is the list of its bytes.
    - The external collaborators (embedding service, vector store, the two
      generation providers, the process environment) are the fields of a
      [world]; every call made to one of them is recorded in a trace of
      [event]s, in program order.
    - A computation that may throw and that calls collaborators is a value
      of the monad [M]. *)

From Stdlib Require Import String Ascii Bool NArith ZArith Arith Lia List.
From Stdlib Require DecimalString.
Import ListNotations.

Set Implicit Arguments.

(* ================================================================== *)
(** * Part I: definitions                                             *)
(* ================================================================== *)

(** ** JavaScript strings *)

Module JsString.

Definition code_unit := N.
Definition jsstring := list code_unit.

(** A string literal of the source whose characters are all ASCII. *)
Definition lit (s : string) : jsstring :=
  map N_of_ascii (list_ascii_of_string s).

Definition LF : code_unit := 10%N.
Definition QUOTE : code_unit := 34%N.
Definition BACKSLASH : code_unit := 92%N.

(** [!s] for a string [s]: the empty string is the only falsy string. *)
Definition falsy (s : jsstring) : bool :=
  match s with [] => true | _ :: _ => false end.

Definition truthy (s : jsstring) : bool := negb (falsy s).

Fixpoint eqb (s t : jsstring) : bool :=
  match s, t with
  | [], [] => true
  | u :: s', v :: t' => N.eqb u v && eqb s' t'
  | _, _ => false
  end.

(** [s.slice(a, b)] for integers [0 <= a] and [0 <= b]: the code units at
    positions [a], ..., [b - 1] that exist ([b] is clamped to the length, and
    the result is empty when [a] is past the end or [b <= a]). *)
Definition slice (s : jsstring) (a b : nat) : jsstring :=
  firstn (b - a) (skipn a s).

(** [s.replace(/c/g, by)] for a pattern that is the single code unit [c] and
    a replacement text [by] without [$]: every occurrence of [c] becomes
    [by], everything else is kept. *)
Definition replace_all (c : code_unit) (by_ : jsstring) (s : jsstring)
  : jsstring :=
  flat_map (fun u => if N.eqb u c then by_ else [u]) s.

(** [parts.join(sep)] on strings. *)
Fixpoint join (sep : jsstring) (parts : list jsstring) : jsstring :=
  match parts with
  | [] => []
  | [p] => p
  | p :: rest => p ++ sep ++ join sep rest
  end.

(** The code units that [String.prototype.trim] removes: WhiteSpace and
    LineTerminator of ECMAScript. *)
Definition is_whitespace (u : code_unit) : bool :=
  ((9 <=? u) && (u <=? 13) || (u =? 32) || (u =? 160) || (u =? 0x1680)
   || (0x2000 <=? u) && (u <=? 0x200A)
   || (u =? 0x2028) || (u =? 0x2029) || (u =? 0x202F) || (u =? 0x205F)
   || (u =? 0x3000) || (u =? 0xFEFF))%N.

Fixpoint trim_start (s : jsstring) : jsstring :=
  match s with
  | u :: s' => if is_whitespace u then trim_start s' else s
  | [] => []
  end.

Definition trim_end (s : jsstring) : jsstring :=
  rev (trim_start (rev s)).

(** [s.trim()]. *)
Definition trim (s : jsstring) : jsstring := trim_end (trim_start s).

End JsString.
Import JsString.

(** ** [TextEncoder.prototype.encode]: UTF-8 of a UTF-16 string *)

Module Utf8.

Definition byte := N.
Definition bytes := list byte.

Definition is_high_surrogate (u : code_unit) : bool :=
  ((0xD800 <=? u) && (u <=? 0xDBFF))%N.

Definition is_low_surrogate (u : code_unit) : bool :=
  ((0xDC00 <=? u) && (u <=? 0xDFFF))%N.

(** The UTF-8 bytes of one scalar value. *)
Definition encode_scalar (cp : N) : bytes :=
  (if cp <? 0x80 then [cp]
   else if cp <? 0x800 then [0xC0 + cp / 64; 0x80 + cp mod 64]
   else if cp <? 0x10000 then
     [0xE0 + cp / 4096; 0x80 + (cp / 64) mod 64; 0x80 + cp mod 64]
   else
     [0xF0 + cp / 262144; 0x80 + (cp / 4096) mod 64;
      0x80 + (cp / 64) mod 64; 0x80 + cp mod 64])%N.

(** U+FFFD, which the encoder writes for a surrogate that has no partner. *)
Definition replacement : bytes := [0xEF; 0xBF; 0xBD]%N.

Definition pair_scalar (hi lo : code_unit) : N :=
  (0x10000 + (hi - 0xD800) * 0x400 + (lo - 0xDC00))%N.

(** [encoder.encode(s)]: the string is first read as scalar values (a high
    surrogate followed by a low one is one scalar value, any other surrogate
    is replaced by U+FFFD), then each is written in UTF-8. *)
Fixpoint encode (s : jsstring) : bytes :=
  match s with
  | [] => []
  | u :: rest =>
      if is_high_surrogate u then
        match rest with
        | v :: rest' =>
            if is_low_surrogate v
            then encode_scalar (pair_scalar u v) ++ encode rest'
            else replacement ++ encode rest
        | [] => replacement
        end
      else if is_low_surrogate u then replacement ++ encode rest
      else encode_scalar u ++ encode rest
  end.

End Utf8.

(** ** The output stream and the Stream Framer *)

Module Framer.

(** The state of a [ReadableStreamDefaultController] that the route can
    observe: the chunks enqueued so far, oldest first, and whether [close]
    was called. *)
Record controller := Controller {
  queue : list Utf8.bytes;
  closed : bool
}.

Definition new_controller : controller := Controller [] false.

(** [controller.enqueue(chunk)] *)
Definition enqueue (c : controller) (chunk : Utf8.bytes) : controller :=
  Controller (queue c ++ [chunk]) (closed c).

(** [controller.close()] *)
Definition close (c : controller) : controller :=
  Controller (queue c) true.

(** The two [replace] calls of [emit]: every quote becomes a backslash and
    a quote, then every line feed becomes a backslash and the letter n. *)
Definition escape (text : jsstring) : jsstring :=
  replace_all LF [BACKSLASH; 110%N]
    (replace_all QUOTE [BACKSLASH; QUOTE] text).

(** The opening of a frame (digit zero, colon, quote) and its closing
    (quote, line feed). *)
Definition frame_open : jsstring := [48; 58; QUOTE]%N.
Definition frame_close : jsstring := [QUOTE; LF].

(** The template literal [formatted] of [emit]. *)
Definition formatted (text : jsstring) : jsstring :=
  frame_open ++ escape text ++ frame_close.

(** [emit(controller, text)]:
    [if (!text) return;] then the frame is encoded and enqueued. *)
Definition emit (c : controller) (text : jsstring) : controller :=
  if falsy text then c
  else enqueue c (Utf8.encode (formatted text)).

Definition chunkSize : nat := 40.

(** The [for] loop of [streamText], from index [i] on. Each turn advances
    [i] by [chunkSize], so [fuel] turns are enough whenever
    [length text <= fuel]. *)
Fixpoint streamText_loop (fuel : nat) (i : nat) (text : jsstring)
    (emit_ : controller -> jsstring -> controller) (c : controller)
  : controller :=
  match fuel with
  | O => c
  | S fuel' =>
      if i <? length text then
        streamText_loop fuel' (i + chunkSize) text emit_
          (emit_ c (slice text i (i + chunkSize)))
      else c
  end.

(** [streamText(controller, text, emit)] *)
Definition streamText (c : controller) (text : jsstring)
    (emit_ : controller -> jsstring -> controller) : controller :=
  if falsy text then c
  else streamText_loop (length text) 0 text emit_ c.

(** The fixed sentence sent when no provider produced text. *)
Definition apology : jsstring :=
  lit "I couldn't generate a response right now. Please try again.".

End Framer.

(** ** JavaScript values, as the route inspects them *)

Module Js.

(** The outcome of evaluating an expression or awaiting a promise: a value,
    or an exception (a rejected promise). *)
Inductive completion (A : Type) : Type :=
| Normal (a : A)
| Throw.
Arguments Throw {A}.

(** What the route needs from IEEE-754 numbers; it never computes with
    them. [number_toString] is [Number.prototype.toString]. *)
Class JsNumber (num : Type) := {
  number_toString : num -> jsstring;
  number_isFinite : num -> bool
}.

(** A value produced by [JSON.parse] or read from a collaborator. The
    properties of an object are listed in enumeration order (the order of
    [Object.values]). *)
#[local] Set Warnings "-register-all".
Inductive jsval (num : Type) : Type :=
| JUndefined
| JNull
| JBool (b : bool)
| JNum (n : num)
| JStr (s : jsstring)
| JArr (elems : list (jsval num))
| JObj (props : list (jsstring * jsval num)).
Arguments JUndefined {num}.
Arguments JNull {num}.
Arguments JBool {num} b.
Arguments JStr {num} s.
#[local] Set Warnings "register-all".

Inductive jstype := TUndefined | TObject | TBoolean | TNumber | TString.

Definition jstype_eqb (a b : jstype) : bool :=
  match a, b with
  | TUndefined, TUndefined | TObject, TObject | TBoolean, TBoolean
  | TNumber, TNumber | TString, TString => true
  | _, _ => false
  end.

Section Values.
Context {num : Type} {NUM : JsNumber num}.

(** [typeof v] *)
Definition typeof (v : jsval num) : jstype :=
  match v with
  | JUndefined => TUndefined
  | JNull => TObject
  | JBool _ => TBoolean
  | JNum _ => TNumber
  | JStr _ => TString
  | JArr _ | JObj _ => TObject
  end.

(** [Array.isArray(v)] *)
Definition Array_isArray (v : jsval num) : bool :=
  match v with JArr _ => true | _ => false end.

(** [v === null] *)
Definition is_null (v : jsval num) : bool :=
  match v with JNull => true | _ => false end.

(** [v == null]: [v] is [null] or [undefined]. *)
Definition is_nullish (v : jsval num) : bool :=
  match v with JUndefined | JNull => true | _ => false end.

(** The elements of an array (and nothing for any other value). *)
Definition elements (v : jsval num) : list (jsval num) :=
  match v with JArr elems => elems | _ => [] end.

(** [v.length] of an array. *)
Definition array_length (v : jsval num) : nat := List.length (elements v).

(** [v[0]] of an array: [undefined] when the array is empty. *)
Definition index0 (v : jsval num) : jsval num :=
  match elements v with x :: _ => x | [] => JUndefined end.

(** [Object.values(v)] *)
Definition Object_values (v : jsval num) : list (jsval num) :=
  match v with
  | JArr elems => elems
  | JObj props => map snd props
  | JStr s => map (fun u => JStr [u]) s
  | _ => []
  end.

Definition has_own_property (name : jsstring) (props : list (jsstring * jsval num))
  : bool :=
  existsb (fun p => JsString.eqb (fst p) name) props.

(** All the completions in order; the first exception wins. *)
Fixpoint sequence {A : Type} (l : list (completion A)) : completion (list A) :=
  match l with
  | [] => Normal []
  | Throw :: _ => Throw
  | Normal a :: rest =>
      match sequence rest with
      | Normal r => Normal (a :: r)
      | Throw => Throw
      end
  end.

(** [v.toString()] for a value [v] that came out of [JSON.parse].
    - on [undefined] and [null] the property read throws;
    - an array joins the strings of its elements with a comma, [null] and
      [undefined] elements giving the empty string;
    - a plain object answers [[object Object]], unless it has an own
      property called [toString], which is then no function: calling it
      throws. *)
Fixpoint toString (v : jsval num) : completion jsstring :=
  match v with
  | JUndefined | JNull => Throw
  | JBool b => Normal (if b then lit "true" else lit "false")
  | JNum n => Normal (number_toString n)
  | JStr s => Normal s
  | JArr elems =>
      match sequence
              (map (fun e => if is_nullish e then Normal [] else toString e)
                   elems) with
      | Normal parts => Normal (join (lit ",") parts)
      | Throw => Throw
      end
  | JObj props =>
      if has_own_property (lit "toString") props then Throw
      else Normal (lit "[object Object]")
  end.

(** *** [JSON.stringify] *)

Definition hex_digit (d : N) : code_unit :=
  (if d <? 10 then 48 + d else 87 + d)%N.

(** [\uXXXX], four lowercase hexadecimal digits. *)
Definition unicode_escape (u : code_unit) : jsstring :=
  [BACKSLASH; 117%N;
   hex_digit ((u / 4096) mod 16); hex_digit ((u / 256) mod 16);
   hex_digit ((u / 16) mod 16); hex_digit (u mod 16)].

Definition quote_unit (u : code_unit) : jsstring :=
  (if u =? 8 then [BACKSLASH; 98]
   else if u =? 9 then [BACKSLASH; 116]
   else if u =? 10 then [BACKSLASH; 110]
   else if u =? 12 then [BACKSLASH; 102]
   else if u =? 13 then [BACKSLASH; 114]
   else if u =? 34 then [BACKSLASH; QUOTE]
   else if u =? 92 then [BACKSLASH; BACKSLASH]
   else if u <? 32 then unicode_escape u
   else [u])%N.

Fixpoint quote_body (s : jsstring) : jsstring :=
  match s with
  | [] => []
  | u :: rest =>
      if Utf8.is_high_surrogate u then
        match rest with
        | v :: rest' =>
            if Utf8.is_low_surrogate v then u :: v :: quote_body rest'
            else unicode_escape u ++ quote_body rest
        | [] => unicode_escape u
        end
      else if Utf8.is_low_surrogate u then unicode_escape u ++ quote_body rest
      else quote_unit u ++ quote_body rest
  end.

(** QuoteJSONString of ECMAScript. *)
Definition QuoteJSONString (s : jsstring) : jsstring :=
  [QUOTE] ++ quote_body s ++ [QUOTE].

(** [JSON.stringify(v)], without replacer and indentation; [None] is the
    result [undefined]. *)
Fixpoint JSON_stringify (v : jsval num) : option jsstring :=
  match v with
  | JUndefined => None
  | JNull => Some (lit "null")
  | JBool b => Some (if b then lit "true" else lit "false")
  | JNum n =>
      Some (if number_isFinite n then number_toString n else lit "null")
  | JStr s => Some (QuoteJSONString s)
  | JArr elems =>
      Some (lit "[" ++
            join (lit ",")
              (map (fun e => match JSON_stringify e with
                             | Some s => s
                             | None => lit "null"
                             end) elems)
            ++ lit "]")
  | JObj props =>
      Some (lit "{" ++
            join (lit ",")
              (flat_map (fun p => match JSON_stringify (snd p) with
                                  | Some s => [QuoteJSONString (fst p) ++ lit ":" ++ s]
                                  | None => []
                                  end) props)
            ++ lit "}")
  end.

End Values.

End Js.
Import Js.

(** ** Effects: collaborator calls and exceptions *)

Module Effects.

Section Monad.
Variable event : Type.

(** A computation: how it completes, and the collaborator calls it made,
    oldest first. A call made before an exception stays in the trace. *)
Definition M (A : Type) : Type := (completion A * list event)%type.

Definition ret {A : Type} (a : A) : M A := (Normal a, []).

Definition bind {A B : Type} (m : M A) (f : A -> M B) : M B :=
  match fst m with
  | Normal a => let r := f a in (fst r, snd m ++ snd r)
  | Throw => (Throw, snd m)
  end.

(** [throw]: an expression that raises. *)
Definition throw {A : Type} : M A := (Throw, []).

(** One call to a collaborator: it is recorded, and completes as the
    collaborator decides. *)
Definition call {A : Type} (e : event) (outcome : completion A) : M A :=
  (outcome, [e]).

(** [try { body } catch { handler }] *)
Definition try_catch {A : Type} (body : M A) (handler : M A) : M A :=
  match fst body with
  | Normal a => (Normal a, snd body)
  | Throw => (fst handler, snd body ++ snd handler)
  end.

Definition trace {A : Type} (m : M A) : list event := snd m.
Definition outcome {A : Type} (m : M A) : completion A := fst m.

End Monad.

Arguments ret {event A} a.
Arguments throw {event A}.

End Effects.
Import Effects.

Declare Scope js_scope.
Delimit Scope js_scope with js.
Notation "x <- m ;; k" := (bind m (fun x => k))
  (at level 61, m at next level, right associativity) : js_scope.
Open Scope js_scope.

(** ** The chat route *)

Module Route.

Import Framer.

Section Route.
Context {num : Type} {NUM : JsNumber num}.

(** *** Data *)

Inductive Role := system | user | assistant.

Definition role_name (r : Role) : jsstring :=
  match r with
  | system => lit "system"
  | user => lit "user"
  | assistant => lit "assistant"
  end.

(** A message of the request. The declared type of [content] is [string],
    but the route reads it as any JSON value; [JUndefined] is an absent
    property. *)
Record ChatMessage := {
  role : Role;
  content : jsval num
}.

(** An element of [groqMessages]. [None] is a [content] that is
    [undefined]. *)
Record PromptMessage := {
  p_role : Role;
  p_content : option jsstring
}.

(** A document of the collection; the route reads its [text] only. *)
Record Document := {
  text : jsval num
}.

(** The body of the request after [req.json()], for the bodies of the
    interface: [messages] is absent or [null] ([None]), or it is an array
    of message objects. A body whose [messages] is another value, or an
    array that holds [null], is outside this type; on such a body the
    route can pass validation, call the embedding service and the search,
    and fail in [messages.map], which the outer [catch] answers with
    500. *)
Record RequestBody := {
  messages : option (list ChatMessage)
}.

(** A request; [json] throws when the body is no JSON text. *)
Record Request := {
  json : completion RequestBody
}.

(** What [generateWithGroq] reads of a response of [fetch]: [res.ok], and
    the outcome of [res.json()] followed by
    [json?.choices?.[0]?.message?.content] ([None] when one link of that
    chain is [null] or [undefined]). *)
Record GroqResponse := {
  ok : bool;
  message_content : completion (option jsstring)
}.

(** The shapes of a result of [hf.textGeneration] and [hf.textToText] that
    [generateWithHF] tells apart: a string, an object with or without
    [generated_text], an array of such objects, or [null]/[undefined]. *)
Inductive HfOutput :=
| HfString (s : jsstring)
| HfObject (generated_text : option jsstring)
| HfArray (items : list (option jsstring))
| HfNullish.

(** A call to a collaborator. The sampling temperature, a constant 0.7 in
    every generation call, is not recorded. *)
Inductive event :=
| FeatureExtraction (model inputs : jsstring)
| CollectionFind (vector : list (jsval num)) (limit : nat)
| GroqChatCompletion (model : jsstring) (msgs : list PromptMessage)
    (max_tokens : nat) (stream : bool)
| HfTextGeneration (model inputs : jsstring) (max_new_tokens : nat)
| HfTextToText (model inputs : jsstring) (max_new_tokens : nat).

(** The process environment and the collaborators. *)
Record world := {
  HF_TOKEN : option jsstring;
  GROQ_API_KEY : option jsstring;
  featureExtraction : jsstring -> jsstring -> completion (jsval num);
  find : list (jsval num) -> nat -> completion (list Document);
  fetch_groq : list PromptMessage -> completion GroqResponse;
  textGeneration : jsstring -> jsstring -> completion HfOutput;
  textToText : jsstring -> jsstring -> completion HfOutput
}.

(** Truthiness of an environment variable: set and not empty. *)
Definition env_truthy (v : option jsstring) : bool :=
  match v with
  | Some s => truthy s
  | None => false
  end.

Inductive ResponseBody :=
| Text (s : jsstring)
| Stream (c : controller).

Record Response := {
  status : nat;
  headers : list (jsstring * jsstring);
  body : ResponseBody
}.

#[local] Abbreviation M := (Effects.M event).

Definition lift {A : Type} (c : completion A) : M A := (c, []).

(** What a template literal prints for a value that is a string or
    [undefined]. *)
Definition interpolate (v : option jsstring) : jsstring :=
  match v with
  | Some s => s
  | None => lit "undefined"
  end.

(** [!v] for a value that is a string or [undefined]. *)
Definition not_ (v : option jsstring) : bool :=
  match v with
  | Some s => falsy s
  | None => true
  end.

(** [l[l.length - 1]]: [undefined] on the empty array. *)
Definition last_element {A : Type} (l : list A) : option A :=
  nth_error l (List.length l - 1).

(** [a ?? b] on values that are a string or nullish. *)
Definition nullish_or (a b : option jsstring) : option jsstring :=
  match a with
  | Some s => Some s
  | None => b
  end.

(** [a ?? b] where [b] is a string. *)
Definition coalesce (a : option jsstring) (b : jsstring) : jsstring :=
  match a with
  | Some s => s
  | None => b
  end.

(** *** The Embedding Client *)

Definition embedding_model : jsstring := lit "BAAI/bge-small-en-v1.5".

(** [getHuggingFaceEmbedding(text)]. The exception of a failed call is not
    caught here: it reaches the caller. *)
Definition getHuggingFaceEmbedding (w : world) (text_ : jsstring)
  : M (list (jsval num)) :=
  response <- call (FeatureExtraction embedding_model text_)
                   (featureExtraction w embedding_model text_) ;;
  if Array_isArray response
     && (0 <? array_length response)
     && jstype_eqb (typeof (index0 response)) TNumber
  then ret (elements response)
  else if Array_isArray response
     && (0 <? array_length response)
     && Array_isArray (index0 response)
  then ret (elements (index0 response))
  else if jstype_eqb (typeof response) TObject && negb (is_null response)
  then ret (Object_values response)
  else ret [].

(** The [try]/[catch] around the call in [POST]: a failure is an empty
    vector. *)
Definition embed (w : world) (latestMessage : jsstring)
  : M (list (jsval num)) :=
  try_catch (getHuggingFaceEmbedding w latestMessage) (ret []).

(** *** The Context Retriever *)

(** [JSON.stringify(docsMap)]; [docsMap] is an array, so the result is a
    string. *)
Definition stringify_texts (documents : list Document) : jsstring :=
  interpolate (JSON_stringify (JArr (map text documents))).

(** The second [try] block of [POST]: the vector search, when there is a
    vector. [db.collection], [find] and [cursor.toArray] make one query. *)
Definition retrieve (w : world) (embedding : list (jsval num)) : M jsstring :=
  try_catch
    (if 0 <? List.length embedding then
       documents <- call (CollectionFind embedding 10) (find w embedding 10) ;;
       ret (stringify_texts documents)
     else ret [])
    (ret []).

(** *** The Prompt Assembler *)

(** The three fixed parts of the template literal [systemPrompt], around
    its two holes. *)
Definition instruction : jsstring :=
  lit "You are an AI assistant who knows everything about Formula One. "
  ++ lit "Use the below context to augment what you know about Formula One racing. "
  ++ lit "The context will provide you with the most recent page data from wikipedia, "
  ++ lit "the official F1 website and others. "
  ++ lit "If the context doesn't include the information you need answer based on "
  ++ lit "your existing knowledge and don't mention the source of your information "
  ++ lit "or what the context does or doesn't include. "
  ++ lit "Format responses using markdown where applicable and don't return images."
  ++ [LF] ++ lit "    ---------"
  ++ [LF] ++ lit "    START CONTEXT"
  ++ [LF] ++ lit "    ".

Definition after_context : jsstring :=
  [LF] ++ lit "    END CONTEXT"
  ++ [LF] ++ lit "    ---------"
  ++ [LF] ++ lit "    QUESTION: ".

Definition after_question : jsstring :=
  [LF] ++ lit "    ---------" ++ [LF] ++ lit "    ".

(** The template literal [systemPrompt]. *)
Definition systemPrompt (docContext latestMessage : jsstring) : jsstring :=
  instruction ++ docContext ++ after_context ++ latestMessage
  ++ after_question.

(** [typeof msg.content === 'string' ? msg.content
     : JSON.stringify(msg.content)] *)
Definition coerce_content (c : jsval num) : option jsstring :=
  match c with
  | JStr s => Some s
  | other => JSON_stringify other
  end.

Definition groqMessages (systemPrompt_ : jsstring) (msgs : list ChatMessage)
  : list PromptMessage :=
  {| p_role := system; p_content := Some systemPrompt_ |}
  :: map (fun msg => {| p_role := role msg;
                        p_content := coerce_content (content msg) |}) msgs.

(** The instruction-style prompt of the second tier. *)
Definition prompt_of (gm : list PromptMessage) : jsstring :=
  join [LF]
    (map (fun m => role_name (p_role m) ++ lit ": " ++ interpolate (p_content m))
         gm)
  ++ [LF] ++ lit "assistant:".

(** *** The generation providers *)

Definition groq_model : jsstring := lit "llama-3.1-8b-instant".

(** [generateWithGroq(messages)] *)
Definition generateWithGroq (w : world) (msgs : list PromptMessage)
  : M jsstring :=
  if negb (env_truthy (GROQ_API_KEY w)) then ret []
  else
    try_catch
      (res <- call (GroqChatCompletion groq_model msgs 256 false)
                   (fetch_groq w msgs) ;;
       if negb (ok res) then ret []
       else
         c <- lift (message_content res) ;;
         ret (coalesce c []))
      (ret []).

Definition textGenModels : list jsstring :=
  [lit "bigscience/bloom-560m"; lit "gpt2"; lit "distilgpt2"].

Definition t5Models : list jsstring :=
  [lit "google/flan-t5-base"; lit "google/flan-t5-small"].

(** [result?.generated_text] *)
Definition generated_text_of (result : HfOutput) : option jsstring :=
  match result with
  | HfObject g => g
  | _ => None
  end.

(** [result?.[0]?.generated_text] *)
Definition first_generated_text (result : HfOutput) : option jsstring :=
  match result with
  | HfArray (g :: _) => g
  | _ => None
  end.

(** [typeof result === 'string' ? result
     : (result?.generated_text ?? result?.[0]?.generated_text ?? '')] *)
Definition text_of_result (result : HfOutput) : jsstring :=
  match result with
  | HfString s => s
  | _ => coalesce
           (nullish_or (generated_text_of result)
                       (first_generated_text result))
           []
  end.

(** One of the two [for] loops of [generateWithHF], over the models that
    are left. [Some text] is the [return text] of the loop body, [None] the
    normal end of the loop. The two loops differ in the endpoint only, which
    is the argument [endpoint]. *)
Fixpoint for_models (endpoint : jsstring -> jsstring -> M HfOutput)
    (prompt : jsstring) (models : list jsstring) : M (option jsstring) :=
  match models with
  | [] => ret None
  | model :: rest =>
      returned <-
        try_catch
          (result <- endpoint model prompt ;;
           let text_ := text_of_result result in
           if truthy text_ then ret (Some text_) else ret None)
          (ret None) ;;
      match returned with
      | Some text_ => ret (Some text_)
      | None => for_models endpoint prompt rest
      end
  end.

Definition hf_textGeneration (w : world) (model prompt : jsstring) : M HfOutput :=
  call (HfTextGeneration model prompt 256) (textGeneration w model prompt).

Definition hf_textToText (w : world) (model prompt : jsstring) : M HfOutput :=
  call (HfTextToText model prompt 256) (textToText w model prompt).

(** [generateWithHF(prompt)] *)
Definition generateWithHF (w : world) (prompt : jsstring) : M jsstring :=
  first_family <- for_models (hf_textGeneration w) prompt textGenModels ;;
  match first_family with
  | Some text_ => ret text_
  | None =>
      second_family <- for_models (hf_textToText w) prompt t5Models ;;
      match second_family with
      | Some text_ => ret text_
      | None => ret []
      end
  end.

(** *** The Request Orchestrator *)

(** Step 1 of [start]: [let text = ''; if (GROQ_API_KEY) text = await
    generateWithGroq(groqMessages)]. *)
Definition tier1 (w : world) (gm : list PromptMessage) : M jsstring :=
  if env_truthy (GROQ_API_KEY w) then generateWithGroq w gm else ret [].

(** Step 2 of [start]: [if (!text && HF_TOKEN) text = await
    generateWithHF(prompt)]. *)
Definition tier2 (w : world) (prompt : jsstring) (text1 : jsstring)
  : M jsstring :=
  if falsy text1 && env_truthy (HF_TOKEN w) then generateWithHF w prompt
  else ret text1.

(** The end of the [try] block of [start]: the apology through [emit], or
    the text through [streamText]; then [controller.close()]. *)
Definition deliver (c : controller) (text_ : jsstring) : controller :=
  close (if falsy text_ then emit c apology else streamText c text_ emit).

(** [start(controller)] of the response stream. Nothing is enqueued in the
    [try] block before its last two statements, which do not throw, so the
    handler starts from the controller as it was given. *)
Definition start (w : world) (gm : list PromptMessage) (prompt : jsstring)
    (c : controller) : M controller :=
  try_catch
    (text1 <- tier1 w gm ;;
     text2 <- tier2 w prompt text1 ;;
     ret (deliver c text2))
    (ret (close (emit c apology))).

(** [messages?.[messages.length - 1]?.content?.toString().trim()];
    [None] is [undefined]. *)
Definition latestMessage_of (msgs : option (list ChatMessage))
  : M (option jsstring) :=
  match msgs with
  | None => ret None
  | Some l =>
      match last_element l with
      | None => ret None
      | Some m =>
          if is_nullish (content m) then ret None
          else s <- lift (toString (content m)) ;; ret (Some (trim s))
      end
  end.

Definition json_headers : list (jsstring * jsstring) :=
  [(lit "Content-Type", lit "application/json")].

Definition stream_headers : list (jsstring * jsstring) :=
  [(lit "Content-Type", lit "text/plain; charset=utf-8");
   (lit "Cache-Control", lit "no-cache");
   (lit "Connection", lit "keep-alive")].

(** [new Response(JSON.stringify({ error: msg }), { status, headers })] *)
Definition error_response (status_ : nat) (msg : jsstring) : Response :=
  {| status := status_;
     headers := json_headers;
     body := Text (interpolate
                     (JSON_stringify (JObj [(lit "error", JStr msg)]))) |}.

(** [POST(req)]. A [Response] built without [status] has status 200. Past
    the test [!latestMessage], [latestMessage] is a string. *)
Definition POST (w : world) (req : Request) : M Response :=
  try_catch
    (parsed <- lift (json req) ;;
     latestMessage <- latestMessage_of (messages parsed) ;;
     if not_ latestMessage then
       ret (error_response 400 (lit "No user message provided."))
     else
       let latestMessage := interpolate latestMessage in
       embedding <- embed w latestMessage ;;
       docContext <- retrieve w embedding ;;
       match messages parsed with
       | None => throw
       | Some msgs =>
           let gm := groqMessages (systemPrompt docContext latestMessage) msgs in
           if negb (env_truthy (HF_TOKEN w)) then
             ret (error_response 400 (lit "Missing HF_TOKEN in environment."))
           else
             let prompt := prompt_of gm in
             c <- start w gm prompt new_controller ;;
             ret {| status := 200;
                    headers := stream_headers;
                    body := Stream c |}
       end)
    (ret (error_response 500 (lit "Internal server error"))).

End Route.

Arguments ChatMessage : clear implicits.
Arguments Document : clear implicits.
Arguments RequestBody : clear implicits.
Arguments Request : clear implicits.
Arguments event : clear implicits.
Arguments world : clear implicits.

End Route.

(** ** Reference notions of the specification *)

(** The reader that the round-trip law (section 3, FramedChunk) presupposes:
    it decodes the bytes of a frame, takes the text between the opening
    (zero, colon, quote) and the closing (quote, line feed), and undoes the
    escaping of the quote and of the newline. It is written after the
    specification; the route has no such code. *)
Module Reader.

(** UTF-8 to UTF-16, for the byte sequences that [Utf8.encode] writes. *)
Fixpoint decode (b : Utf8.bytes) : jsstring :=
  match b with
  | [] => []
  | b0 :: r0 =>
      (if b0 <? 0x80 then b0 :: decode r0
       else if b0 <? 0xE0 then
         match r0 with
         | b1 :: r1 => ((b0 - 0xC0) * 64 + (b1 - 0x80)) :: decode r1
         | _ => [0xFFFD]
         end
       else if b0 <? 0xF0 then
         match r0 with
         | b1 :: b2 :: r2 =>
             ((b0 - 0xE0) * 4096 + (b1 - 0x80) * 64 + (b2 - 0x80)) :: decode r2
         | _ => [0xFFFD]
         end
       else
         match r0 with
         | b1 :: b2 :: b3 :: r3 =>
             let cp := (b0 - 0xF0) * 262144 + (b1 - 0x80) * 4096
                       + (b2 - 0x80) * 64 + (b3 - 0x80) in
             (0xD800 + (cp - 0x10000) / 0x400)
               :: (0xDC00 + (cp - 0x10000) mod 0x400) :: decode r3
         | _ => [0xFFFD]
         end)%N
  end.

(** The inverse of the two replacements of [Framer.escape]: backslash-quote
    is a quote, backslash-n is a newline. *)
Fixpoint unescape (s : jsstring) : jsstring :=
  match s with
  | [] => []
  | u :: rest =>
      match rest with
      | v :: rest' =>
          if (u =? BACKSLASH)%N && (v =? QUOTE)%N then QUOTE :: unescape rest'
          else if (u =? BACKSLASH)%N && (v =? 110)%N then LF :: unescape rest'
          else u :: unescape rest
      | [] => [u]
      end
  end.

Definition strip_prefix (p s : jsstring) : option jsstring :=
  if JsString.eqb (firstn (List.length p) s) p
  then Some (skipn (List.length p) s) else None.

Definition strip_suffix (p s : jsstring) : option jsstring :=
  if (List.length p <=? List.length s)
     && JsString.eqb (skipn (List.length s - List.length p) s) p
  then Some (firstn (List.length s - List.length p) s) else None.

(** The escaped text of a frame: what stands between its opening and its
    closing. *)
Definition escaped_text (frame : jsstring) : option jsstring :=
  match strip_prefix Framer.frame_open frame with
  | Some r => strip_suffix Framer.frame_close r
  | None => None
  end.

(** The unescaped payload of one chunk of the stream. *)
Definition payload (chunk : Utf8.bytes) : option jsstring :=
  option_map unescape (escaped_text (decode chunk)).

(** The unescaped payloads of the chunks, concatenated in emission order;
    [None] when a chunk is no frame. *)
Fixpoint reconstruct (chunks : list Utf8.bytes) : option jsstring :=
  match chunks with
  | [] => Some []
  | chunk :: rest =>
      match payload chunk, reconstruct rest with
      | Some p, Some r => Some (p ++ r)
      | _, _ => None
      end
  end.

(** A string without unpaired surrogate, made of 16-bit code units. *)
Fixpoint well_formed (s : jsstring) : bool :=
  match s with
  | [] => true
  | u :: rest =>
      if Utf8.is_high_surrogate u then
        match rest with
        | v :: rest' => Utf8.is_low_surrogate v && well_formed rest'
        | [] => false
        end
      else negb (Utf8.is_low_surrogate u) && (u <? 0x10000)%N
           && well_formed rest
  end.

(** A backslash followed by the letter n occurs in the string. *)
Fixpoint has_backslash_n (s : jsstring) : bool :=
  match s with
  | [] => false
  | u :: rest =>
      match rest with
      | v :: _ => (u =? BACKSLASH)%N && (v =? 110)%N || has_backslash_n rest
      | [] => false
      end
  end.

(** Text below the surrogates and without backslash. *)
Definition plain (s : jsstring) : bool :=
  forallb (fun u => (u <? 0xD800)%N && negb (u =? BACKSLASH)%N) s.

(** A piece of text that a frame carries without loss. *)
Definition faithful (piece : jsstring) : Prop :=
  well_formed piece = true /\ has_backslash_n piece = false.

End Reader.

(** The slices of section 4.5: consecutive windows of [chunkSize] code
    units, from left to right. *)
Module Slices.

Import Framer.

Definition slice_count (text : jsstring) : nat :=
  (List.length text + (chunkSize - 1)) / chunkSize.

Definition slices (text : jsstring) : list jsstring :=
  map (fun k => slice text (k * chunkSize) (k * chunkSize + chunkSize))
      (seq 0 (slice_count text)).

(** The frame of one piece of text, as bytes. *)
Definition frame (piece : jsstring) : Utf8.bytes :=
  Utf8.encode (formatted piece).

(** The frame that would carry an empty text. *)
Definition empty_frame : Utf8.bytes := [48; 58; 34; 34; 10]%N.

(** The string starts with a low surrogate. *)
Definition starts_low (t : jsstring) : bool :=
  match t with
  | v :: _ => Utf8.is_low_surrogate v
  | [] => false
  end.

(** Escaping in one pass over the text. *)
Definition escape_unit (u : code_unit) : jsstring :=
  if (u =? QUOTE)%N then [BACKSLASH; QUOTE]
  else if (u =? LF)%N then [BACKSLASH; 110%N]
  else [u].

(** The code units that the reader takes for escaped after a backslash. *)
Definition escapable (v : code_unit) : bool :=
  ((v =? QUOTE) || (v =? 110))%N.

(** The pieces of text that [deliver] turns into frames: the apology alone,
    or the slices of the text. *)
Definition pieces_of (text_ : jsstring) : list jsstring :=
  if falsy text_ then [apology] else slices text_.

End Slices.

(** The fallback policy of section 4.4, second tier: the attempts in their
    declared order, and the first of them that yields text. *)
Module Tier2.

Import Route.

Section Tier2.
Context {num : Type} {NUM : JsNumber num}.

Inductive family := CausalTextGeneration | TextToText.

Definition attempt := (family * jsstring)%type.

Definition declared_order : list attempt :=
  map (pair CausalTextGeneration) textGenModels
  ++ map (pair TextToText) t5Models.

Definition attempt_event (prompt : jsstring) (a : attempt) : event num :=
  match fst a with
  | CausalTextGeneration => HfTextGeneration (snd a) prompt 256
  | TextToText => HfTextToText (snd a) prompt 256
  end.

Definition attempt_outcome (w : world num) (prompt : jsstring) (a : attempt)
  : completion HfOutput :=
  match fst a with
  | CausalTextGeneration => textGeneration w (snd a) prompt
  | TextToText => textToText w (snd a) prompt
  end.

(** The text an attempt yields: empty when the call fails. *)
Definition attempt_text (w : world num) (prompt : jsstring) (a : attempt)
  : jsstring :=
  match attempt_outcome w prompt a with
  | Normal result => text_of_result result
  | Throw => []
  end.

(** The text that a result of the inference library carries, after the
    documentation of the library and not after the route: a string is its
    own text, an object carries its [generated_text], and an array (the
    result of a text-to-text call) the [generated_text] of its first
    item. *)
Inductive carries : HfOutput -> jsstring -> Prop :=
| carries_string (s : jsstring) : carries (HfString s) s
| carries_object (g : jsstring) : carries (HfObject (Some g)) g
| carries_first_item (g : jsstring) (rest : list (option jsstring)) :
    carries (HfArray (Some g :: rest)) g.

(** A model returns non-empty text: its call succeeds with a result that
    carries a text, and that text is not empty. *)
Definition returns_text (w : world num) (prompt : jsstring) (a : attempt)
    (t : jsstring) : Prop :=
  exists result,
    attempt_outcome w prompt a = Normal result
    /\ carries result t /\ t <> [].

(** A model fails or returns empty. *)
Definition returns_nothing (w : world num) (prompt : jsstring) (a : attempt)
  : Prop :=
  forall t, ~ returns_text w prompt a t.

(** The attempts made, in order, and the text obtained: attempts stop at
    the first one that yields text. *)
Fixpoint first_text (w : world num) (prompt : jsstring) (attempts : list attempt)
  : list attempt * jsstring :=
  match attempts with
  | [] => ([], [])
  | a :: rest =>
      if truthy (attempt_text w prompt a) then ([a], attempt_text w prompt a)
      else (a :: fst (first_text w prompt rest),
            snd (first_text w prompt rest))
  end.

(** The endpoint of a family, and the result of a loop over attempts. *)
Definition endpoint_of (w : world num) (f : family)
  : jsstring -> jsstring -> M (event num) HfOutput :=
  match f with
  | CausalTextGeneration => hf_textGeneration w
  | TextToText => hf_textToText w
  end.

Definition found (r : list attempt * jsstring) : option jsstring :=
  if truthy (snd r) then Some (snd r) else None.

Definition is_tier1 (e : event num) : bool :=
  match e with GroqChatCompletion _ _ _ _ => true | _ => false end.

Definition is_tier2 (e : event num) : bool :=
  match e with
  | HfTextGeneration _ _ _ | HfTextToText _ _ _ => true
  | _ => false
  end.

Definition is_search (e : event num) : bool :=
  match e with CollectionFind _ _ => true | _ => false end.

End Tier2.

End Tier2.

(** The stages of the request lifecycle (section 4.6), for a given
    request. *)
Module Lifecycle.

Import Framer Route.

Section Lifecycle.
Context {num : Type} {NUM : JsNumber num}.
Implicit Types (w : world num) (req : Request num) (s prompt : jsstring).

(** A request that passes validation: its body parses, [messages] is an
    array, and the text of the last message, trimmed, is [s] and is not
    empty. *)
Definition validated req (msgs : list (ChatMessage num)) s : Prop :=
  (exists parsed, json req = Normal parsed /\ messages parsed = Some msgs)
  /\ outcome (latestMessage_of (Some msgs)) = Normal (Some s)
  /\ s <> [].

(** The vector and the context that the route computes for a question. *)
Definition embedding_for w s : list (jsval num) :=
  match outcome (embed w s) with Normal v => v | Throw => [] end.

Definition context_for w s : jsstring :=
  match outcome (retrieve w (embedding_for w s)) with
  | Normal d => d
  | Throw => []
  end.

Definition assembled w (msgs : list (ChatMessage num)) s
  : list PromptMessage :=
  groqMessages (systemPrompt (context_for w s) s) msgs.

Definition stream_response (c : controller) : Response :=
  {| status := 200; headers := stream_headers; body := Stream c |}.

Definition missing_token : Response :=
  error_response 400 (lit "Missing HF_TOKEN in environment.").

Definition no_user_message : Response :=
  error_response 400 (lit "No user message provided.").

Definition internal_error : Response :=
  error_response 500 (lit "Internal server error").

(** The body of an error response, as text. *)
Definition error_body (msg : jsstring) : jsstring :=
  [123; 34]%N ++ lit "error" ++ [34; 58; 34]%N ++ msg ++ [34; 125]%N.

(** The number of messages of a role in an assembled prompt, and in a
    conversation. *)
Definition is_system (r : Role) : bool :=
  match r with system => true | _ => false end.

Definition system_count (gm : list PromptMessage) : nat :=
  List.length (filter (fun m => is_system (p_role m)) gm).

Definition system_count_in (msgs : list (ChatMessage num)) : nat :=
  List.length (filter (fun m => is_system (role m)) msgs).

End Lifecycle.

End Lifecycle.

(** The integers from 0 to [2^53 - 1]. Each of them is a number of
    JavaScript, which prints it with all its decimal digits: an instance of
    [JsNumber] to run the route on concrete requests. *)
Module IntNumbers.

Record safe_integer := SafeInteger {
  magnitude : N;
  is_safe : (magnitude <? 2 ^ 53)%N = true
}.

#[export] Instance int_number : JsNumber safe_integer := {
  number_toString z :=
    lit (DecimalString.NilEmpty.string_of_uint (N.to_uint (magnitude z)));
  number_isFinite _ := true
}.

End IntNumbers.


(** Concrete deployments and requests, on which the route is run. *)
Module Scenarios.

Import Framer Route IntNumbers.

Definition question : jsstring := lit "Who won the 2023 championship?".

Definition conversation : list (ChatMessage safe_integer) :=
  [{| role := user; content := JStr question |}].

Definition request_of (msgs : list (ChatMessage safe_integer))
  : Request safe_integer :=
  {| json := Normal {| messages := Some msgs |} |}.

Definition two_documents : list (Document safe_integer) :=
  [{| text := JStr (lit "Max Verstappen won the 2023 title.") |};
   {| text := JStr (lit "Red Bull won the 2023 constructors' title.") |}].

Definition vector : jsval safe_integer :=
  JArr [JNum (SafeInteger 1 eq_refl); JNum (SafeInteger 2 eq_refl);
        JNum (SafeInteger 3 eq_refl)].

(** A deployment: the two credentials, and what each collaborator answers
    (the same whatever it is asked; a second-tier endpoint answers by
    model). *)
Definition deployment (hf_token groq_key : option jsstring)
    (embedding_response : completion (jsval safe_integer))
    (documents : completion (list (Document safe_integer)))
    (chat : completion GroqResponse)
    (generation text2text : jsstring -> completion HfOutput)
  : world safe_integer :=
  {| HF_TOKEN := hf_token;
     GROQ_API_KEY := groq_key;
     featureExtraction := fun _ _ => embedding_response;
     find := fun _ _ => documents;
     fetch_groq := fun _ => chat;
     textGeneration := fun model _ => generation model;
     textToText := fun model _ => text2text model |}.

Definition groq_says (s : jsstring) : completion GroqResponse :=
  Normal {| ok := true; message_content := Normal (Some s) |}.

Definition down : jsstring -> completion HfOutput := fun _ => Throw.

Definition only (model : jsstring) (answer : HfOutput)
  : jsstring -> completion HfOutput :=
  fun m => if JsString.eqb m model then Normal answer else Throw.

(** A request whose only message is blank. *)
Definition blank_request : Request safe_integer :=
  request_of [{| role := user; content := JStr (lit "   ") |}].

Definition hf_secret : option jsstring := Some (lit "hf_secret").
Definition groq_secret : option jsstring := Some (lit "gsk_secret").

Definition verstappen : jsstring := lit "Max Verstappen.".

(** Both credentials set, the first tier answers. *)
Definition healthy : world safe_integer :=
  deployment hf_secret groq_secret (Normal vector) (Normal two_documents)
    (groq_says verstappen) down down.

(** No first-tier credential, and every model of the second tier fails. *)
Definition all_down : world safe_integer :=
  deployment hf_secret None (Normal vector) (Normal two_documents)
    Throw down down.

(** The first tier is configured and would answer; [HF_TOKEN] is not set. *)
Definition groq_only : world safe_integer :=
  deployment None groq_secret (Normal vector) (Normal two_documents)
    (groq_says verstappen) down down.

(** No first-tier credential; of the second tier only [flan-t5-base]
    answers. *)
Definition flan_only : world safe_integer :=
  deployment hf_secret None (Normal vector) (Normal two_documents)
    Throw down
    (only (lit "google/flan-t5-base") (HfArray [Some verstappen])).

(** The embedding service answers with an array of strings. *)
Definition odd_embedding : world safe_integer :=
  deployment hf_secret groq_secret (Normal (JArr [JStr (lit "a")]))
    (Normal two_documents) (groq_says verstappen) down down.

(** A conversation that already holds a system message. *)
Definition with_system_message : list (ChatMessage safe_integer) :=
  [{| role := system; content := JStr (lit "Answer in French.") |};
   {| role := user; content := JStr question |}].

End Scenarios.

(** ** Further notions, for the properties beyond the claims *)

Module Bounds.

(** A string of JavaScript: every code unit fits in 16 bits. *)
Definition utf16 (s : jsstring) : Prop :=
  Forall (fun u => (u < 65536)%N) s.

End Bounds.

(** ** The streaming variant of the route

    The second route file answers with the token stream of the provider:
    its [start] reads the body of the provider's response piece by piece,
    takes the server-sent events out of each piece and writes one frame for
    each text delta. *)

Module Streaming.

Import Framer Route.

(** [s.startsWith(p)] *)
Definition startsWith (p s : jsstring) : bool :=
  JsString.eqb (firstn (List.length p) s) p.

(** [s.split('\n')]: the pieces of [s] between line feeds; one more piece
    than there are line feeds, so the empty string gives one empty piece. *)
Fixpoint split_lines (s : jsstring) : list jsstring :=
  match s with
  | [] => [[]]
  | u :: rest =>
      if (u =? LF)%N then [] :: split_lines rest
      else match split_lines rest with
           | line :: lines => (u :: line) :: lines
           | [] => [[u]]
           end
  end.

(** What the client of the stream can observe of the controller: the chunks
    enqueued, oldest first, and whether [close] or [error] was called. *)
Inductive stream_state := StreamOpen | StreamClosed | StreamErrored.

Record sse_controller := SseController {
  sent : list Utf8.bytes;
  state : stream_state
}.

(** How the body of the provider's response ends: [read] reports [done], or
    [read] rejects. *)
Inductive ending := EndOfBody | ReadFails.

(** The body of the provider's response, as [start] reads it: the text that
    [decoder.decode(value)] gives for each value read, in order, and how
    the body ends. *)
Record body_reader := {
  values : list jsstring;
  body_end : ending
}.

(** What [start] leaves behind: the controller, and whether the lock of the
    reader was released ([None] when no reader was taken). *)
Record start_result := {
  controller_after : sse_controller;
  lock_released : option bool
}.

Section Start.
Context {num : Type} {NUM : JsNumber num}.

(** [JSON.parse(data)] followed by [parsed.choices?.[0]?.delta?.content],
    as far as the loop body tells the outcomes apart:
    - [Throw] when [data] is no JSON text, when the path cannot be read, or
      when the content is a truthy value that is no string ([replace] is
      then no function); the inner [catch] takes all three;
    - [Normal None] when the content is a falsy value that is no string
      ([undefined], [null], [false], zero);
    - [Normal (Some s)] when the content is the string [s]. *)
Variable delta_content : jsstring -> completion (option jsstring).

Definition DONE : jsstring := lit "[DONE]".
Definition data_prefix : jsstring := lit "data: ".

(** The body of the [for] loop, for one line. The result is the queue and
    whether the loop body returned from [start] (it does on [[DONE]], after
    closing the controller). The frame is the template literal
    [formattedChunk], the same text as [formatted] of [emit]. *)
Definition on_line (queue_ : list Utf8.bytes) (line : jsstring)
  : list Utf8.bytes * bool :=
  if startsWith data_prefix line then
    let data := trim (slice line 6 (List.length line)) in
    if JsString.eqb data DONE then (queue_, true)
    else
      match delta_content data with
      | Normal (Some content) =>
          if truthy content
          then (queue_ ++ [Utf8.encode (formatted content)], false)
          else (queue_, false)
      | Normal None => (queue_, false)
      | Throw => (queue_, false)
      end
  else (queue_, false).

(** [for (const line of lines) { ... }] *)
Fixpoint on_lines (queue_ : list Utf8.bytes) (lines : list jsstring)
  : list Utf8.bytes * bool :=
  match lines with
  | [] => (queue_, false)
  | line :: rest =>
      let r := on_line queue_ line in
      if snd r then r else on_lines (fst r) rest
  end.

(** [while (true) { ... }] with its [try], [catch] and the [return] of the
    loop body. *)
Fixpoint read_loop (queue_ : list Utf8.bytes) (vs : list jsstring)
    (e : ending) : sse_controller :=
  match vs with
  | [] =>
      match e with
      | EndOfBody => SseController queue_ StreamOpen
      | ReadFails => SseController queue_ StreamErrored
      end
  | chunk :: rest =>
      let r := on_lines queue_ (split_lines chunk) in
      if snd r then SseController (fst r) StreamClosed
      else read_loop (fst r) rest e
  end.

(** [start(controller)] of the streaming route; [None] is a response
    without body. *)
Definition start (body_ : option body_reader) : start_result :=
  match body_ with
  | None =>
      {| controller_after := SseController [] StreamClosed;
         lock_released := None |}
  | Some reader =>
      {| controller_after := read_loop [] (values reader) (body_end reader);
         lock_released := Some true |}
  end.

(** The text deltas that a piece of the body carries, up to its first
    [[DONE]]: a reference for what [on_lines] writes. *)
Definition delta_of (line : jsstring) : option jsstring :=
  if startsWith data_prefix line then
    match delta_content (trim (slice line 6 (List.length line))) with
    | Normal (Some content) => if truthy content then Some content else None
    | _ => None
    end
  else None.

Definition is_done (line : jsstring) : bool :=
  startsWith data_prefix line
  && JsString.eqb (trim (slice line 6 (List.length line))) DONE.

(** The lines before the first [[DONE]] line, and whether there is one. *)
Fixpoint until_done (lines : list jsstring) : list jsstring * bool :=
  match lines with
  | [] => ([], false)
  | line :: rest =>
      if is_done line then ([], true)
      else (line :: fst (until_done rest), snd (until_done rest))
  end.

Definition before_done (lines : list jsstring) : list jsstring :=
  fst (until_done lines).

Definition done_seen (lines : list jsstring) : bool :=
  snd (until_done lines).

(** The state in which the end of the body leaves the stream. *)
Definition end_state (e : ending) : stream_state :=
  match e with
  | EndOfBody => StreamOpen
  | ReadFails => StreamErrored
  end.

(** The lines that [start] sees: those of each read, split by itself, read
    after read. A line of the body that a read boundary cuts is seen as two
    lines. *)
Definition lines_of (vs : list jsstring) : list jsstring :=
  flat_map split_lines vs.

(** The text of the whole body, and its lines. *)
Definition body_text (vs : list jsstring) : jsstring := concat vs.

Definition body_lines (vs : list jsstring) : list jsstring :=
  split_lines (body_text vs).

(** A read that ends at the end of a line. *)
Definition ends_a_line (v : jsstring) : Prop :=
  exists a, v = a ++ [LF].

(** The deltas of some lines, in order. *)
Definition deltas (lines : list jsstring) : list jsstring :=
  flat_map (fun line => match delta_of line with
                        | Some content => [content]
                        | None => []
                        end) lines.

(** *** The route handler of the streaming variant *)

(** What [POST] reads of the response of [fetch]: [response.ok], the
    outcome of [response.text()], and [response.body] ([None] when it is
    [null]). *)
Record ProviderResponse := {
  response_ok : bool;
  response_text : completion jsstring;
  response_body : option body_reader
}.

(** A call to a collaborator. The input of the embedding call is whatever
    [content] the last message has. *)
Inductive call_made :=
| EmbeddingCall (model : jsstring) (inputs : jsval num)
| SearchCall (vector : list (jsval num)) (limit : nat)
| CompletionCall (model : jsstring) (msgs : list PromptMessage)
    (max_tokens : nat) (stream : bool).

(** The collaborators of the streaming variant. It reads no credential
    before it calls them. *)
Record services := {
  hf_featureExtraction : jsstring -> jsval num -> completion (jsval num);
  collection_find : list (jsval num) -> nat -> completion (list (Document num));
  fetch : list PromptMessage -> completion ProviderResponse
}.

Inductive StreamingBody :=
| ErrorText (s : jsstring)
| TokenStream (r : start_result).

Record StreamingResponse := {
  response_status : nat;
  response_headers : list (jsstring * jsstring);
  response_content : StreamingBody
}.

#[local] Abbreviation M := (Effects.M call_made).

Definition lift {A : Type} (c : completion A) : M A := (c, []).

(** [getHuggingFaceEmbedding(text)] of the streaming variant: the same
    function body as in the first variant; its argument is not known to be
    a string. *)
Definition getHuggingFaceEmbedding (w : services) (text_ : jsval num)
  : M (list (jsval num)) :=
  response <- call (EmbeddingCall embedding_model text_)
                   (hf_featureExtraction w embedding_model text_) ;;
  if Array_isArray response
     && (0 <? array_length response)
     && jstype_eqb (typeof (index0 response)) TNumber
  then ret (elements response)
  else if Array_isArray response
     && (0 <? array_length response)
     && Array_isArray (index0 response)
  then ret (elements (index0 response))
  else if jstype_eqb (typeof response) TObject && negb (is_null response)
  then ret (Object_values response)
  else ret [].

(** [messages[messages.length - 1]?.content] *)
Definition latestMessage_of (msgs : list (ChatMessage num)) : jsval num :=
  match last_element msgs with
  | Some m => content m
  | None => JUndefined
  end.

(** What a template literal prints for a value: [undefined] and [null] by
    name, any other value as its [toString] does. *)
Definition template_text (v : jsval num) : completion jsstring :=
  match v with
  | JUndefined => Normal (lit "undefined")
  | JNull => Normal (lit "null")
  | other => toString other
  end.

(** The [try] block around the vector search: it is made whatever the
    vector is. *)
Definition search (w : services) (embedding : list (jsval num)) : M jsstring :=
  try_catch
    (documents <- call (SearchCall embedding 10) (collection_find w embedding 10) ;;
     ret (stringify_texts documents))
    (ret []).

Definition streaming_model : jsstring := lit "llama3-70b-8192".

Definition token_stream_headers : list (jsstring * jsstring) :=
  [(lit "Content-Type", lit "text/x-unknown; charset=utf-8");
   (lit "Cache-Control", lit "no-cache");
   (lit "Connection", lit "keep-alive")].

Definition internal_server_error : StreamingResponse :=
  {| response_status := 500;
     response_headers := json_headers;
     response_content :=
       ErrorText (interpolate
                    (JSON_stringify (num := num)
                       (JObj [(lit "error", JStr (lit "Internal server error"))]))) |}.

(** [POST(req)] of the streaming variant. The template literal
    [systemPrompt] is the one of the first variant, and so is the
    expression [groqMessages]. *)
Definition POST (w : services) (req : Request num) : M StreamingResponse :=
  try_catch
    (parsed <- lift (json req) ;;
     match messages parsed with
     | None => throw
     | Some msgs =>
         let latestMessage := latestMessage_of msgs in
         embedding <- getHuggingFaceEmbedding w latestMessage ;;
         docContext <- search w embedding ;;
         question_ <- lift (template_text latestMessage) ;;
         let gm := groqMessages (systemPrompt docContext question_) msgs in
         response <- call (CompletionCall streaming_model gm 2000 true)
                          (fetch w gm) ;;
         if negb (response_ok response) then
           errorData <- lift (response_text response) ;;
           throw
         else
           ret {| response_status := 200;
                  response_headers := token_stream_headers;
                  response_content := TokenStream (start (response_body response)) |}
     end)
    (ret internal_server_error).

(** The vector and the context that the route computes for the content of
    the last message. *)
Definition vector_for (w : services) (latestMessage : jsval num)
  : list (jsval num) :=
  match outcome (getHuggingFaceEmbedding w latestMessage) with
  | Normal v => v
  | Throw => []
  end.

Definition context_of (w : services) (v : list (jsval num)) : jsstring :=
  match outcome (search w v) with
  | Normal d => d
  | Throw => []
  end.

Definition token_stream (r : start_result) : StreamingResponse :=
  {| response_status := 200;
     response_headers := token_stream_headers;
     response_content := TokenStream r |}.

End Start.

Arguments ProviderResponse : clear implicits.
Arguments call_made : clear implicits.
Arguments services : clear implicits.
Arguments StreamingBody : clear implicits.
Arguments StreamingResponse : clear implicits.

End Streaming.

(** Concrete bodies and services, on which the streaming variant is run. *)
Module StreamScenarios.

Import Framer Route Streaming IntNumbers Scenarios.

Definition quoted (s : string) : jsstring := [QUOTE] ++ lit s ++ [QUOTE].

(** The data of an event of the provider, before and after its text. *)
Definition event_open : jsstring :=
  lit "{" ++ quoted "choices" ++ lit ":[{" ++ quoted "delta" ++ lit ":{"
  ++ quoted "content" ++ lit ":" ++ [QUOTE].

Definition event_close : jsstring := [QUOTE] ++ lit "}}]}".

(** A text that stands for itself between the quotes of a JSON string. *)
Definition unescaped (s : jsstring) : bool :=
  forallb (fun u => (32 <=? u)%N && negb (u =? QUOTE)%N
                    && negb (u =? BACKSLASH)%N) s.

(** A stand-in for [JSON.parse] and the path to the delta: it knows the one
    shape [event_open ++ text ++ event_close] with [text] unescaped, for
    which it answers as [JSON.parse] does; any other data is no JSON for
    it. *)
Definition parse_delta (data : jsstring) : completion (option jsstring) :=
  let n := List.length data in
  let a := List.length event_open in
  let z := List.length event_close in
  if startsWith event_open data && (a + z <=? n)
     && JsString.eqb (slice data (n - z) n) event_close
  then
    let content := slice data a (n - z) in
    if unescaped content then Normal (Some content) else Throw
  else Throw.

(** One server-sent event, without the blank line that ends it. *)
Definition sse (content : jsstring) : jsstring :=
  lit "data: " ++ event_open ++ content ++ event_close.

Definition done_event : jsstring := lit "data: [DONE]".

Definition blank_line : jsstring := [LF; LF].

(** The provider sends two deltas in one piece and the end mark in a
    second piece. *)
Definition two_deltas : body_reader :=
  {| values := [sse (lit "Max ") ++ blank_line ++ sse (lit "Verstappen.")
                ++ blank_line;
                done_event ++ blank_line];
     body_end := EndOfBody |}.

(** The same deltas; the body ends without the end mark. *)
Definition no_end_mark : body_reader :=
  {| values := [sse (lit "Max ") ++ blank_line;
                sse (lit "Verstappen.") ++ blank_line];
     body_end := EndOfBody |}.

(** A body whose end mark is followed by more, and by a failing read. *)
Definition more_after_the_end : list jsstring := [sse (lit "ignored")].

(** The two halves of one event that a read boundary cuts. *)
Definition first_half : jsstring := firstn 30 (sse verstappen).
Definition second_half : jsstring := skipn 30 (sse verstappen).

Definition services_with
    (embedding_response : completion (jsval safe_integer))
    (documents : completion (list (Document safe_integer)))
    (provider : completion ProviderResponse) : services safe_integer :=
  {| hf_featureExtraction := fun _ _ => embedding_response;
     collection_find := fun _ _ => documents;
     fetch := fun _ => provider |}.

Definition provider_streams (r : body_reader) : completion ProviderResponse :=
  Normal {| response_ok := true;
            response_text := Normal [];
            response_body := Some r |}.

Definition provider_refuses : completion ProviderResponse :=
  Normal {| response_ok := false;
            response_text := Normal (lit "rate limit");
            response_body := None |}.

Definition streaming : services safe_integer :=
  services_with (Normal vector) (Normal two_documents)
    (provider_streams two_deltas).

Definition empty_conversation : Request safe_integer := request_of [].

End StreamScenarios.

(** ** The loading script

    The script that fills the collection: it creates the collection, then
    scrapes eight pages, strips the tags of each, splits the text into
    chunks, and inserts every chunk with its vector. *)

Module LoadDb.

Definition LESS_THAN : code_unit := 60%N.
Definition GREATER_THAN : code_unit := 62%N.

(** A greater-than sign occurs in the string. *)
Definition has_greater_than (s : jsstring) : bool :=
  existsb (fun u => (u =? GREATER_THAN)%N) s.

(** [s.replace(/<[^>]*>/gm, '')], read from left to right. A match starts
    at a less-than sign that has a greater-than sign somewhere after it, and
    ends with the first one; [inside] tells that a match has started. The
    class [[^>]] takes any code unit but the greater-than sign, line ends
    included, so the flag [m] changes nothing. *)
Fixpoint replace_tags (inside : bool) (s : jsstring) : jsstring :=
  match s with
  | [] => []
  | u :: rest =>
      if inside then
        if (u =? GREATER_THAN)%N then replace_tags false rest
        else replace_tags true rest
      else if (u =? LESS_THAN)%N && has_greater_than rest
      then replace_tags true rest
      else u :: replace_tags false rest
  end.

Definition strip_tags (s : jsstring) : jsstring := replace_tags false s.

(** A less-than sign that has a greater-than sign after it occurs in the
    string: the pattern has a match. *)
Fixpoint has_tag (s : jsstring) : bool :=
  match s with
  | [] => false
  | u :: rest =>
      (u =? LESS_THAN)%N && has_greater_than rest || has_tag rest
  end.

Definition f1Data : list jsstring :=
  [lit "https://en.wikipedia.org/wiki/Formula_One";
   lit "https://www.formula1.com/en/latest.html";
   lit "https://en.wikipedia.org/wiki/2023_Formula_One_World_Championship";
   lit "https://en.wikipedia.org/wiki/2022_Formula_One_World_Championship";
   lit "https://en.wikipedia.org/wiki/List_of_Formula_One_World_Drivers%27_Champions";
   lit "https://en.wikipedia.org/wiki/2024_Formula_One_World_Championship";
   lit "https://www.formula1.com/en/results.html/2024/races.html";
   lit "https://www.formula1.com/en/racing/2024.html"].

Inductive SimilarityMetric := dot_product | cosine | euclidean.

Section Script.
Context {num : Type} {NUM : JsNumber num}.

(** A call that the script makes. *)
Inductive step :=
| CreateCollection (dimension : nat) (metric : SimilarityMetric)
| Scrape (url : jsstring)
| OllamaEmbedding (model prompt : jsstring)
| InsertOne (vector : jsval num) (text_ : jsstring).

(** What the script runs against.
    - [createCollection_]: [db.createCollection];
    - [scrape]: [loader.scrape()] for the page of a URL, [None] when it
      resolves to [undefined];
    - [splitText]: [splitter.splitText], a function of the library, given
      the stripped text or [undefined];
    - [embedding_of]: the request to the local embedding server, the
      reading of its body as JSON and of the property [embedding] of that,
      which is [JUndefined] when the body has none;
    - [insertOne]: [collection.insertOne]. *)
Record setup := {
  createCollection_ : nat -> SimilarityMetric -> completion unit;
  scrape : jsstring -> completion (option jsstring);
  splitText : option jsstring -> completion (list jsstring);
  embedding_of : jsstring -> jsstring -> completion (jsval num);
  insertOne : jsval num -> jsstring -> completion unit
}.

#[local] Abbreviation M := (Effects.M step).

Definition lift {A : Type} (c : completion A) : M A := (c, []).

(** [createCollection(similarityMetric = 'dot_product')] *)
Definition createCollection (w : setup) (similarityMetric : SimilarityMetric)
  : M unit :=
  call (CreateCollection 768 similarityMetric)
       (createCollection_ w 768 similarityMetric).

Definition ollama_model : jsstring := lit "nomic-embed-text".

(** [getOllamaEmbedding(text)] *)
Definition getOllamaEmbedding (w : setup) (text_ : jsstring) : M (jsval num) :=
  call (OllamaEmbedding ollama_model text_) (embedding_of w ollama_model text_).

(** [scrapePage(url)] *)
Definition scrapePage (w : setup) (url : jsstring) : M (option jsstring) :=
  page <- call (Scrape url) (scrape w url) ;;
  ret (option_map strip_tags page).

(** The inner [for] loop of [loadSampleData]. *)
Fixpoint insert_chunks (w : setup) (chunks : list jsstring) : M unit :=
  match chunks with
  | [] => ret tt
  | chunk :: rest =>
      vector <- getOllamaEmbedding w chunk ;;
      res <- call (InsertOne vector chunk) (insertOne w vector chunk) ;;
      insert_chunks w rest
  end.

(** The outer [for] loop of [loadSampleData], over the URLs that are
    left. [db.collection], before the loop, builds a handle and calls
    nothing. *)
Fixpoint load_pages (w : setup) (urls : list jsstring) : M unit :=
  match urls with
  | [] => ret tt
  | url :: rest =>
      content_ <- scrapePage w url ;;
      chunks <- lift (splitText w content_) ;;
      done_ <- insert_chunks w chunks ;;
      load_pages w rest
  end.

Definition loadSampleData (w : setup) : M unit := load_pages w f1Data.

(** The last line of the script:
    [createCollection().then((collection) => loadSampleData())]. *)
Definition script (w : setup) : M unit :=
  created <- createCollection w dot_product ;;
  loadSampleData w.

(** The chunks of the page of a URL, when the page loads and splits. *)
Definition chunks_of (w : setup) (url : jsstring) : list jsstring :=
  match scrape w url with
  | Normal page =>
      match splitText w (option_map strip_tags page) with
      | Normal chunks => chunks
      | Throw => []
      end
  | Throw => []
  end.

Definition is_insert (s : step) : bool :=
  match s with InsertOne _ _ => true | _ => false end.

Definition is_scrape (s : step) : bool :=
  match s with Scrape _ => true | _ => false end.

(** The vector that the embedding server gives for a text. *)
Definition vector_of (w : setup) (text_ : jsstring) : jsval num :=
  match embedding_of w ollama_model text_ with
  | Normal v => v
  | Throw => JUndefined
  end.

(** The documents of some pages: one for each chunk, in order. *)
Definition documents_of (w : setup) (urls : list jsstring) : list step :=
  flat_map (fun url => map (fun chunk => InsertOne (vector_of w chunk) chunk)
                           (chunks_of w url)) urls.

End Script.

Arguments step : clear implicits.
Arguments setup : clear implicits.

End LoadDb.

(** Concrete setups, on which the loading script is run. *)
Module LoadScenarios.

Import LoadDb IntNumbers Scenarios.

Definition page : jsstring := lit "<p>Max <b>Verstappen</b> won.</p>".

(** The first half of the page without its tags. *)
Definition first_chunk : jsstring := lit "Max Verst".

(** A splitter that cuts a text in two halves. *)
Definition halves (content_ : option jsstring) : completion (list jsstring) :=
  match content_ with
  | Some t => Normal [firstn (List.length t / 2) t;
                      skipn (List.length t / 2) t]
  | None => Throw
  end.

(** Every page loads, every call succeeds. *)
Definition all_up : setup safe_integer :=
  {| createCollection_ := fun _ _ => Normal tt;
     scrape := fun url => Normal (Some page);
     splitText := halves;
     embedding_of := fun _ _ => Normal vector;
     insertOne := fun _ _ => Normal tt |}.

(** The second page does not load. *)
Definition second_page_fails : setup safe_integer :=
  {| createCollection_ := fun _ _ => Normal tt;
     scrape := fun url =>
       if JsString.eqb url (lit "https://www.formula1.com/en/latest.html")
       then Throw else Normal (Some page);
     splitText := halves;
     embedding_of := fun _ _ => Normal vector;
     insertOne := fun _ _ => Normal tt |}.

(** The collection cannot be created. *)
Definition no_collection : setup safe_integer :=
  {| createCollection_ := fun _ _ => Throw;
     scrape := fun url => Normal (Some page);
     splitText := halves;
     embedding_of := fun _ _ => Normal vector;
     insertOne := fun _ _ => Normal tt |}.

End LoadScenarios.
(* ================================================================== *)
(** * Part II: properties                                             *)
(* ================================================================== *)

(** ** Slicing *)

Module SlicesFacts.

Import Framer Slices.

Lemma slice_count_step (n i : nat) :
  i < n ->
  (n - i + (chunkSize - 1)) / chunkSize
  = S ((n - (i + chunkSize) + (chunkSize - 1)) / chunkSize).
Proof.
  unfold chunkSize. intros Hi.
  destruct (le_lt_dec (i + 40) n) as [Hle | Hlt].
  - replace (n - i + (40 - 1)) with ((n - (i + 40) + (40 - 1)) + 1 * 40) by lia.
    rewrite Nat.div_add by lia. lia.
  - replace (n - (i + 40)) with 0 by lia.
    rewrite (Nat.div_small (0 + (40 - 1)) 40) by lia.
    assert (H1 : (n - i + (40 - 1)) / 40 < 2)
      by (apply Nat.Div0.div_lt_upper_bound; lia).
    assert (H2 : 1 <= (n - i + (40 - 1)) / 40)
      by (apply Nat.div_le_lower_bound; lia).
    lia.
Qed.

Lemma slice_count_done (n i : nat) :
  n <= i -> (n - i + (chunkSize - 1)) / chunkSize = 0.
Proof.
  unfold chunkSize. intros Hi.
  replace (n - i) with 0 by lia. apply Nat.div_small. lia.
Qed.

(** The loop of [streamText], started at index [i] with enough fuel, emits
    the windows that start at [i], [i + chunkSize], ... in that order. *)
Lemma streamText_loop_windows (text : jsstring)
    (emit_ : controller -> jsstring -> controller) :
  forall fuel i c,
    List.length text - i <= fuel ->
    streamText_loop fuel i text emit_ c
    = fold_left emit_
        (map (fun k => slice text (i + k * chunkSize)
                                   (i + k * chunkSize + chunkSize))
             (seq 0 ((List.length text - i + (chunkSize - 1)) / chunkSize)))
        c.
Proof.
  induction fuel as [| fuel IH]; intros i c Hfuel; cbn [streamText_loop].
  - rewrite slice_count_done by lia. reflexivity.
  - destruct (i <? List.length text) eqn:Hlt.
    + apply Nat.ltb_lt in Hlt.
      rewrite (slice_count_step Hlt).
      rewrite IH by (unfold chunkSize; lia).
      rewrite <- cons_seq, <- seq_shift.
      cbn [map fold_left]. rewrite map_map.
      rewrite Nat.mul_0_l, Nat.add_0_r. f_equal.
      apply map_ext. intros k. f_equal; lia.
    + apply Nat.ltb_ge in Hlt.
      rewrite slice_count_done by lia. reflexivity.
Qed.

(** [streamText] hands the slices of the text to [emit], first to last. *)
Lemma streamText_slices (c : controller) (text : jsstring)
    (emit_ : controller -> jsstring -> controller) :
  streamText c text emit_ = fold_left emit_ (slices text) c.
Proof.
  unfold streamText, slices, slice_count.
  destruct text as [| u text']; [reflexivity |].
  cbn [falsy].
  rewrite streamText_loop_windows by lia.
  rewrite Nat.sub_0_r. reflexivity.
Qed.

Lemma slice_length (text : jsstring) (a b : nat) :
  List.length (slice text a b) = Nat.min (b - a) (List.length text - a).
Proof.
  unfold slice. rewrite length_firstn, length_skipn. reflexivity.
Qed.

Lemma slice_count_bound (text : jsstring) (k : nat) :
  k < slice_count text <-> k * chunkSize < List.length text.
Proof.
  unfold slice_count, chunkSize.
  assert (Hd := Nat.div_mod_eq (List.length text + (40 - 1)) 40).
  assert (Hm := Nat.mod_upper_bound (List.length text + (40 - 1)) 40).
  lia.
Qed.

End SlicesFacts.

(** ** What the slices are *)

Module SlicesShape.

Import Framer Slices SlicesFacts.

Lemma slices_length (text : jsstring) :
  List.length (slices text) = slice_count text.
Proof. unfold slices. rewrite length_map, length_seq. reflexivity. Qed.

(** Slice number [k] is the window [text.slice(k * 40, k * 40 + 40)]. *)
Lemma slices_nth (text : jsstring) (k : nat) :
  k < slice_count text ->
  nth_error (slices text) k
  = Some (slice text (k * chunkSize) (k * chunkSize + chunkSize)).
Proof.
  intros Hk. unfold slices.
  rewrite nth_error_map, nth_error_seq.
  apply Nat.ltb_lt in Hk. rewrite Hk. reflexivity.
Qed.

Lemma In_slices (text piece : jsstring) :
  In piece (slices text) ->
  exists k, k * chunkSize < List.length text
            /\ piece = slice text (k * chunkSize) (k * chunkSize + chunkSize).
Proof.
  unfold slices. rewrite in_map_iff. intros [k [Hp Hk]].
  exists k. split; [| symmetry; exact Hp].
  apply in_seq in Hk. apply slice_count_bound. lia.
Qed.

(** No slice is empty, and none is longer than [chunkSize]. *)
Lemma slices_bounds (text piece : jsstring) :
  In piece (slices text) ->
  1 <= List.length piece <= chunkSize.
Proof.
  intros Hin. destruct (In_slices _ _ Hin) as [k [Hk ->]].
  rewrite slice_length. unfold chunkSize in *. lia.
Qed.

Lemma slices_nonempty (text piece : jsstring) :
  In piece (slices text) -> piece <> [].
Proof.
  intros Hin ->. apply slices_bounds in Hin. simpl in Hin. lia.
Qed.

(** Every slice but the last one has exactly [chunkSize] code units. *)
Lemma slices_full (text piece : jsstring) (k : nat) :
  nth_error (slices text) k = Some piece ->
  S k < slice_count text ->
  List.length piece = chunkSize.
Proof.
  intros Hnth Hk.
  rewrite slices_nth in Hnth by lia. injection Hnth as <-.
  rewrite slice_length.
  apply slice_count_bound in Hk. unfold chunkSize in *. lia.
Qed.

Lemma firstn_add {A : Type} (a b : nat) (l : list A) :
  firstn (a + b) l = firstn a l ++ firstn b (skipn a l).
Proof.
  revert l. induction a as [| a IH]; intros l; [reflexivity |].
  destruct l as [| x l]; simpl.
  - rewrite firstn_nil. reflexivity.
  - rewrite IH. reflexivity.
Qed.

Lemma windows_concat (text : jsstring) :
  forall n i,
    concat (map (fun k => slice text (i + k * chunkSize)
                                      (i + k * chunkSize + chunkSize))
                (seq 0 n))
    = firstn (n * chunkSize) (skipn i text).
Proof.
  induction n as [| n IH]; intros i; [reflexivity |].
  rewrite <- cons_seq, <- seq_shift. cbn [map concat]. rewrite map_map.
  rewrite (map_ext _ (fun k => slice text (i + chunkSize + k * chunkSize)
                                 (i + chunkSize + k * chunkSize + chunkSize)))
    by (intros k; unfold chunkSize; f_equal; lia).
  rewrite IH.
  replace (S n * chunkSize) with (chunkSize + n * chunkSize)
    by (unfold chunkSize; lia).
  rewrite firstn_add, skipn_skipn.
  rewrite Nat.mul_0_l, Nat.add_0_r. unfold slice.
  replace (i + chunkSize - i) with chunkSize by lia.
  replace (chunkSize + i) with (i + chunkSize) by lia.
  reflexivity.
Qed.

(** The slices, put end to end, are the text. *)
Lemma slices_concat (text : jsstring) : concat (slices text) = text.
Proof.
  unfold slices.
  rewrite (map_ext _ (fun k => slice text (0 + k * chunkSize)
                                 (0 + k * chunkSize + chunkSize)))
    by reflexivity.
  rewrite windows_concat. cbn [skipn].
  apply firstn_all2.
  unfold slice_count, chunkSize.
  assert (Hd := Nat.div_mod_eq (List.length text + (40 - 1)) 40).
  assert (Hm := Nat.mod_upper_bound (List.length text + (40 - 1)) 40).
  lia.
Qed.

Lemma In_slice (text : jsstring) (a b : nat) (u : code_unit) :
  In u (slice text a b) -> In u text.
Proof.
  unfold slice. intros H.
  rewrite <- (firstn_skipn a text). apply in_or_app. right.
  rewrite <- (firstn_skipn (b - a) (skipn a text)). apply in_or_app. left.
  exact H.
Qed.

End SlicesShape.

(** ** Escaping, encoding and frames *)

Module FrameFacts.

Import Framer Slices SlicesFacts SlicesShape.

Lemma flat_map_flat_map {A B C : Type} (f : A -> list B) (g : B -> list C)
    (l : list A) :
  flat_map g (flat_map f l) = flat_map (fun a => flat_map g (f a)) l.
Proof.
  induction l as [| a l IH]; [reflexivity |].
  cbn [flat_map]. rewrite flat_map_app, IH. reflexivity.
Qed.

(** The two replacements of [escape], one after the other, amount to one
    pass that rewrites the quote and the newline and keeps the rest. *)
Lemma escape_one_pass (text : jsstring) :
  escape text = flat_map escape_unit text.
Proof.
  unfold escape, replace_all. rewrite flat_map_flat_map.
  apply flat_map_ext. intros u. unfold escape_unit, QUOTE, LF, BACKSLASH.
  destruct (u =? 34)%N eqn:Hq.
  - reflexivity.
  - cbn [flat_map]. rewrite app_nil_r.
    destruct (u =? 10)%N; reflexivity.
Qed.

Lemma escape_unit_nonempty (u : code_unit) : escape_unit u <> [].
Proof.
  unfold escape_unit.
  destruct (u =? QUOTE)%N; [discriminate |].
  destruct (u =? LF)%N; discriminate.
Qed.

Lemma escape_nil_inv (text : jsstring) : escape text = [] -> text = [].
Proof.
  rewrite escape_one_pass. destruct text as [| u text]; [reflexivity |].
  cbn [flat_map]. intros H. apply app_eq_nil in H. destruct H as [H _].
  exfalso. exact (escape_unit_nonempty u H).
Qed.

Lemma escape_app (s t : jsstring) : escape (s ++ t) = escape s ++ escape t.
Proof. rewrite !escape_one_pass. apply flat_map_app. Qed.

(** A text without quote and newline is its own escaped form. *)
Lemma escape_plain (text : jsstring) :
  forallb (fun u => negb (u =? QUOTE)%N && negb (u =? LF)%N) text = true ->
  escape text = text.
Proof.
  rewrite escape_one_pass.
  induction text as [| u text IH]; [reflexivity |].
  cbn [forallb flat_map]. intros H.
  apply andb_true_iff in H. destruct H as [Hu Ht].
  apply andb_true_iff in Hu. destruct Hu as [Hq Hn].
  unfold escape_unit at 1.
  apply negb_true_iff in Hq, Hn. rewrite Hq, Hn. cbn [app].
  rewrite IH by exact Ht. reflexivity.
Qed.

Lemma encode_app_bounded (t : jsstring) :
  starts_low t = false ->
  forall n s, List.length s <= n ->
    Utf8.encode (s ++ t) = Utf8.encode s ++ Utf8.encode t.
Proof.
  intros Ht. induction n as [| n IH]; intros s Hn.
  - destruct s; [reflexivity | simpl in Hn; lia].
  - destruct s as [| u r]; [reflexivity |].
    cbn [app Utf8.encode].
    destruct (Utf8.is_high_surrogate u) eqn:Hhi.
    + destruct r as [| v r'].
      * cbn [app]. destruct t as [| v t'].
        -- reflexivity.
        -- cbn [starts_low] in Ht. rewrite Ht. reflexivity.
      * cbn [app]. destruct (Utf8.is_low_surrogate v).
        -- rewrite IH by (simpl in *; lia). rewrite app_assoc. reflexivity.
        -- change (v :: r' ++ t) with ((v :: r') ++ t).
           rewrite (IH (v :: r')) by (simpl in *; lia).
           rewrite app_assoc. reflexivity.
    + destruct (Utf8.is_low_surrogate u);
        rewrite IH by (simpl in *; lia); rewrite app_assoc; reflexivity.
Qed.

(** Encoding distributes over a concatenation whose right part does not
    start with a low surrogate. *)
Lemma encode_app (s t : jsstring) :
  starts_low t = false ->
  Utf8.encode (s ++ t) = Utf8.encode s ++ Utf8.encode t.
Proof. intros Ht. exact (encode_app_bounded t Ht s (le_n (List.length s))). Qed.

Lemma encode_scalar_nonempty (cp : N) : Utf8.encode_scalar cp <> [].
Proof.
  unfold Utf8.encode_scalar.
  destruct (cp <? 0x80)%N; [discriminate |].
  destruct (cp <? 0x800)%N; [discriminate |].
  destruct (cp <? 0x10000)%N; discriminate.
Qed.

Lemma encode_nil_inv (s : jsstring) : Utf8.encode s = [] -> s = [].
Proof.
  destruct s as [| u r]; [reflexivity |].
  cbn [Utf8.encode]. intros H. exfalso.
  destruct (Utf8.is_high_surrogate u).
  - destruct r as [| v r']; [discriminate |].
    destruct (Utf8.is_low_surrogate v).
    + apply app_eq_nil in H. exact (encode_scalar_nonempty _ (proj1 H)).
    + discriminate.
  - destruct (Utf8.is_low_surrogate u); [discriminate |].
    apply app_eq_nil in H. exact (encode_scalar_nonempty _ (proj1 H)).
Qed.

(** The bytes of a frame: the three bytes of its opening, the UTF-8 of the
    escaped text, the quote and the line feed. *)
Lemma frame_bytes (piece : jsstring) :
  frame piece
  = [48; 58; 34]%N ++ Utf8.encode (escape piece) ++ [34; 10]%N.
Proof.
  unfold frame, formatted, frame_open, frame_close.
  change (Utf8.encode ([48; 58; QUOTE]%N ++ escape piece ++ [QUOTE; LF]))
    with ([48; 58; 34]%N ++ Utf8.encode (escape piece ++ [QUOTE; LF])).
  rewrite encode_app by reflexivity. reflexivity.
Qed.

Lemma frame_not_empty (piece : jsstring) :
  piece <> [] -> frame piece <> empty_frame.
Proof.
  intros Hne. rewrite frame_bytes. unfold empty_frame. intros H.
  injection H as H.
  destruct (Utf8.encode (escape piece)) as [| b bs] eqn:He.
  - apply encode_nil_inv, escape_nil_inv in He. contradiction.
  - assert (Hlen := f_equal (@List.length _) H).
    cbn [app] in Hlen. rewrite length_cons, length_app in Hlen.
    simpl in Hlen. lia.
Qed.

Lemma emit_nil (c : controller) : emit c [] = c.
Proof. reflexivity. Qed.

Lemma emit_nonempty (c : controller) (piece : jsstring) :
  piece <> [] -> emit c piece = enqueue c (frame piece).
Proof. destruct piece; [contradiction | reflexivity]. Qed.

Lemma fold_emit (pieces : list jsstring) :
  (forall p, In p pieces -> p <> []) ->
  forall c,
    fold_left emit pieces c
    = Controller (queue c ++ map frame pieces) (closed c).
Proof.
  induction pieces as [| p pieces IH]; intros Hne c.
  - cbn [fold_left map]. rewrite app_nil_r. destruct c; reflexivity.
  - cbn [fold_left map].
    rewrite IH by (intros q Hq; apply Hne; right; exact Hq).
    rewrite emit_nonempty by (apply Hne; left; reflexivity).
    cbn [enqueue queue closed]. rewrite <- app_assoc. reflexivity.
Qed.

(** [streamText] appends the frames of the slices, in order, and nothing
    else. *)
Lemma streamText_frames (c : controller) (text : jsstring) :
  streamText c text emit
  = Controller (queue c ++ map frame (slices text)) (closed c).
Proof.
  rewrite streamText_slices. apply fold_emit.
  intros p. apply slices_nonempty.
Qed.

End FrameFacts.

(** ** The reader against the framer *)

Module ReaderFacts.

Import Framer Slices SlicesFacts SlicesShape FrameFacts Reader.

Lemma surrogate_free_pair (u : code_unit) :
  Utf8.is_high_surrogate u = true -> Utf8.is_low_surrogate u = false.
Proof.
  unfold Utf8.is_high_surrogate, Utf8.is_low_surrogate. intros H.
  apply andb_true_iff in H. destruct H as [H1 H2].
  apply N.leb_le in H1, H2.
  apply andb_false_iff. left. apply N.leb_gt. lia.
Qed.

(** Induction along the scalar values of a well-formed string. *)
Lemma well_formed_ind (P : jsstring -> Prop) :
  P [] ->
  (forall u r,
      Utf8.is_high_surrogate u = false -> Utf8.is_low_surrogate u = false ->
      (u < 0x10000)%N -> well_formed r = true -> P r -> P (u :: r)) ->
  (forall h l r,
      Utf8.is_high_surrogate h = true -> Utf8.is_low_surrogate l = true ->
      well_formed r = true -> P r -> P (h :: l :: r)) ->
  forall s, well_formed s = true -> P s.
Proof.
  intros Hnil Hone Hpair.
  assert (H : forall n s, List.length s <= n -> well_formed s = true -> P s).
  { induction n as [| n IH]; intros s Hn Hwf.
    - destruct s; [exact Hnil | simpl in Hn; lia].
    - destruct s as [| u r]; [exact Hnil |].
      cbn [well_formed] in Hwf.
      destruct (Utf8.is_high_surrogate u) eqn:Hhi.
      + destruct r as [| v r']; [discriminate |].
        apply andb_true_iff in Hwf. destruct Hwf as [Hlo Hr].
        apply Hpair; try assumption.
        apply IH; [simpl in *; lia | exact Hr].
      + apply andb_true_iff in Hwf. destruct Hwf as [Hwf Hr].
        apply andb_true_iff in Hwf. destruct Hwf as [Hlo Hlt].
        apply negb_true_iff in Hlo. apply N.ltb_lt in Hlt.
        apply Hone; try assumption.
        apply IH; [simpl in *; lia | exact Hr]. }
  intros s. exact (H (List.length s) s (le_n _)).
Qed.

(** A number in base 64: its last digit and the rest. *)
Lemma div_mod_64 (x : N) :
  (x = 64 * (x / 64) + x mod 64 /\ x mod 64 < 64)%N.
Proof.
  split; [apply N.div_mod; discriminate | apply N.mod_lt; discriminate].
Qed.

Lemma decode_one (u : code_unit) (bs : Utf8.bytes) :
  Utf8.is_high_surrogate u = false -> Utf8.is_low_surrogate u = false ->
  (u < 0x10000)%N ->
  decode (Utf8.encode_scalar u ++ bs) = u :: decode bs.
Proof.
  intros _ _ Hu. unfold Utf8.encode_scalar.
  destruct (N.ltb_spec u 0x80) as [H1 | H1].
  - cbn [app decode].
    destruct (N.ltb_spec u 0x80); [reflexivity | lia].
  - destruct (N.ltb_spec u 0x800) as [H2 | H2].
    + destruct (div_mod_64 u) as [E0 R0].
      set (q0 := (u / 64)%N) in *. set (r0 := (u mod 64)%N) in *.
      clearbody q0 r0.
      cbn [app decode].
      destruct (N.ltb_spec (0xC0 + q0) 0x80); [lia |].
      destruct (N.ltb_spec (0xC0 + q0) 0xE0); [| lia].
      f_equal. lia.
    + destruct (N.ltb_spec u 0x10000) as [H3 | H3]; [| lia].
      destruct (div_mod_64 u) as [E0 R0].
      destruct (div_mod_64 (u / 64)) as [E1 R1].
      rewrite N.Div0.div_div in E1. change (64 * 64)%N with 4096%N in E1.
      set (q1 := (u / 4096)%N) in *. set (r1 := ((u / 64) mod 64)%N) in *.
      set (q0 := (u / 64)%N) in *. set (r0 := (u mod 64)%N) in *.
      clearbody q1 r1 q0 r0.
      cbn [app decode].
      destruct (N.ltb_spec (0xE0 + q1) 0x80); [lia |].
      destruct (N.ltb_spec (0xE0 + q1) 0xE0); [lia |].
      destruct (N.ltb_spec (0xE0 + q1) 0xF0); [| lia].
      f_equal. lia.
Qed.

Lemma decode_pair (h l : code_unit) (bs : Utf8.bytes) :
  Utf8.is_high_surrogate h = true -> Utf8.is_low_surrogate l = true ->
  decode (Utf8.encode_scalar (Utf8.pair_scalar h l) ++ bs)
  = h :: l :: decode bs.
Proof.
  unfold Utf8.is_high_surrogate, Utf8.is_low_surrogate. intros Hh Hl.
  apply andb_true_iff in Hh, Hl. destruct Hh as [Hh1 Hh2], Hl as [Hl1 Hl2].
  apply N.leb_le in Hh1, Hh2, Hl1, Hl2.
  assert (Hcp : (Utf8.pair_scalar h l
                 = 0x10000 + (h - 0xD800) * 0x400 + (l - 0xDC00))%N)
    by reflexivity.
  set (cp := Utf8.pair_scalar h l) in *. clearbody cp.
  assert (Hhigh : (0xD800 + (cp - 0x10000) / 0x400 = h)%N).
  { replace ((cp - 0x10000) / 0x400)%N with (h - 0xD800)%N; [lia |].
    apply N.div_unique with (r := (l - 0xDC00)%N); lia. }
  assert (Hlow : (0xDC00 + (cp - 0x10000) mod 0x400 = l)%N).
  { replace ((cp - 0x10000) mod 0x400)%N with (l - 0xDC00)%N; [lia |].
    apply N.mod_unique with (q := (h - 0xD800)%N); lia. }
  destruct (div_mod_64 cp) as [E0 R0].
  destruct (div_mod_64 (cp / 64)) as [E1 R1].
  destruct (div_mod_64 (cp / 4096)) as [E2 R2].
  rewrite N.Div0.div_div in E1. change (64 * 64)%N with 4096%N in E1.
  rewrite N.Div0.div_div in E2. change (4096 * 64)%N with 262144%N in E2.
  unfold Utf8.encode_scalar.
  destruct (N.ltb_spec cp 0x80); [lia |].
  destruct (N.ltb_spec cp 0x800); [lia |].
  destruct (N.ltb_spec cp 0x10000); [lia |].
  assert (Hback : ((0xF0 + cp / 262144 - 0xF0) * 262144
                   + (0x80 + (cp / 4096) mod 64 - 0x80) * 4096
                   + (0x80 + (cp / 64) mod 64 - 0x80) * 64
                   + (0x80 + cp mod 64 - 0x80) = cp)%N).
  { set (q2 := (cp / 262144)%N) in *. set (r2 := ((cp / 4096) mod 64)%N) in *.
    set (q1 := (cp / 4096)%N) in *. set (r1 := ((cp / 64) mod 64)%N) in *.
    set (q0 := (cp / 64)%N) in *. set (r0 := (cp mod 64)%N) in *.
    clearbody q2 r2 q1 r1 q0 r0. lia. }
  cbn [app decode].
  destruct (N.ltb_spec (0xF0 + cp / 262144) 0x80); [lia |].
  destruct (N.ltb_spec (0xF0 + cp / 262144) 0xE0); [lia |].
  destruct (N.ltb_spec (0xF0 + cp / 262144) 0xF0); [lia |].
  cbv zeta. rewrite Hback, Hhigh, Hlow. reflexivity.
Qed.

(** The reader's decoder undoes the encoder on well-formed strings. *)
Lemma decode_encode_app (s : jsstring) :
  well_formed s = true ->
  forall bs, decode (Utf8.encode s ++ bs) = s ++ decode bs.
Proof.
  intros Hwf. pattern s. revert s Hwf. apply well_formed_ind.
  - reflexivity.
  - intros u r Hhi Hlo Hu _ IH bs.
    cbn [Utf8.encode]. rewrite Hhi, Hlo.
    rewrite <- app_assoc, decode_one by assumption.
    rewrite IH. reflexivity.
  - intros h l r Hh Hl _ IH bs.
    cbn [Utf8.encode]. rewrite Hh, Hl.
    rewrite <- app_assoc, decode_pair by assumption.
    rewrite IH. reflexivity.
Qed.

Lemma decode_encode (s : jsstring) :
  well_formed s = true -> decode (Utf8.encode s) = s.
Proof.
  intros Hwf. rewrite <- (app_nil_r (Utf8.encode s)).
  rewrite decode_encode_app by exact Hwf. apply app_nil_r.
Qed.

Lemma well_formed_app (s t : jsstring) :
  well_formed s = true -> well_formed t = true -> well_formed (s ++ t) = true.
Proof.
  intros Hs Ht. pattern s. revert s Hs. apply well_formed_ind.
  - exact Ht.
  - intros u r Hhi Hlo Hu _ IH. cbn [app well_formed].
    rewrite Hhi, Hlo, IH. apply N.ltb_lt in Hu. rewrite Hu. reflexivity.
  - intros h l r Hh Hl _ IH. cbn [app well_formed].
    rewrite Hh, Hl, IH. reflexivity.
Qed.

Lemma escape_unit_surrogate (u : code_unit) :
  Utf8.is_high_surrogate u || Utf8.is_low_surrogate u = true ->
  escape_unit u = [u].
Proof.
  unfold Utf8.is_high_surrogate, Utf8.is_low_surrogate, escape_unit, QUOTE, LF.
  intros H.
  destruct (N.eqb_spec u 34) as [-> | _]; [discriminate |].
  destruct (N.eqb_spec u 10) as [-> | _]; [discriminate | reflexivity].
Qed.

Lemma escape_unit_well_formed (u : code_unit) :
  Utf8.is_high_surrogate u = false -> Utf8.is_low_surrogate u = false ->
  (u < 0x10000)%N -> well_formed (escape_unit u) = true.
Proof.
  intros Hhi Hlo Hu. unfold escape_unit.
  destruct (u =? QUOTE)%N; [reflexivity |].
  destruct (u =? LF)%N; [reflexivity |].
  cbn [well_formed]. rewrite Hhi, Hlo.
  apply N.ltb_lt in Hu. rewrite Hu. reflexivity.
Qed.

(** Escaping keeps a string well formed. *)
Lemma escape_well_formed (s : jsstring) :
  well_formed s = true -> well_formed (escape s) = true.
Proof.
  intros Hs. pattern s. revert s Hs. apply well_formed_ind.
  - reflexivity.
  - intros u r Hhi Hlo Hu _ IH.
    change (u :: r) with ([u] ++ r). rewrite escape_app.
    apply well_formed_app; [| exact IH].
    rewrite escape_one_pass. cbn [flat_map]. rewrite app_nil_r.
    apply escape_unit_well_formed; assumption.
  - intros h l r Hh Hl _ IH.
    change (h :: l :: r) with ([h; l] ++ r). rewrite escape_app.
    apply well_formed_app; [| exact IH].
    rewrite escape_one_pass. cbn [flat_map].
    rewrite (escape_unit_surrogate h) by (rewrite Hh; reflexivity).
    rewrite (escape_unit_surrogate l) by (rewrite Hl; apply orb_true_r).
    cbn [app well_formed]. rewrite Hh, Hl. reflexivity.
Qed.

Lemma formatted_well_formed (piece : jsstring) :
  well_formed piece = true -> well_formed (formatted piece) = true.
Proof.
  intros Hwf. unfold formatted.
  apply well_formed_app; [reflexivity |].
  apply well_formed_app; [apply escape_well_formed; exact Hwf | reflexivity].
Qed.

(** *** Undoing the escaping *)

Lemma unescape_keep (u : code_unit) (s : jsstring) :
  (u =? BACKSLASH)%N && match s with v :: _ => escapable v | [] => false end
  = false ->
  unescape (u :: s) = u :: unescape s.
Proof.
  destruct s as [| v s']; [reflexivity |].
  unfold escapable. cbn [unescape]. intros H.
  destruct (u =? BACKSLASH)%N; [| reflexivity].
  cbn [andb] in *. apply orb_false_iff in H. destruct H as [-> ->].
  reflexivity.
Qed.

Lemma has_backslash_n_tail (u : code_unit) (r : jsstring) :
  has_backslash_n (u :: r) = false -> has_backslash_n r = false.
Proof.
  cbn [has_backslash_n]. destruct r as [| v r']; [reflexivity |].
  intros H. apply orb_false_iff in H. exact (proj2 H).
Qed.

Lemma escape_head (v : code_unit) (r : jsstring) :
  exists e,
    flat_map escape_unit (v :: r)
    = (if (v =? QUOTE)%N || (v =? LF)%N then BACKSLASH else v) :: e.
Proof.
  cbn [flat_map]. unfold escape_unit.
  destruct (v =? QUOTE)%N; [eexists; reflexivity |].
  destruct (v =? LF)%N; eexists; reflexivity.
Qed.

(** Unescaping undoes escaping on a text in which no backslash stands
    before the letter n. *)
Lemma unescape_escape (s : jsstring) :
  has_backslash_n s = false -> unescape (escape s) = s.
Proof.
  rewrite escape_one_pass.
  induction s as [| u r IH]; intros Hs; [reflexivity |].
  specialize (IH (has_backslash_n_tail _ _ Hs)).
  cbn [flat_map]. unfold escape_unit at 1.
  destruct (N.eqb_spec u QUOTE) as [-> | Hq].
  { cbn [app]. cbn [unescape]. rewrite IH. reflexivity. }
  destruct (N.eqb_spec u LF) as [-> | Hn].
  { cbn [app]. cbn [unescape]. rewrite IH. reflexivity. }
  cbn [app]. rewrite unescape_keep; [rewrite IH; reflexivity |].
  destruct r as [| v r']; [apply andb_false_r |].
  destruct (escape_head v r') as [e ->].
  cbn [has_backslash_n] in Hs. apply orb_false_iff in Hs. destruct Hs as [Hs _].
  destruct (N.eqb_spec u BACKSLASH) as [-> | _]; [| reflexivity].
  cbn [andb] in *. unfold escapable.
  destruct (N.eqb_spec v QUOTE) as [-> | Hvq]; [reflexivity |].
  destruct (N.eqb_spec v LF) as [-> | Hvn]; [reflexivity |].
  cbn [orb]. rewrite Hs.
  destruct (N.eqb_spec v QUOTE); [contradiction | reflexivity].
Qed.

(** *** Reading frames *)

Lemma eqb_refl (s : jsstring) : JsString.eqb s s = true.
Proof.
  induction s as [| u s IH]; [reflexivity |].
  cbn [JsString.eqb]. rewrite N.eqb_refl, IH. reflexivity.
Qed.

Lemma strip_suffix_app (p s : jsstring) : strip_suffix p (s ++ p) = Some s.
Proof.
  unfold strip_suffix. rewrite length_app.
  replace (List.length s + List.length p - List.length p)
    with (List.length s) by lia.
  rewrite skipn_app, skipn_all, Nat.sub_diag. cbn [skipn app].
  rewrite eqb_refl, firstn_app, firstn_all, Nat.sub_diag.
  cbn [firstn]. rewrite app_nil_r.
  replace (List.length p <=? List.length s + List.length p) with true
    by (symmetry; apply Nat.leb_le; lia).
  reflexivity.
Qed.

Lemma escaped_text_formatted (piece : jsstring) :
  escaped_text (formatted piece) = Some (escape piece).
Proof.
  unfold escaped_text, formatted.
  change (strip_prefix frame_open (frame_open ++ escape piece ++ frame_close))
    with (Some (escape piece ++ frame_close)).
  apply strip_suffix_app.
Qed.

(** The reader gets back the text of a frame when that text is well formed
    and has no backslash before the letter n. *)
Lemma payload_frame (piece : jsstring) :
  faithful piece -> payload (frame piece) = Some piece.
Proof.
  intros [Hwf Hbs]. unfold payload, frame.
  rewrite decode_encode by (apply formatted_well_formed; exact Hwf).
  rewrite escaped_text_formatted. cbn [option_map].
  rewrite unescape_escape by exact Hbs. reflexivity.
Qed.

Lemma reconstruct_frames (pieces : list jsstring) :
  (forall p, In p pieces -> faithful p) ->
  reconstruct (map frame pieces) = Some (concat pieces).
Proof.
  induction pieces as [| p pieces IH]; intros H; [reflexivity |].
  cbn [map reconstruct concat].
  rewrite payload_frame by (apply H; left; reflexivity).
  rewrite IH by (intros q Hq; apply H; right; exact Hq).
  reflexivity.
Qed.

(** The round trip, where it holds: a text whose slices are all faithful
    is what the reader reconstructs from the stream. *)
Lemma round_trip_faithful (text : jsstring) :
  (forall p, In p (slices text) -> faithful p) ->
  reconstruct (queue (streamText new_controller text emit)) = Some text.
Proof.
  intros H. rewrite streamText_frames. cbn [queue new_controller app].
  rewrite reconstruct_frames by exact H.
  rewrite slices_concat. reflexivity.
Qed.

End ReaderFacts.

(** ** Computations *)

Module EffectsFacts.

Section Laws.
Context {event A B : Type}.

Lemma bind_normal (a : A) (t : list event) (f : A -> M event B) :
  bind (Normal a, t) f = (fst (f a), t ++ snd (f a)).
Proof. reflexivity. Qed.

Lemma bind_throw (t : list event) (f : A -> M event B) :
  bind (Throw, t) f = (Throw, t).
Proof. reflexivity. Qed.

Lemma bind_ret (a : A) (f : A -> M event B) : bind (ret a) f = f a.
Proof. unfold ret. rewrite bind_normal. destruct (f a); reflexivity. Qed.

Lemma try_catch_normal (a : A) (t : list event) (h : M event A) :
  try_catch (Normal a, t) h = (Normal a, t).
Proof. reflexivity. Qed.

Lemma try_catch_throw (t : list event) (h : M event A) :
  try_catch (Throw, t) h = (fst h, t ++ snd h).
Proof. reflexivity. Qed.

Lemma trace_pair (o : completion A) (t : list event) : trace (o, t) = t.
Proof. reflexivity. Qed.

Lemma outcome_pair (o : completion A) (t : list event) : outcome (o, t) = o.
Proof. reflexivity. Qed.

(** A handler that does not throw makes the whole block complete
    normally. *)
Lemma try_catch_total (body : M event A) (a : A) :
  exists r, fst (try_catch body (ret a)) = Normal r.
Proof.
  destruct body as [[r |] t]; eexists; reflexivity.
Qed.

End Laws.

End EffectsFacts.

(** ** The providers *)

Module ProviderFacts.

Import Framer Route Tier2 EffectsFacts.

Section Providers.
Context {num : Type} {NUM : JsNumber num}.
Implicit Types (w : world num) (prompt model : jsstring).

(** *** Tier 1 *)

(** [generateWithGroq] does not throw and makes at most one call. *)
Lemma generateWithGroq_total w (gm : list PromptMessage) :
  exists text_,
    outcome (generateWithGroq w gm) = Normal text_
    /\ (trace (generateWithGroq w gm) = []
        \/ trace (generateWithGroq w gm)
           = [GroqChatCompletion groq_model gm 256 false]).
Proof.
  unfold generateWithGroq, outcome, trace.
  destruct (env_truthy (GROQ_API_KEY w)); cbn [negb].
  - unfold call. destruct (fetch_groq w gm) as [res |].
    + rewrite bind_normal.
      destruct (ok res); cbn [negb].
      * unfold lift. destruct (message_content res) as [c |].
        -- eexists. split; [reflexivity | right; reflexivity].
        -- eexists. split; [reflexivity | right; reflexivity].
      * eexists. split; [reflexivity | right; reflexivity].
    + eexists. split; [reflexivity | right; reflexivity].
  - eexists. split; [reflexivity | left; reflexivity].
Qed.

(** Without a key, the first tier makes no call and yields nothing. *)
Lemma generateWithGroq_no_key w (gm : list PromptMessage) :
  env_truthy (GROQ_API_KEY w) = false ->
  generateWithGroq w gm = (Normal [], []).
Proof. intros H. unfold generateWithGroq. rewrite H. reflexivity. Qed.

(** *** Tier 2 *)

Lemma endpoint_call w (f : family) model prompt :
  endpoint_of w f model prompt
  = (attempt_outcome w prompt (f, model), [attempt_event prompt (f, model)]).
Proof. destruct f; reflexivity. Qed.

(** One loop of [generateWithHF] tries its models in order and stops at the
    first that yields text. *)
Lemma for_models_first_text w (f : family) prompt (models : list jsstring) :
  for_models (endpoint_of w f) prompt models
  = (Normal (found (first_text w prompt (map (pair f) models))),
     map (attempt_event prompt)
         (fst (first_text w prompt (map (pair f) models)))).
Proof.
  induction models as [| model rest IH]; [reflexivity |].
  cbn [for_models map first_text]. rewrite endpoint_call.
  unfold attempt_text.
  destruct (attempt_outcome w prompt (f, model)) as [result |].
  - rewrite bind_normal.
    destruct (truthy (text_of_result result)) eqn:Ht.
    + cbn. unfold found. cbn [snd]. rewrite Ht. reflexivity.
    + cbn [ret fst snd try_catch app]. rewrite bind_normal, IH. reflexivity.
  - rewrite bind_throw. cbn [try_catch fst snd ret truthy falsy negb].
    rewrite app_nil_r, bind_normal, IH. reflexivity.
Qed.

Lemma first_text_app w prompt (l1 l2 : list attempt) :
  first_text w prompt (l1 ++ l2)
  = if truthy (snd (first_text w prompt l1)) then first_text w prompt l1
    else (fst (first_text w prompt l1) ++ fst (first_text w prompt l2),
          snd (first_text w prompt l2)).
Proof.
  induction l1 as [| a l1 IH].
  - cbn. destruct (first_text w prompt l2); reflexivity.
  - cbn [app first_text].
    destruct (truthy (attempt_text w prompt a)) eqn:Ha.
    + cbn [snd]. rewrite Ha. reflexivity.
    + cbn [fst snd]. rewrite IH.
      destruct (truthy (snd (first_text w prompt l1))); reflexivity.
Qed.

Lemma first_text_falsy w prompt (l : list attempt) :
  truthy (snd (first_text w prompt l)) = false ->
  snd (first_text w prompt l) = [].
Proof.
  destruct (snd (first_text w prompt l)); [reflexivity | discriminate].
Qed.

(** [generateWithHF] is the first text of the declared order: it returns
    that text and has called exactly the attempts up to it. *)
Lemma generateWithHF_first_text w prompt :
  generateWithHF w prompt
  = (Normal (snd (first_text w prompt declared_order)),
     map (attempt_event prompt) (fst (first_text w prompt declared_order))).
Proof.
  unfold generateWithHF, declared_order.
  change (hf_textGeneration w) with (endpoint_of w CausalTextGeneration).
  change (hf_textToText w) with (endpoint_of w TextToText).
  rewrite !for_models_first_text, first_text_app.
  rewrite bind_normal. unfold found.
  destruct (truthy (snd (first_text w prompt
                           (map (pair CausalTextGeneration) textGenModels))))
    eqn:H1.
  - cbn [ret fst snd]. rewrite app_nil_r. reflexivity.
  - rewrite bind_normal. cbn [fst snd]. rewrite map_app.
    destruct (truthy (snd (first_text w prompt
                             (map (pair TextToText) t5Models)))) eqn:H2.
    + cbn [ret fst snd]. rewrite app_nil_r. reflexivity.
    + cbn [ret fst snd]. rewrite app_nil_r.
      rewrite (first_text_falsy _ _ _ H2). reflexivity.
Qed.

(** What [first_text] is, in words: either no attempt yields text, all were
    made and the text is empty; or some attempt is the first to yield text,
    the attempts up to it were made, and the text is its text. *)
Lemma first_text_spec w prompt (attempts : list attempt) :
  (Forall (fun a => attempt_text w prompt a = []) attempts
   /\ first_text w prompt attempts = (attempts, []))
  \/ (exists before a after,
        attempts = before ++ a :: after
        /\ Forall (fun b => attempt_text w prompt b = []) before
        /\ attempt_text w prompt a <> []
        /\ first_text w prompt attempts
           = (before ++ [a], attempt_text w prompt a)).
Proof.
  induction attempts as [| a rest IH].
  - left. split; [constructor | reflexivity].
  - cbn [first_text].
    destruct (attempt_text w prompt a) as [| u t] eqn:Ha.
    + cbn [truthy falsy negb].
      destruct IH as [[Hall Heq] | [before [b [after [Hs [Hb [Hne Heq]]]]]]].
      * left. split; [constructor; assumption |]. rewrite Heq. reflexivity.
      * right. exists (a :: before), b, after. rewrite Heq. cbn [fst snd].
        split; [rewrite Hs; reflexivity |].
        split; [constructor; assumption |].
        split; [exact Hne | reflexivity].
    + right. exists [], a, rest. rewrite Ha. cbn [truthy falsy negb].
      split; [reflexivity |]. split; [constructor |].
      split; [discriminate | reflexivity].
Qed.

(** *** The text of a result, against the documentation of the library *)

Lemma text_of_result_carries (result : HfOutput) (t : jsstring) :
  t <> [] -> (text_of_result result = t <-> carries result t).
Proof.
  intros Hne. split.
  - intros <-.
    destruct result as [s | [g |] | [| [g |] rest] |];
      try (exfalso; apply Hne; reflexivity); constructor.
  - intros H. destruct H; reflexivity.
Qed.

Lemma attempt_text_returns w prompt (a : attempt) (t : jsstring) :
  t <> [] -> (attempt_text w prompt a = t <-> returns_text w prompt a t).
Proof.
  intros Hne. unfold attempt_text, returns_text. split.
  - intros H.
    destruct (attempt_outcome w prompt a) as [result |].
    + exists result. split; [reflexivity |].
      split; [apply (text_of_result_carries result Hne); exact H | exact Hne].
    + exfalso. apply Hne. symmetry. exact H.
  - intros (result & -> & Hc & _).
    apply (text_of_result_carries result Hne). exact Hc.
Qed.

Lemma attempt_text_nothing w prompt (a : attempt) :
  attempt_text w prompt a = [] <-> returns_nothing w prompt a.
Proof.
  split.
  - intros H t Hr.
    assert (Hne : t <> []) by (destruct Hr as (_ & _ & _ & Hne); exact Hne).
    apply (attempt_text_returns w prompt a Hne) in Hr.
    apply Hne. rewrite <- Hr. exact H.
  - intros H.
    destruct (attempt_text w prompt a) as [| u r] eqn:E; [reflexivity |].
    exfalso. apply (H (u :: r)).
    apply attempt_text_returns; [discriminate | exact E].
Qed.

End Providers.

End ProviderFacts.

(** ** The request lifecycle *)

Module RouteFacts.

Import Framer Slices Route Tier2 Lifecycle EffectsFacts FrameFacts ProviderFacts.

Section Lifecycle.
Context {num : Type} {NUM : JsNumber num}.
Implicit Types (w : world num) (req : Request num) (s prompt : jsstring).

(** *** Embedding *)

(** The value [getHuggingFaceEmbedding] returns for a response. *)
Lemma getHuggingFaceEmbedding_run w s :
  getHuggingFaceEmbedding w s
  = (match featureExtraction w embedding_model s with
     | Normal (JArr (JNum n :: rest)) => Normal (JNum n :: rest)
     | Normal (JArr (JArr first :: _)) => Normal first
     | Normal (JArr elems) => Normal elems
     | Normal (JObj props) => Normal (map snd props)
     | Normal _ => Normal []
     | Throw => Throw
     end,
     [FeatureExtraction embedding_model s]).
Proof.
  unfold getHuggingFaceEmbedding, call.
  destruct (featureExtraction w embedding_model s) as [response |];
    [| reflexivity].
  rewrite bind_normal.
  destruct response as [| | b | n | t | elems | props]; try reflexivity.
  destruct elems as [| x rest]; [reflexivity |].
  destruct x; reflexivity.
Qed.

(** The Embedding Client, with the [try]/[catch] of its caller: one call,
    and always a vector. *)
Lemma embed_run w s :
  embed w s
  = (Normal
       match featureExtraction w embedding_model s with
       | Normal (JArr (JNum n :: rest)) => JNum n :: rest
       | Normal (JArr (JArr first :: _)) => first
       | Normal (JArr elems) => elems
       | Normal (JObj props) => map snd props
       | Normal _ => []
       | Throw => []
       end,
     [FeatureExtraction embedding_model s]).
Proof.
  unfold embed. rewrite getHuggingFaceEmbedding_run.
  destruct (featureExtraction w embedding_model s) as [response |];
    [| reflexivity].
  destruct response as [| | b | n | t | elems | props]; try reflexivity.
  destruct elems as [| x rest]; [reflexivity |].
  destruct x; reflexivity.
Qed.

Lemma embed_total w s :
  exists v, outcome (embed w s) = Normal v.
Proof. rewrite embed_run. eexists. reflexivity. Qed.

(** *** Retrieval *)

Lemma retrieve_empty w : retrieve w [] = (Normal [], []).
Proof. reflexivity. Qed.

Lemma retrieve_nonempty w (x : jsval num) (rest : list (jsval num)) :
  retrieve w (x :: rest)
  = (Normal match find w (x :: rest) 10 with
            | Normal documents => stringify_texts documents
            | Throw => []
            end,
     [CollectionFind (x :: rest) 10]).
Proof.
  unfold retrieve, call. cbn [List.length Nat.ltb Nat.leb].
  destruct (find w (x :: rest) 10) as [documents |]; reflexivity.
Qed.

Lemma retrieve_total w (v : list (jsval num)) :
  exists docContext, outcome (retrieve w v) = Normal docContext.
Proof.
  destruct v; [rewrite retrieve_empty | rewrite retrieve_nonempty];
    eexists; reflexivity.
Qed.

Lemma retrieve_trace w (v : list (jsval num)) :
  trace (retrieve w v) = match v with
                         | [] => []
                         | _ :: _ => [CollectionFind v 10]
                         end.
Proof.
  destruct v; [rewrite retrieve_empty | rewrite retrieve_nonempty];
    reflexivity.
Qed.

(** *** Generation and delivery *)

Lemma tier1_total w (gm : list PromptMessage) :
  exists text1,
    outcome (tier1 w gm) = Normal text1
    /\ (trace (tier1 w gm) = []
        \/ trace (tier1 w gm) = [GroqChatCompletion groq_model gm 256 false]).
Proof.
  unfold tier1. destruct (env_truthy (GROQ_API_KEY w)).
  - apply generateWithGroq_total.
  - exists []. split; [reflexivity | left; reflexivity].
Qed.

Lemma tier2_run w prompt (text1 : jsstring) :
  tier2 w prompt text1
  = if falsy text1 && env_truthy (HF_TOKEN w)
    then (Normal (snd (first_text w prompt declared_order)),
          map (attempt_event prompt)
              (fst (first_text w prompt declared_order)))
    else (Normal text1, []).
Proof.
  unfold tier2. destruct (falsy text1 && env_truthy (HF_TOKEN w));
    [apply generateWithHF_first_text | reflexivity].
Qed.

Lemma tier2_total w prompt (text1 : jsstring) :
  exists text2, outcome (tier2 w prompt text1) = Normal text2.
Proof.
  rewrite tier2_run.
  destruct (falsy text1 && env_truthy (HF_TOKEN w)); eexists; reflexivity.
Qed.

(** [start] runs the two tiers one after the other, delivers, and never
    takes its [catch] branch. *)
Lemma start_run w (gm : list PromptMessage) prompt (c : controller) :
  exists text1 text2,
    outcome (tier1 w gm) = Normal text1
    /\ outcome (tier2 w prompt text1) = Normal text2
    /\ start w gm prompt c
       = (Normal (deliver c text2),
          trace (tier1 w gm) ++ trace (tier2 w prompt text1)).
Proof.
  destruct (tier1_total w gm) as [text1 [H1 _]].
  destruct (tier2_total w prompt text1) as [text2 H2].
  exists text1, text2. split; [exact H1 |]. split; [exact H2 |].
  unfold start, outcome, trace in *.
  destruct (tier1 w gm) as [o1 t1]. cbn [fst snd] in *. subst o1.
  rewrite bind_normal.
  destruct (tier2 w prompt text1) as [o2 t2]. cbn [fst snd] in *. subst o2.
  rewrite bind_normal. cbn [ret fst snd try_catch].
  rewrite app_nil_r. reflexivity.
Qed.

(** *** Validation *)

Lemma latestMessage_of_trace (m : option (list (ChatMessage num))) :
  trace (latestMessage_of m) = [].
Proof.
  unfold latestMessage_of, trace. destruct m as [l |]; [| reflexivity].
  destruct (last_element l) as [msg |]; [| reflexivity].
  destruct (is_nullish (content msg)); [reflexivity |].
  unfold lift. destruct (toString (content msg)); reflexivity.
Qed.

(** What [POST] does with a validated request: it embeds, retrieves, and
    then either stops on the missing token or streams what [start]
    delivers. *)
Lemma POST_validated w req (msgs : list (ChatMessage num)) s :
  validated req msgs s ->
  let gm := assembled w msgs s in
  exists c,
    outcome (start w gm (prompt_of gm) new_controller) = Normal c
    /\ POST w req
       = if env_truthy (HF_TOKEN w)
         then (Normal (stream_response c),
               trace (embed w s)
               ++ trace (retrieve w (embedding_for w s))
               ++ trace (start w gm (prompt_of gm) new_controller))
         else (Normal missing_token,
               trace (embed w s) ++ trace (retrieve w (embedding_for w s))).
Proof.
  intros [[parsed [Hjson Hmsgs]] [Hlatest Hne]] gm.
  destruct (start_run w gm (prompt_of gm) new_controller)
    as [text1 [text2 [_ [_ Hstart]]]].
  exists (deliver new_controller text2).
  split; [rewrite Hstart; reflexivity |].
  unfold POST. rewrite Hjson. unfold lift. rewrite bind_normal.
  rewrite Hmsgs.
  pose proof (latestMessage_of_trace (Some msgs)) as Htr.
  unfold outcome, trace in *.
  destruct (latestMessage_of (Some msgs)) as [o t]. cbn [fst snd] in *.
  subst o t. rewrite bind_normal.
  destruct s as [| u s']; [contradiction |].
  cbn [not_ falsy interpolate].
  unfold gm, assembled, context_for, embedding_for, outcome in *.
  rewrite embed_run in *. cbn [fst snd] in *. rewrite bind_normal.
  set (v := match featureExtraction w embedding_model (u :: s') with
            | Normal (JArr (JNum n :: rest)) => JNum n :: rest
            | Normal (JArr (JArr first :: _)) => first
            | Normal (JArr elems) => elems
            | Normal (JObj props) => map snd props
            | Normal _ => []
            | Throw => []
            end) in *.
  destruct (retrieve_total w v) as [d Hd]. unfold outcome in Hd.
  destruct (retrieve w v) as [od td]. cbn [fst snd] in *. subst od.
  rewrite bind_normal.
  destruct (env_truthy (HF_TOKEN w)); cbn [negb].
  - rewrite Hstart. rewrite bind_normal. cbn [ret fst snd try_catch app].
    rewrite !app_nil_r. reflexivity.
  - cbn [ret fst snd try_catch app]. rewrite !app_nil_r. reflexivity.
Qed.

(** A request without a question is answered 400 before any call. *)
Lemma POST_no_user_message w req (parsed : RequestBody num)
    (latest : option jsstring) :
  json req = Normal parsed ->
  outcome (latestMessage_of (messages parsed)) = Normal latest ->
  not_ latest = true ->
  POST w req = (Normal no_user_message, []).
Proof.
  intros Hjson Hlatest Hnot.
  unfold POST. rewrite Hjson. unfold lift. rewrite bind_normal.
  pose proof (latestMessage_of_trace (messages parsed)) as Htr.
  unfold outcome, trace in *.
  destruct (latestMessage_of (messages parsed)) as [o t].
  cbn [fst snd] in *. subst o t. rewrite bind_normal, Hnot. reflexivity.
Qed.

(** A body that does not parse, or a last message whose [toString] throws,
    is answered 500 before any call. *)
Lemma POST_internal_error w req :
  json req = Throw
  \/ (exists parsed, json req = Normal parsed
      /\ outcome (latestMessage_of (messages parsed)) = Throw) ->
  POST w req = (Normal internal_error, []).
Proof.
  intros [Hjson | [parsed [Hjson Hlatest]]]; unfold POST; rewrite Hjson.
  - reflexivity.
  - unfold lift. rewrite bind_normal.
    pose proof (latestMessage_of_trace (messages parsed)) as Htr.
    unfold outcome, trace in *.
    destruct (latestMessage_of (messages parsed)) as [o t].
    cbn [fst snd] in *. subst o t. reflexivity.
Qed.

(** The three cases above are all there is. *)
Lemma POST_cases w req :
  POST w req = (Normal internal_error, [])
  \/ POST w req = (Normal no_user_message, [])
  \/ exists msgs s, validated req msgs s.
Proof.
  destruct (json req) as [parsed |] eqn:Hjson;
    [| left; apply POST_internal_error; left; exact Hjson].
  destruct (outcome (latestMessage_of (messages parsed))) as [latest |]
    eqn:Hlatest;
    [| left; apply POST_internal_error; right; exists parsed; split; assumption].
  destruct (not_ latest) eqn:Hnot;
    [right; left; eapply POST_no_user_message; eassumption |].
  right; right.
  destruct latest as [s |]; [| discriminate].
  destruct (messages parsed) as [msgs |] eqn:Hmsgs; [| discriminate].
  exists msgs, s. split; [exists parsed; split; assumption |].
  split; [exact Hlatest |]. intros ->. discriminate.
Qed.

End Lifecycle.

End RouteFacts.

(** ** What a request leaves behind: its stream and its calls *)

Module PostFacts.

Import Framer Slices Route Tier2 Lifecycle.
Import EffectsFacts SlicesShape FrameFacts ProviderFacts RouteFacts.

Section Post.
Context {num : Type} {NUM : JsNumber num}.
Implicit Types (w : world num) (req : Request num) (s prompt : jsstring).

Lemma deliver_run (text_ : jsstring) :
  deliver new_controller text_
  = Controller (map frame (pieces_of text_)) true.
Proof.
  unfold deliver, pieces_of. destruct text_ as [| u t].
  - reflexivity.
  - cbn [falsy]. rewrite streamText_frames. reflexivity.
Qed.

Lemma pieces_nonempty (text_ piece : jsstring) :
  In piece (pieces_of text_) -> piece <> [].
Proof.
  unfold pieces_of. destruct text_ as [| u t]; cbn [falsy].
  - intros [<- | []]. discriminate.
  - apply slices_nonempty.
Qed.

(** The stream of a response is what [deliver] made of the text that the
    two tiers produced. *)
Lemma POST_stream w req (resp : Response) (c : controller) :
  outcome (POST w req) = Normal resp ->
  body resp = Stream c ->
  exists msgs s text1 text2,
    validated req msgs s
    /\ env_truthy (HF_TOKEN w) = true
    /\ outcome (tier1 w (assembled w msgs s)) = Normal text1
    /\ outcome (tier2 w (prompt_of (assembled w msgs s)) text1) = Normal text2
    /\ resp = stream_response c
    /\ c = Controller (map frame (pieces_of text2)) true.
Proof.
  intros Hout Hbody.
  destruct (POST_cases w req) as [H | [H | [msgs [s Hv]]]].
  - rewrite H in Hout. injection Hout as <-. discriminate.
  - rewrite H in Hout. injection Hout as <-. discriminate.
  - destruct (POST_validated w Hv) as [c' [Hstart HPOST]].
    destruct (start_run w (assembled w msgs s)
                (prompt_of (assembled w msgs s)) new_controller)
      as [text1 [text2 [H1 [H2 Hrun]]]].
    rewrite Hrun in Hstart. injection Hstart as <-.
    destruct (env_truthy (HF_TOKEN w)) eqn:Htok.
    + rewrite HPOST in Hout. injection Hout as <-.
      cbn [stream_response body] in Hbody. injection Hbody as <-.
      exists msgs, s, text1, text2.
      split; [exact Hv |]. split; [reflexivity |].
      split; [exact H1 |]. split; [exact H2 |].
      split; [reflexivity | apply deliver_run].
    + rewrite HPOST in Hout. injection Hout as <-. discriminate.
Qed.

(** The calls of a request, stage by stage. *)
Lemma POST_trace w req :
  trace (POST w req) = []
  \/ exists msgs s text1,
       validated req msgs s
       /\ outcome (tier1 w (assembled w msgs s)) = Normal text1
       /\ trace (POST w req)
          = trace (embed w s)
            ++ trace (retrieve w (embedding_for w s))
            ++ (if env_truthy (HF_TOKEN w)
                then trace (tier1 w (assembled w msgs s))
                     ++ trace (tier2 w (prompt_of (assembled w msgs s)) text1)
                else []).
Proof.
  destruct (POST_cases w req) as [H | [H | [msgs [s Hv]]]].
  - left. rewrite H. reflexivity.
  - left. rewrite H. reflexivity.
  - right. destruct (POST_validated w Hv) as [c' [Hstart HPOST]].
    destruct (start_run w (assembled w msgs s)
                (prompt_of (assembled w msgs s)) new_controller)
      as [text1 [text2 [H1 [H2 Hrun]]]].
    exists msgs, s, text1. split; [exact Hv |]. split; [exact H1 |].
    rewrite HPOST.
    destruct (env_truthy (HF_TOKEN w)).
    + rewrite trace_pair, Hrun. reflexivity.
    + rewrite trace_pair, app_nil_r. reflexivity.
Qed.

Lemma filter_attempt_events (p : event num -> bool) prompt
    (l : list attempt) :
  (forall a, p (attempt_event prompt a) = false) ->
  filter p (map (attempt_event prompt) l) = [].
Proof.
  intros H. induction l as [| a l IH]; [reflexivity |].
  cbn [map filter]. rewrite H. exact IH.
Qed.

Lemma filter_tier2_attempts prompt (l : list attempt) :
  filter is_tier2 (map (attempt_event prompt) l)
  = map (attempt_event (num := num) prompt) l.
Proof.
  induction l as [| [f m] l IH]; [reflexivity |].
  cbn [map filter]. destruct f; cbn; rewrite IH; reflexivity.
Qed.

Lemma attempt_not_tier1 prompt (a : attempt) :
  is_tier1 (attempt_event (num := num) prompt a) = false.
Proof. destruct a as [[] m]; reflexivity. Qed.

Lemma attempt_not_search prompt (a : attempt) :
  is_search (attempt_event (num := num) prompt a) = false.
Proof. destruct a as [[] m]; reflexivity. Qed.

Lemma tier2_trace w prompt (text1 : jsstring) :
  trace (tier2 w prompt text1) = []
  \/ trace (tier2 w prompt text1) = trace (generateWithHF w prompt).
Proof.
  unfold tier2. destruct (falsy text1 && env_truthy (HF_TOKEN w));
    [right | left]; reflexivity.
Qed.

Lemma generateWithHF_trace_tier2 w prompt :
  filter is_tier2 (trace (generateWithHF w prompt))
  = trace (generateWithHF w prompt).
Proof.
  rewrite generateWithHF_first_text. unfold trace. cbn [snd].
  apply filter_tier2_attempts.
Qed.

Lemma generateWithHF_trace_only (p : event num -> bool) w prompt :
  (forall a, p (attempt_event prompt a) = false) ->
  filter p (trace (generateWithHF w prompt)) = [].
Proof.
  intros H. rewrite generateWithHF_first_text. unfold trace. cbn [snd].
  apply filter_attempt_events. exact H.
Qed.

Lemma filter_embed (p : event num -> bool) w s :
  (forall m i, p (FeatureExtraction m i) = false) ->
  filter p (trace (embed w s)) = [].
Proof.
  intros H. rewrite embed_run. unfold trace. cbn [snd filter].
  rewrite H. reflexivity.
Qed.

Lemma filter_retrieve (p : event num -> bool) w (v : list (jsval num)) :
  (forall v' n, p (CollectionFind v' n) = false) ->
  filter p (trace (retrieve w v)) = [].
Proof.
  intros H. rewrite retrieve_trace. destruct v; [reflexivity |].
  cbn [filter]. rewrite H. reflexivity.
Qed.

Lemma filter_tier1 (p : event num -> bool) w (gm : list PromptMessage) :
  (forall m g k b, p (GroqChatCompletion m g k b) = false) ->
  filter p (trace (tier1 w gm)) = [].
Proof.
  intros H. destruct (tier1_total w gm) as [t [_ [-> | ->]]]; [reflexivity |].
  cbn [filter]. rewrite H. reflexivity.
Qed.

Lemma filter_tier2 (p : event num -> bool) w prompt (text1 : jsstring) :
  (forall a, p (attempt_event prompt a) = false) ->
  filter p (trace (tier2 w prompt text1)) = [].
Proof.
  intros H. destruct (tier2_trace w prompt text1) as [-> | ->];
    [reflexivity | apply generateWithHF_trace_only; exact H].
Qed.

(** The calls to the first tier in a request: none, or one. *)
Lemma POST_tier1_calls w req :
  filter is_tier1 (trace (POST w req)) = []
  \/ exists gm, filter is_tier1 (trace (POST w req))
                = [GroqChatCompletion groq_model gm 256 false].
Proof.
  destruct (POST_trace w req) as [H | [msgs [s [text1 [_ [_ H]]]]]].
  - left. rewrite H. reflexivity.
  - rewrite H, !filter_app.
    rewrite filter_embed, filter_retrieve by reflexivity. cbn [app].
    destruct (env_truthy (HF_TOKEN w)); [| left; reflexivity].
    rewrite filter_app, filter_tier2, app_nil_r
      by (intros a; apply attempt_not_tier1).
    destruct (tier1_total w (assembled w msgs s)) as [t [_ [-> | ->]]].
    + left. reflexivity.
    + right. eexists. reflexivity.
Qed.

(** The calls to the second tier in a request: none, or those of one run of
    [generateWithHF]. *)
Lemma POST_tier2_calls w req :
  exists prompt,
    filter is_tier2 (trace (POST w req)) = []
    \/ filter is_tier2 (trace (POST w req)) = trace (generateWithHF w prompt).
Proof.
  destruct (POST_trace w req) as [H | [msgs [s [text1 [_ [_ H]]]]]].
  - exists []. left. rewrite H. reflexivity.
  - exists (prompt_of (assembled w msgs s)).
    rewrite H, !filter_app.
    rewrite filter_embed, filter_retrieve by reflexivity. cbn [app].
    destruct (env_truthy (HF_TOKEN w)); [| left; reflexivity].
    rewrite filter_app, filter_tier1 by reflexivity. cbn [app].
    destruct (tier2_trace w (prompt_of (assembled w msgs s)) text1)
      as [-> | ->]; [left; reflexivity | right].
    apply generateWithHF_trace_tier2.
Qed.

(** The similarity searches of a request: those of the retriever. *)
Lemma POST_searches w req (msgs : list (ChatMessage num)) s :
  validated req msgs s ->
  filter is_search (trace (POST w req))
  = trace (retrieve w (embedding_for w s)).
Proof.
  intros Hv. destruct (POST_validated w Hv) as [c' [Hstart HPOST]].
  destruct (start_run w (assembled w msgs s)
              (prompt_of (assembled w msgs s)) new_controller)
    as [text1 [text2 [H1 [H2 Hrun]]]].
  assert (Hret : filter is_search (trace (retrieve w (embedding_for w s)))
                 = trace (retrieve w (embedding_for w s))).
  { rewrite retrieve_trace. destruct (embedding_for w s); reflexivity. }
  assert (Hst : trace (start w (assembled w msgs s)
                         (prompt_of (assembled w msgs s)) new_controller)
                = trace (tier1 w (assembled w msgs s))
                  ++ trace (tier2 w (prompt_of (assembled w msgs s)) text1))
    by (rewrite Hrun; reflexivity).
  rewrite HPOST. destruct (env_truthy (HF_TOKEN w)).
  - rewrite trace_pair, Hst, !filter_app, Hret.
    rewrite filter_embed, filter_tier1 by reflexivity.
    rewrite filter_tier2 by (intros a; apply attempt_not_search).
    rewrite !app_nil_r. reflexivity.
  - rewrite trace_pair, !filter_app, Hret, filter_embed by reflexivity.
    reflexivity.
Qed.

End Post.

End PostFacts.

(** ** The Stream Framer: claims C1, C7 and C10 *)

Module FramerClaims.

Import Framer Slices Route Tier2 Lifecycle.
Import SlicesFacts SlicesShape FrameFacts ReaderFacts PostFacts.

(** C1, the round-trip law, does not hold on the code. [escape] rewrites the
    quote and the line feed and leaves the backslash alone, so the text made
    of a backslash and the letter n is written as the very frame of the text
    made of one line feed: the reader of the specification reconstructs a
    line feed, and no reader can tell the two texts apart. *)
Theorem round_trip_lost_on_backslash_n :
  let text_ := [BACKSLASH; 110%N] in
  queue (streamText new_controller text_ emit)
  = [[48; 58; 34; 92; 110; 34; 10]%N]
  /\ queue (streamText new_controller [LF] emit)
     = queue (streamText new_controller text_ emit)
  /\ Reader.reconstruct (queue (streamText new_controller text_ emit))
     = Some [LF]
  /\ JsString.eqb [LF] text_ = false.
Proof. vm_compute. repeat split. Qed.

(** The law, as the specification states it, is false. *)
Lemma round_trip_law_fails :
  ~ (forall text_,
       Reader.reconstruct (queue (streamText new_controller text_ emit))
       = Some text_).
Proof.
  intros H. specialize (H [BACKSLASH; 110%N]). vm_compute in H. discriminate.
Qed.

(** Whatever the client does with the chunks, some text is not the one it
    rebuilds. *)
Lemma no_reader_inverts_the_framer
    (read : list Utf8.bytes -> option jsstring) :
  exists text_,
    read (queue (streamText new_controller text_ emit)) <> Some text_.
Proof.
  destruct (read (queue (streamText new_controller [LF] emit))) as [r |] eqn:H.
  - destruct (JsString.eqb r [LF]) eqn:Hr.
    + exists [BACKSLASH; 110%N].
      change (queue (streamText new_controller [BACKSLASH; 110%N] emit))
        with (queue (streamText new_controller [LF] emit)).
      rewrite H. intros Heq. injection Heq as ->. discriminate.
    + exists [LF]. rewrite H. intros Heq. injection Heq as ->. discriminate.
  - exists [LF]. rewrite H. discriminate.
Qed.

(** A second loss: a surrogate pair that straddles two slices is encoded as
    two replacement characters. *)
Lemma round_trip_lost_on_split_pair :
  let text_ := repeat 97%N 39 ++ [0xD83D; 0xDE00]%N in
  Reader.well_formed text_ = true
  /\ Reader.reconstruct (queue (streamText new_controller text_ emit))
     = Some (repeat 97%N 39 ++ [0xFFFD; 0xFFFD]%N).
Proof. vm_compute. split; reflexivity. Qed.

(** Where the law holds: text without surrogates and without backslash. *)
Lemma plain_slice (text_ : jsstring) (a b : nat) :
  Reader.plain text_ = true -> Reader.plain (slice text_ a b) = true.
Proof.
  unfold Reader.plain. rewrite !forallb_forall. intros H u Hu.
  apply H. exact (In_slice _ _ _ _ Hu).
Qed.

Lemma plain_faithful (piece : jsstring) :
  Reader.plain piece = true -> Reader.faithful piece.
Proof.
  unfold Reader.plain, Reader.faithful.
  induction piece as [| u r IH]; [split; reflexivity |].
  cbn [forallb]. intros H. apply andb_true_iff in H. destruct H as [Hu Hr].
  destruct (IH Hr) as [Hwf Hbs].
  apply andb_true_iff in Hu. destruct Hu as [Hlt Hne].
  apply N.ltb_lt in Hlt. apply negb_true_iff in Hne.
  split.
  - cbn [Reader.well_formed].
    replace (Utf8.is_high_surrogate u) with false
      by (symmetry; unfold Utf8.is_high_surrogate;
          apply andb_false_iff; left; apply N.leb_gt; lia).
    replace (Utf8.is_low_surrogate u) with false
      by (symmetry; unfold Utf8.is_low_surrogate;
          apply andb_false_iff; left; apply N.leb_gt; lia).
    rewrite Hwf. cbn [negb andb].
    rewrite andb_true_r. apply N.ltb_lt. lia.
  - cbn [Reader.has_backslash_n]. destruct r as [| v r']; [reflexivity |].
    rewrite Hne, Hbs. reflexivity.
Qed.

Lemma round_trip_plain (text_ : jsstring) :
  Reader.plain text_ = true ->
  Reader.reconstruct (queue (streamText new_controller text_ emit))
  = Some text_.
Proof.
  intros H. apply round_trip_faithful. intros p Hp.
  destruct (In_slices _ _ Hp) as [k [_ ->]].
  apply plain_faithful, plain_slice, H.
Qed.

Section Wire.
Context {num : Type} {NUM : JsNumber num}.

(** C7. Every frame on the wire is the opening (zero, colon, quote), the
    escaped text in UTF-8, and the closing (quote, line feed), where
    escaping turns a quote into backslash-quote, a line feed into
    backslash-n and keeps every other code unit; [emit] enqueues that frame
    for a text that is not empty; [streamText] writes the frames of the
    slices of the text after what the stream holds, in order;
    the slices are the windows of 40 code units of the text from left to
    right (the last one may be shorter), and they add up to the text; and
    every chunk of a response stream is such a frame. *)
Theorem frames_on_the_wire (c : controller) (text_ : jsstring) :
  streamText c text_ emit
  = Controller (queue c ++ map frame (slices text_)) (closed c)
  /\ (forall piece,
        frame piece
        = [48; 58; 34]%N ++ Utf8.encode (flat_map escape_unit piece)
          ++ [34; 10]%N)
  /\ (escape_unit QUOTE = [BACKSLASH; QUOTE]
      /\ escape_unit LF = [BACKSLASH; 110%N]
      /\ forall u, u <> QUOTE -> u <> LF -> escape_unit u = [u])
  /\ (forall piece, piece <> [] -> emit c piece = enqueue c (frame piece))
  /\ concat (slices text_) = text_
  /\ (forall k, k < slice_count text_ ->
        nth_error (slices text_) k
        = Some (slice text_ (k * 40) (k * 40 + 40)))
  /\ (forall k piece, nth_error (slices text_) k = Some piece ->
        1 <= List.length piece <= 40
        /\ (S k < slice_count text_ -> List.length piece = 40))
  /\ (forall (w : world num) (req : Request num) resp c',
        outcome (POST w req) = Normal resp -> body resp = Stream c' ->
        exists pieces,
          queue c' = map frame pieces
          /\ (pieces = [apology] \/ exists t, pieces = slices t)).
Proof.
  split; [apply streamText_frames |].
  split; [intros piece; rewrite frame_bytes, escape_one_pass; reflexivity |].
  split.
  { split; [reflexivity |]. split; [reflexivity |].
    intros u Hq Hn. unfold escape_unit.
    destruct (N.eqb_spec u QUOTE); [contradiction |].
    destruct (N.eqb_spec u LF); [contradiction | reflexivity]. }
  split; [intros piece Hne; exact (@emit_nonempty c piece Hne) |].
  split; [apply slices_concat |].
  split; [exact (slices_nth text_) |].
  split.
  { intros k piece Hnth. split.
    - apply (slices_bounds text_). eapply nth_error_In. exact Hnth.
    - intros Hk. exact (@slices_full _ _ _ Hnth Hk). }
  intros w req resp c' Hout Hbody.
  destruct (POST_stream w req Hout Hbody)
    as [msgs [s [text1 [text2 [_ [_ [_ [_ [_ ->]]]]]]]]].
  exists (pieces_of text2). split; [reflexivity |].
  unfold pieces_of. destruct (falsy text2); [left | right; eexists];
    reflexivity.
Qed.

(** C10. No frame carries an empty text: [emit] does nothing on the empty
    string, no slice is empty, every chunk that [streamText] adds is the
    frame of a non-empty piece, the frame of a non-empty piece has a
    non-empty escaped text and is not the empty frame, and so is every chunk
    of every response stream. *)
Theorem no_frame_is_empty :
  (forall c, emit c [] = c)
  /\ (forall text_ piece, In piece (slices text_) -> piece <> [])
  /\ (forall c text_ chunk,
        In chunk (queue (streamText c text_ emit)) ->
        In chunk (queue c)
        \/ exists piece, piece <> [] /\ chunk = frame piece)
  /\ (forall piece, piece <> [] ->
        escape piece <> [] /\ frame piece <> empty_frame)
  /\ (forall (w : world num) (req : Request num) resp c chunk,
        outcome (POST w req) = Normal resp -> body resp = Stream c ->
        In chunk (queue c) ->
        exists piece,
          piece <> [] /\ chunk = frame piece /\ chunk <> empty_frame).
Proof.
  split; [reflexivity |].
  split; [exact (@slices_nonempty) |].
  split.
  { intros c text_ chunk. rewrite streamText_frames. cbn [queue].
    rewrite in_app_iff, in_map_iff.
    intros [H | [piece [<- Hin]]]; [left; exact H | right].
    exists piece. split; [exact (@slices_nonempty _ _ Hin) | reflexivity]. }
  split.
  { intros piece Hne. split.
    - intros H. apply Hne. exact (@escape_nil_inv _ H).
    - exact (@frame_not_empty _ Hne). }
  intros w req resp c chunk Hout Hbody Hin.
  destruct (POST_stream w req Hout Hbody)
    as [msgs [s [text1 [text2 [_ [_ [_ [_ [_ ->]]]]]]]]].
  cbn [queue] in Hin. apply in_map_iff in Hin.
  destruct Hin as [piece [<- Hin]].
  assert (Hne : piece <> []) by exact (@pieces_nonempty _ _ Hin).
  exists piece. split; [exact Hne |]. split; [reflexivity |].
  exact (@frame_not_empty _ Hne).
Qed.

End Wire.

End FramerClaims.

(** ** The providers and the embedding client: claims C2, C5 and C6 *)

Module ProviderClaims.

Import Framer Slices Route Tier2 Lifecycle IntNumbers Scenarios.
Import EffectsFacts ProviderFacts RouteFacts PostFacts.

Section Tiers.
Context {num : Type} {NUM : JsNumber num}.

(** C2. In every request the first tier is called at most once. The second
    tier tries its models in the declared order, the three causal
    text-generation models and then the two text-to-text models, and stops
    at the first one that returns non-empty text, which it returns; when
    every model fails or returns empty, all five were tried and the result
    is the empty text. What a model returns is read after the documentation
    of the library ([carries]), not after the route. The second-tier calls
    of a request are those of at most one such run. *)
Theorem tiers_are_tried_in_order (w : world num) :
  declared_order
  = [(CausalTextGeneration, lit "bigscience/bloom-560m");
     (CausalTextGeneration, lit "gpt2");
     (CausalTextGeneration, lit "distilgpt2");
     (TextToText, lit "google/flan-t5-base");
     (TextToText, lit "google/flan-t5-small")]
  /\ (forall prompt,
        exists tried text_,
          generateWithHF w prompt
          = (Normal text_, map (attempt_event prompt) tried)
          /\ ((tried = declared_order /\ text_ = []
               /\ Forall (returns_nothing w prompt) declared_order)
              \/ exists before a after,
                   declared_order = before ++ a :: after
                   /\ tried = before ++ [a]
                   /\ Forall (returns_nothing w prompt) before
                   /\ returns_text w prompt a text_
                   /\ text_ <> []))
  /\ (forall req,
        List.length (filter is_tier1 (trace (POST w req))) <= 1)
  /\ (forall req,
        exists prompt,
          filter is_tier2 (trace (POST w req)) = []
          \/ filter is_tier2 (trace (POST w req))
             = trace (generateWithHF w prompt)).
Proof.
  split; [reflexivity |].
  split.
  { intros prompt. rewrite generateWithHF_first_text.
    assert (Hnothing : forall l,
               Forall (fun a => attempt_text w prompt a = []) l ->
               Forall (returns_nothing w prompt) l).
    { intros l H. apply Forall_forall. intros a Ha.
      apply attempt_text_nothing.
      exact (proj1 (Forall_forall _ l) H a Ha). }
    destruct (first_text_spec w prompt declared_order)
      as [[Hall Heq] | [before [a [after [Hs [Hb [Hne Heq]]]]]]];
      rewrite Heq; cbn [fst snd].
    - exists declared_order, []. split; [reflexivity |].
      left. split; [reflexivity |].
      split; [reflexivity | exact (Hnothing _ Hall)].
    - exists (before ++ [a]), (attempt_text w prompt a).
      split; [reflexivity |]. right. exists before, a, after.
      split; [exact Hs |]. split; [reflexivity |].
      split; [exact (Hnothing _ Hb) |].
      split; [| exact Hne].
      apply attempt_text_returns; [exact Hne | reflexivity]. }
  split.
  { intros req. destruct (POST_tier1_calls w req) as [-> | [gm ->]];
      cbn [List.length]; lia. }
  intros req. apply POST_tier2_calls.
Qed.

(** C6. With an empty vector the retriever makes no call and the context is
    empty. With a vector that is not empty it makes one call, a search by
    that vector limited to 10 documents; the context is the serialised
    texts of the documents found, or the empty text when the query fails;
    and the retriever completes normally either way. The similarity
    searches of a validated request are those of its retriever. *)
Theorem retrieval_is_guarded (w : world num) :
  retrieve w [] = (Normal [], [])
  /\ (forall x rest,
        retrieve w (x :: rest)
        = (Normal match find w (x :: rest) 10 with
                  | Normal documents => stringify_texts documents
                  | Throw => []
                  end,
           [CollectionFind (x :: rest) 10]))
  /\ (forall req msgs s,
        validated req msgs s ->
        filter is_search (trace (POST w req))
        = match embedding_for w s with
          | [] => []
          | x :: rest => [CollectionFind (x :: rest) 10]
          end
        /\ exists resp,
             outcome (POST w req) = Normal resp
             /\ (resp = missing_token \/ exists c, resp = stream_response c)).
Proof.
  split; [apply retrieve_empty |].
  split; [intros x rest; apply retrieve_nonempty |].
  intros req msgs s Hv. split.
  - rewrite (POST_searches w Hv), retrieve_trace.
    destruct (embedding_for w s); reflexivity.
  - destruct (POST_validated w Hv) as [c [_ ->]].
    destruct (env_truthy (HF_TOKEN w)); eexists; (split; [reflexivity |]).
    + right. eexists. reflexivity.
    + left. reflexivity.
Qed.

(** The embedding client on each shape of response (claim C5, the parts
    that hold): a flat sequence that starts with a number is returned as it
    is, a batch gives its first element, a mapping gives its values in
    order, a value that is no array and no object gives the empty vector,
    and so does a failed call. *)
Lemma embedding_shapes (w : world num) (s : jsstring) :
  let response := featureExtraction w embedding_model s in
  (forall n rest, response = Normal (JArr (JNum n :: rest)) ->
     outcome (embed w s) = Normal (JNum n :: rest))
  /\ (forall first rest, response = Normal (JArr (JArr first :: rest)) ->
        outcome (embed w s) = Normal first)
  /\ (forall props, response = Normal (JObj props) ->
        outcome (embed w s) = Normal (map snd props))
  /\ (forall v, response = Normal v ->
        Array_isArray v = false -> jstype_eqb (typeof v) TObject = false ->
        outcome (embed w s) = Normal [])
  /\ (response = Normal JNull -> outcome (embed w s) = Normal [])
  /\ (response = Normal (JArr []) -> outcome (embed w s) = Normal [])
  /\ (response = Throw -> outcome (embed w s) = Normal [])
  /\ trace (embed w s) = [FeatureExtraction embedding_model s].
Proof.
  cbv zeta. rewrite embed_run. unfold outcome, trace. cbn [fst snd].
  repeat split; try (intros; match goal with H : _ = _ |- _ => rewrite H end;
                     reflexivity).
  intros v -> Harr Hobj.
  destruct v; try reflexivity; discriminate.
Qed.

(** An array that starts with neither a number nor an array is returned
    element for element. *)
Lemma embedding_of_other_arrays (w : world num) (s : jsstring)
    (x : jsval num) (rest : list (jsval num)) :
  featureExtraction w embedding_model s = Normal (JArr (x :: rest)) ->
  jstype_eqb (typeof x) TNumber = false -> Array_isArray x = false ->
  outcome (embed w s) = Normal (x :: rest).
Proof.
  intros H Hn Ha. rewrite embed_run, H. destruct x; try reflexivity;
    discriminate.
Qed.

End Tiers.

(** C5 does not hold on the code. An array of strings is none of the three
    shapes, and the fallback documented at the end of
    [getHuggingFaceEmbedding] would make it the empty vector; but such an
    array is an object for [typeof], so the third case returns its
    elements: the vector is not empty, and the search is run with it. *)
Theorem embedding_of_string_array_is_not_empty :
  featureExtraction odd_embedding embedding_model question
  = Normal (JArr [JStr (lit "a")])
  /\ outcome (embed odd_embedding question) = Normal [JStr (lit "a")]
  /\ filter is_search (trace (POST odd_embedding (request_of conversation)))
     = [CollectionFind [JStr (lit "a")] 10].
Proof. vm_compute. repeat split. Qed.

(** The fourth part of C5, as the specification states it, is false. *)
Lemma other_shapes_are_not_all_empty :
  ~ (forall (w : world safe_integer) (s : jsstring) (x : jsval safe_integer)
            (rest : list (jsval safe_integer)),
       featureExtraction w embedding_model s = Normal (JArr (x :: rest)) ->
       jstype_eqb (typeof x) TNumber = false ->
       Array_isArray x = false ->
       outcome (embed w s) = Normal []).
Proof.
  intros H.
  specialize (H odd_embedding question (JStr (lit "a")) []
                eq_refl eq_refl eq_refl).
  vm_compute in H. discriminate.
Qed.

End ProviderClaims.

(** ** The orchestrator and the prompt assembler: claims C3, C4, C8, C9 *)

Module OrchestratorClaims.

Import Framer Slices Route Tier2 Lifecycle IntNumbers Scenarios.
Import EffectsFacts FrameFacts ProviderFacts RouteFacts PostFacts.

Section Orchestrator.
Context {num : Type} {NUM : JsNumber num}.
Implicit Types (w : world num) (req : Request num) (s prompt : jsstring).

Lemma first_text_all_empty w prompt (attempts : list attempt) :
  Forall (fun a => attempt_text w prompt a = []) attempts ->
  first_text w prompt attempts = (attempts, []).
Proof.
  induction 1 as [| a rest Ha _ IH]; [reflexivity |].
  cbn [first_text]. rewrite Ha, IH. reflexivity.
Qed.

Lemma generateWithGroq_trace_key w (gm : list PromptMessage) :
  env_truthy (GROQ_API_KEY w) = true ->
  trace (tier1 w gm) = [GroqChatCompletion groq_model gm 256 false].
Proof.
  intros Hkey. unfold tier1, generateWithGroq. rewrite Hkey. cbn [negb].
  unfold call. destruct (fetch_groq w gm) as [res |]; [| reflexivity].
  rewrite bind_normal. destruct (ok res); cbn [negb]; [| reflexivity].
  unfold lift. destruct (message_content res); reflexivity.
Qed.

(** C4. A request whose [messages] array is empty, or whose last message
    has a content that is empty once trimmed, is answered with status 400
    and the body that reads: brace, quoted error, colon, quoted No user
    message provided., brace; and no collaborator is called. *)
Theorem empty_question_is_rejected w req (parsed : RequestBody num) :
  json req = Normal parsed ->
  messages parsed = Some []
  \/ (exists msgs m s,
        messages parsed = Some msgs
        /\ last_element msgs = Some m
        /\ is_nullish (content m) = false
        /\ toString (content m) = Normal s
        /\ trim s = []) ->
  POST w req = (Normal no_user_message, [])
  /\ status no_user_message = 400
  /\ body no_user_message
     = Text (error_body (lit "No user message provided.")).
Proof.
  intros Hjson Hempty.
  split; [| split; reflexivity].
  destruct Hempty as [Hmsgs | [msgs [m [s [Hmsgs [Hlast [Hnull [Hstr Htrim]]]]]]]].
  - apply (POST_no_user_message w req Hjson (latest := None));
      [rewrite Hmsgs |]; reflexivity.
  - apply (POST_no_user_message w req Hjson (latest := Some []));
      [| reflexivity].
    rewrite Hmsgs. unfold latestMessage_of. rewrite Hlast, Hnull, Hstr.
    unfold lift. rewrite bind_normal, Htrim. reflexivity.
Qed.

(** The same answer when [messages] is missing, or the last message has no
    content. *)
Lemma missing_question_is_rejected w req (parsed : RequestBody num) :
  json req = Normal parsed ->
  messages parsed = None
  \/ (exists msgs m,
        messages parsed = Some msgs
        /\ last_element msgs = Some m
        /\ is_nullish (content m) = true) ->
  POST w req = (Normal no_user_message, []).
Proof.
  intros Hjson [Hmsgs | [msgs [m [Hmsgs [Hlast Hnull]]]]];
    apply (POST_no_user_message w req Hjson (latest := None));
    try reflexivity; rewrite Hmsgs; [reflexivity |].
  unfold latestMessage_of. rewrite Hlast, Hnull. reflexivity.
Qed.

(** The first tier yields no text when its key is not set, when the request
    fails, when the answer is not a success or cannot be parsed, and when
    the answer holds no content. *)
Lemma tier1_empty w (gm : list PromptMessage) :
  env_truthy (GROQ_API_KEY w) = false
  \/ fetch_groq w gm = Throw
  \/ (exists res,
        fetch_groq w gm = Normal res
        /\ (ok res = false
            \/ message_content res = Throw
            \/ message_content res = Normal None
            \/ message_content res = Normal (Some []))) ->
  tier1 w gm = (Normal [], []) \/
  tier1 w gm = (Normal [], [GroqChatCompletion groq_model gm 256 false]).
Proof.
  unfold tier1, generateWithGroq.
  destruct (env_truthy (GROQ_API_KEY w)); cbn [negb];
    [| intros _; left; reflexivity].
  intros [H | [H | [res [H Hres]]]]; [discriminate | |];
    right; unfold call; rewrite H; [reflexivity |].
  rewrite bind_normal.
  destruct Hres as [Hok | Hres]; [rewrite Hok; reflexivity |].
  destruct (ok res); cbn [negb]; [| reflexivity].
  unfold lift. destruct Hres as [-> | [-> | ->]]; reflexivity.
Qed.

(** C3, as the code has it. For a validated request served with [HF_TOKEN]
    set, when the first tier yields no text and every model of the second
    tier fails or yields no text, the response has status 200 and its
    stream is closed and holds one chunk: the frame of the whole apology,
    written by [emit] and not cut into slices. The apology needs no
    escaping, and the reader reconstructs exactly the apology. *)
Theorem apology_when_no_tier_answers w req (msgs : list (ChatMessage num)) s :
  validated req msgs s ->
  env_truthy (HF_TOKEN w) = true ->
  outcome (tier1 w (assembled w msgs s)) = Normal [] ->
  Forall (fun a => attempt_text w (prompt_of (assembled w msgs s)) a = [])
         declared_order ->
  outcome (POST w req)
  = Normal (stream_response (close (emit new_controller apology)))
  /\ status (stream_response (close (emit new_controller apology))) = 200
  /\ close (emit new_controller apology) = Controller [frame apology] true
  /\ frame apology = [48; 58; 34]%N ++ apology ++ [34; 10]%N
  /\ Reader.reconstruct [frame apology] = Some apology.
Proof.
  intros Hv Htok H1 H2.
  split; [| split; [reflexivity | split; [reflexivity | split;
    [vm_compute; reflexivity | vm_compute; reflexivity]]]].
  destruct (POST_validated w Hv) as [c [Hstart ->]]. rewrite Htok.
  rewrite outcome_pair. f_equal. f_equal.
  destruct (start_run w (assembled w msgs s)
              (prompt_of (assembled w msgs s)) new_controller)
    as [text1 [text2 [Ht1 [Ht2 Hrun]]]].
  rewrite Hrun, outcome_pair in Hstart. injection Hstart as <-.
  rewrite H1 in Ht1. injection Ht1 as <-.
  rewrite tier2_run in Ht2. cbn [falsy andb] in Ht2. rewrite Htok in Ht2.
  rewrite (first_text_all_empty _ _ H2) in Ht2.
  rewrite outcome_pair in Ht2. injection Ht2 as <-.
  reflexivity.
Qed.

(** C8, as the code has it. For a validated request: without [HF_TOKEN]
    the answer is the 400 error response that names the missing token,
    whether or not the first tier has its key, and no generation call is
    made; with [HF_TOKEN] and without [GROQ_API_KEY] the request is not
    stopped: the response is the stream, the first tier is not called, and
    the second tier is run. *)
Theorem missing_credentials w req (msgs : list (ChatMessage num)) s :
  validated req msgs s ->
  (env_truthy (HF_TOKEN w) = false ->
     outcome (POST w req) = Normal missing_token
     /\ status missing_token = 400
     /\ body missing_token
        = Text (error_body (lit "Missing HF_TOKEN in environment."))
     /\ filter is_tier1 (trace (POST w req)) = []
     /\ filter is_tier2 (trace (POST w req)) = [])
  /\ (env_truthy (HF_TOKEN w) = true ->
      env_truthy (GROQ_API_KEY w) = false ->
      (exists c, outcome (POST w req) = Normal (stream_response c))
      /\ filter is_tier1 (trace (POST w req)) = []
      /\ filter is_tier2 (trace (POST w req))
         = trace (generateWithHF w (prompt_of (assembled w msgs s)))).
Proof.
  intros Hv. destruct (POST_validated w Hv) as [c [Hstart HPOST]].
  split.
  - intros Htok. rewrite Htok in HPOST. rewrite HPOST.
    split; [reflexivity |]. split; [reflexivity |]. split; [reflexivity |].
    rewrite trace_pair, !filter_app.
    rewrite !filter_embed, !filter_retrieve by reflexivity.
    split; reflexivity.
  - intros Htok Hkey. rewrite Htok in HPOST. rewrite HPOST.
    split; [exists c; reflexivity |].
    destruct (start_run w (assembled w msgs s)
                (prompt_of (assembled w msgs s)) new_controller)
      as [text1 [text2 [Ht1 [Ht2 Hrun]]]].
    assert (Hno1 : trace (tier1 w (assembled w msgs s)) = [])
      by (unfold tier1; rewrite Hkey; reflexivity).
    assert (Htext1 : text1 = []).
    { unfold tier1 in Ht1. rewrite Hkey in Ht1.
      unfold outcome, ret in Ht1. cbn [fst] in Ht1.
      injection Ht1 as <-. reflexivity. }
    subst text1.
    assert (Hrun2 : trace (tier2 w (prompt_of (assembled w msgs s)) [])
                    = trace (generateWithHF w (prompt_of (assembled w msgs s))))
      by (unfold tier2; cbn [falsy andb]; rewrite Htok; reflexivity).
    rewrite trace_pair, Hrun, trace_pair, Hno1, Hrun2, !filter_app.
    rewrite !filter_embed, !filter_retrieve by reflexivity.
    cbn [app filter]. split.
    + apply generateWithHF_trace_only. intros a. apply attempt_not_tier1.
    + apply generateWithHF_trace_tier2.
Qed.

Lemma systemPrompt_parts (docContext latestMessage : jsstring) :
  systemPrompt docContext latestMessage
  = instruction ++ docContext ++ after_context ++ latestMessage
    ++ after_question.
Proof. reflexivity. Qed.

Lemma system_count_map (msgs : list (ChatMessage num)) :
  system_count
    (map (fun msg => {| p_role := role msg;
                        p_content := coerce_content (content msg) |}) msgs)
  = system_count_in msgs.
Proof.
  unfold system_count, system_count_in.
  induction msgs as [| m msgs IH]; [reflexivity |].
  cbn [map filter p_role]. destruct (is_system (role m)); cbn [List.length];
    rewrite IH; reflexivity.
Qed.

Lemma system_count_in_zero (msgs : list (ChatMessage num)) :
  system_count_in msgs = 0
  <-> Forall (fun m => is_system (role m) = false) msgs.
Proof.
  unfold system_count_in. induction msgs as [| m msgs IH].
  - split; [constructor | reflexivity].
  - cbn [filter]. destruct (is_system (role m)) eqn:Hm; cbn [List.length].
    + split; [discriminate |]. intros H. inversion H; subst. congruence.
    + rewrite IH. split; [intros H; constructor; assumption |].
      intros H. inversion H; assumption.
Qed.

(** C9, as the code has it. The assembled prompt is the synthesised system
    message, made of the instruction, the context between its delimiters
    and the question, followed by one message for each message of the
    conversation, in order and with the same role; a string content is kept,
    any other content is replaced by what [JSON.stringify] makes of it,
    which is a string unless the content is absent. The prompt holds one
    system message more than the conversation does: the synthesised message
    is the only one exactly when the conversation holds none. *)
Theorem assembled_prompt_shape (docContext latestMessage : jsstring)
    (msgs : list (ChatMessage num)) :
  let gm := groqMessages (systemPrompt docContext latestMessage) msgs in
  hd_error gm
  = Some {| p_role := system;
            p_content := Some (instruction ++ docContext ++ after_context
                               ++ latestMessage ++ after_question) |}
  /\ List.length gm = S (List.length msgs)
  /\ map p_role (tl gm) = map role msgs
  /\ (forall i m, nth_error msgs i = Some m ->
        nth_error gm (S i)
        = Some {| p_role := role m;
                  p_content := coerce_content (content m) |})
  /\ (forall t, coerce_content (JStr t) = Some t)
  /\ (forall c : jsval num, jstype_eqb (typeof c) TString = false ->
        coerce_content c = JSON_stringify c)
  /\ (forall c : jsval num, jstype_eqb (typeof c) TUndefined = false ->
        exists t, coerce_content c = Some t)
  /\ system_count gm = S (system_count_in msgs)
  /\ (system_count gm = 1
      <-> Forall (fun m => is_system (role m) = false) msgs).
Proof.
  cbv zeta. unfold groqMessages.
  split; [cbn [hd_error]; rewrite systemPrompt_parts; reflexivity |].
  split; [cbn [List.length]; rewrite length_map; reflexivity |].
  split; [cbn [tl]; rewrite map_map; reflexivity |].
  split.
  { intros i m Hi. cbn [nth_error]. rewrite nth_error_map, Hi. reflexivity. }
  split; [reflexivity |].
  split; [intros c Hc; destruct c; try reflexivity; discriminate |].
  split.
  { intros c Hc. destruct c; try discriminate; eexists; reflexivity. }
  assert (Hcount : system_count
            ({| p_role := system;
                p_content := Some (systemPrompt docContext latestMessage) |}
             :: map (fun msg => {| p_role := role msg;
                                   p_content := coerce_content (content msg) |})
                    msgs)
          = S (system_count_in msgs)).
  { rewrite <- system_count_map. reflexivity. }
  split; [exact Hcount |].
  rewrite Hcount, <- system_count_in_zero. lia.
Qed.

(** The prompt that reaches the first tier is the assembled one. *)
Lemma first_tier_receives_the_assembled_prompt w req
    (msgs : list (ChatMessage num)) s :
  validated req msgs s ->
  env_truthy (HF_TOKEN w) = true ->
  env_truthy (GROQ_API_KEY w) = true ->
  filter is_tier1 (trace (POST w req))
  = [GroqChatCompletion groq_model
       (groqMessages (systemPrompt (context_for w s) s) msgs) 256 false].
Proof.
  intros Hv Htok Hkey. destruct (POST_validated w Hv) as [c [Hstart HPOST]].
  rewrite Htok in HPOST. rewrite HPOST.
  destruct (start_run w (assembled w msgs s)
              (prompt_of (assembled w msgs s)) new_controller)
    as [text1 [text2 [Ht1 [Ht2 Hrun]]]].
  rewrite trace_pair, Hrun, trace_pair, !filter_app.
  rewrite !filter_embed, !filter_retrieve by reflexivity.
  rewrite filter_tier2 by (intros a; apply attempt_not_tier1).
  rewrite (generateWithGroq_trace_key w _ Hkey). reflexivity.
Qed.

End Orchestrator.

End OrchestratorClaims.

(** ** The claims on concrete requests *)

Module Runs.

Import Framer Slices Route Tier2 Lifecycle IntNumbers Scenarios.
Import FramerClaims ProviderClaims OrchestratorClaims.

(** C4 on a request whose last message holds three spaces. *)
Lemma empty_question_is_rejected_witness :
  POST healthy blank_request = (Normal no_user_message, [])
  /\ status no_user_message = 400
  /\ body no_user_message
     = Text (error_body (lit "No user message provided.")).
Proof.
  apply (@empty_question_is_rejected safe_integer int_number healthy
           blank_request
           {| messages := Some [{| role := user;
                                   content := JStr (lit "   ") |}] |}).
  - reflexivity.
  - right. exists [{| role := user; content := JStr (lit "   ") |}],
      {| role := user; content := JStr (lit "   ") |}, (lit "   ").
    repeat split; reflexivity.
Defined.

(** C3, as the code has it, on the deployment where nothing answers. *)
Lemma apology_when_no_tier_answers_witness :
  outcome (POST all_down (request_of conversation))
  = Normal (stream_response (close (emit new_controller apology))).
Proof.
  refine (proj1 (@apology_when_no_tier_answers safe_integer int_number
                   all_down
                   (request_of conversation) conversation question
                   _ _ _ _)).
  - split; [exists {| messages := Some conversation |}; split; reflexivity |].
    split; [reflexivity | discriminate].
  - reflexivity.
  - reflexivity.
  - repeat constructor.
Defined.

(** C3 as it is stated fails there: the stream holds the apology in one
    frame of 59 code units, where the chunker would have written two
    frames. *)
Lemma apology_is_not_sliced :
  validated (request_of conversation) conversation question
  /\ outcome (tier1 all_down (assembled all_down conversation question))
     = Normal []
  /\ outcome (generateWithHF all_down
                (prompt_of (assembled all_down conversation question)))
     = Normal []
  /\ outcome (POST all_down (request_of conversation))
     = Normal (stream_response (Controller [frame apology] true))
  /\ streamText new_controller apology emit
     = Controller [frame (firstn 40 apology); frame (skipn 40 apology)] false
  /\ List.length apology = 59
  /\ stream_response (Controller [frame apology] true)
     <> stream_response (close (streamText new_controller apology emit)).
Proof.
  split.
  { split; [exists {| messages := Some conversation |}; split; reflexivity |].
    split; [reflexivity | discriminate]. }
  vm_compute. repeat split. discriminate.
Qed.

(** C8, as the code has it, on the deployment without [HF_TOKEN] and on the
    one without [GROQ_API_KEY]. *)
Lemma missing_credentials_witness :
  outcome (POST groq_only (request_of conversation)) = Normal missing_token
  /\ exists c,
       outcome (POST flan_only (request_of conversation))
       = Normal (stream_response c).
Proof.
  assert (Hv : validated (request_of conversation) conversation question).
  { split; [exists {| messages := Some conversation |}; split; reflexivity |].
    split; [reflexivity | discriminate]. }
  split.
  - exact (proj1 (proj1 (@missing_credentials safe_integer int_number
                           groq_only
                           (request_of conversation) conversation question Hv)
                    eq_refl)).
  - exact (proj1 (proj2 (@missing_credentials safe_integer int_number
                           flan_only
                           (request_of conversation) conversation question Hv)
                    eq_refl eq_refl)).
Defined.

(** C8 as it is stated fails: the first tier is configured and answers this
    very prompt, and the request is stopped with status 400 all the same. *)
Lemma missing_token_stops_a_request_the_first_tier_serves :
  env_truthy (GROQ_API_KEY groq_only) = true
  /\ env_truthy (HF_TOKEN groq_only) = false
  /\ outcome (generateWithGroq groq_only
                (assembled groq_only conversation question))
     = Normal verstappen
  /\ outcome (POST groq_only (request_of conversation)) = Normal missing_token
  /\ status missing_token = 400.
Proof. vm_compute. repeat split. Qed.

(** C9 as it is stated fails: a conversation that holds a system message
    gives a prompt with two. *)
Lemma second_system_message :
  validated (request_of with_system_message) with_system_message question
  /\ system_count
       (assembled healthy with_system_message question) = 2.
Proof.
  split.
  - split; [exists {| messages := Some with_system_message |};
            split; reflexivity |].
    split; [reflexivity | discriminate].
  - reflexivity.
Qed.

(** C2 on the deployment where only one model of the second tier answers:
    the three causal models are tried and fail, the first text-to-text
    model returns text, and the last model is not tried. *)
Lemma tiers_are_tried_in_order_witness :
  generateWithHF flan_only question
  = (Normal verstappen,
     [HfTextGeneration (lit "bigscience/bloom-560m") question 256;
      HfTextGeneration (lit "gpt2") question 256;
      HfTextGeneration (lit "distilgpt2") question 256;
      HfTextToText (lit "google/flan-t5-base") question 256]).
Proof.
  assert (Hflan : returns_text flan_only question
                    (TextToText, lit "google/flan-t5-base") verstappen).
  { exists (HfArray [Some verstappen]).
    split; [reflexivity |]. split; [constructor | discriminate]. }
  destruct (proj1 (proj2 (@tiers_are_tried_in_order safe_integer int_number
                            flan_only)) question)
    as (tried & text_ & Heq & Hshape).
  rewrite Heq. clear Heq.
  destruct Hshape
    as [(_ & _ & Hall) | (before & a & after & Hs & -> & Hb & Hr & _)].
  - exfalso.
    apply (proj1 (Forall_forall _ _) Hall
             (TextToText, lit "google/flan-t5-base")
             (or_intror (or_intror (or_intror (or_introl eq_refl))))
             verstappen Hflan).
  - cbv [declared_order textGenModels t5Models map app] in Hs.
    destruct Hr as (result & Ho & Hc & _).
    destruct before as [| b0 before];
      [injection Hs as <- _; cbv in Ho; discriminate Ho |].
    destruct before as [| b1 before];
      [injection Hs as _ <- _; cbv in Ho; discriminate Ho |].
    destruct before as [| b2 before];
      [injection Hs as _ _ <- _; cbv in Ho; discriminate Ho |].
    destruct before as [| b3 before].
    { injection Hs as <- <- <- <- _.
      cbv in Ho. injection Ho as <-.
      inversion Hc. reflexivity. }
    exfalso.
    injection Hs as _ _ _ H3 _.
    apply (proj1 (Forall_forall _ _) Hb
             (TextToText, lit "google/flan-t5-base")
             (or_intror (or_intror (or_intror (or_introl (eq_sym H3)))))
             verstappen Hflan).
Defined.

(** C6 on the healthy deployment: one search, for ten documents. *)
Lemma retrieval_is_guarded_witness :
  filter is_search (trace (POST healthy (request_of conversation)))
  = [CollectionFind
       [JNum (SafeInteger 1 eq_refl); JNum (SafeInteger 2 eq_refl);
        JNum (SafeInteger 3 eq_refl)] 10].
Proof.
  refine (proj1 (proj2 (proj2 (@retrieval_is_guarded safe_integer int_number
                                 healthy))
                   (request_of conversation) conversation question _)).
  split; [exists {| messages := Some conversation |}; split; reflexivity |].
  split; [reflexivity | discriminate].
Defined.

(** C9, as the code has it, on a conversation without system message: the
    synthesised message is the only one. *)
Lemma assembled_prompt_shape_witness :
  system_count
    (groqMessages (systemPrompt (context_for healthy question) question)
       conversation) = 1.
Proof.
  refine (proj2 (proj2 (proj2 (proj2 (proj2 (proj2 (proj2 (proj2 (proj2
            (@assembled_prompt_shape safe_integer int_number
               (context_for healthy question) question conversation)))))))))
            _).
  repeat constructor.
Defined.

(** C7 on the apology, had it gone through the chunker: the second slice
    is the window from 40 to 80. *)
Lemma frames_on_the_wire_witness :
  nth_error (slices apology) 1 = Some (slice apology (1 * 40) (1 * 40 + 40)).
Proof.
  refine (proj1 (proj2 (proj2 (proj2 (proj2 (proj2
            (@frames_on_the_wire safe_integer int_number new_controller
               apology))))))
            1 _).
  vm_compute. apply le_n.
Defined.

(** C10 on the healthy deployment: the chunk of the response is the frame
    of a piece of text that is not empty. *)
Lemma no_frame_is_empty_witness :
  exists piece,
    piece <> []
    /\ frame verstappen = frame piece
    /\ frame verstappen <> empty_frame.
Proof.
  refine (proj2 (proj2 (proj2 (proj2 (@no_frame_is_empty safe_integer
                                        int_number))))
            healthy (request_of conversation)
            (stream_response (Controller [frame verstappen] true))
            (Controller [frame verstappen] true) (frame verstappen) _ _ _).
  - vm_compute. reflexivity.
  - reflexivity.
  - left. reflexivity.
Defined.

(** The scenarios of section 8. *)
Example scenario_first_tier_answers :
  exists c,
    outcome (POST healthy (request_of conversation))
    = Normal (stream_response c)
    /\ Reader.reconstruct (queue c) = Some verstappen
    /\ closed c = true.
Proof.
  exists (Controller [frame verstappen] true). vm_compute. repeat split.
Qed.

Example scenario_nothing_answers :
  exists c,
    outcome (POST all_down (request_of conversation))
    = Normal (stream_response c)
    /\ Reader.reconstruct (queue c) = Some apology
    /\ List.length (trace (POST all_down (request_of conversation))) = 7.
Proof.
  exists (Controller [frame apology] true). vm_compute. repeat split.
Qed.

Example scenario_second_family_answers :
  exists c,
    outcome (POST flan_only (request_of conversation))
    = Normal (stream_response c)
    /\ Reader.reconstruct (queue c) = Some verstappen
    /\ map (fun e => match e with
                     | HfTextGeneration m _ _ | HfTextToText m _ _ => m
                     | _ => []
                     end)
           (filter is_tier2 (trace (POST flan_only (request_of conversation))))
       = [lit "bigscience/bloom-560m"; lit "gpt2"; lit "distilgpt2";
          lit "google/flan-t5-base"].
Proof.
  exists (Controller [frame verstappen] true). vm_compute. repeat split.
Qed.

Example scenario_no_messages :
  POST healthy (request_of []) = (Normal no_user_message, []).
Proof. reflexivity. Qed.

End Runs.

(* ================================================================== *)
(** * Part III: properties beyond the claims                          *)
(* ================================================================== *)

(** ** More on the Stream Framer *)

Module FramerExtras.

Import Framer Slices Reader Bounds.
Import SlicesFacts SlicesShape FrameFacts ReaderFacts.

(** *** Frames are lines *)

Lemma escape_unit_no_LF (u : code_unit) : ~ In LF (escape_unit u).
Proof.
  unfold escape_unit, LF, QUOTE, BACKSLASH.
  destruct (N.eqb_spec u 34); [intros [H | [H | []]]; discriminate |].
  destruct (N.eqb_spec u 10); [intros [H | [H | []]]; discriminate |].
  intros [H | []]. congruence.
Qed.

Lemma escape_no_LF (text : jsstring) : ~ In LF (escape text).
Proof.
  rewrite escape_one_pass. rewrite in_flat_map.
  intros [u [_ H]]. exact (escape_unit_no_LF u H).
Qed.

(** Quotients and remainders become variables, for [lia]. *)
Ltac forget_divisions :=
  repeat match goal with
         | H : context [(?a mod ?b)%N] |- _ =>
             let r := fresh "r" in set (r := (a mod b)%N) in *; clearbody r
         | H : context [(?a / ?b)%N] |- _ =>
             let q := fresh "q" in set (q := (a / b)%N) in *; clearbody q
         | |- context [(?a mod ?b)%N] =>
             let r := fresh "r" in set (r := (a mod b)%N) in *; clearbody r
         | |- context [(?a / ?b)%N] =>
             let q := fresh "q" in set (q := (a / b)%N) in *; clearbody q
         end.

Lemma encode_scalar_LF (cp : N) :
  In 10%N (Utf8.encode_scalar cp) -> cp = 10%N.
Proof.
  unfold Utf8.encode_scalar.
  destruct (N.ltb_spec cp 0x80) as [Hlt | Hge].
  - intros [H | []]. exact H.
  - destruct (cp <? 0x800)%N; [| destruct (cp <? 0x10000)%N];
      cbn [In]; intros H; forget_divisions;
      repeat (destruct H as [H | H]; [exfalso; lia |]); destruct H.
Qed.

Lemma encode_LF_bounded :
  forall n s, List.length s <= n -> In 10%N (Utf8.encode s) -> In LF s.
Proof.
  induction n as [| n IH]; intros s Hn Hin.
  - destruct s; [destruct Hin | simpl in Hn; lia].
  - destruct s as [| u r]; [destruct Hin |].
    cbn [Utf8.encode] in Hin.
    destruct (Utf8.is_high_surrogate u).
    + destruct r as [| v r'].
      * cbn in Hin. repeat (destruct Hin as [Hin | Hin]; [discriminate |]).
        destruct Hin.
      * destruct (Utf8.is_low_surrogate v) eqn:Hlow.
        -- apply in_app_or in Hin. destruct Hin as [Hin | Hin].
           ++ apply encode_scalar_LF in Hin. exfalso.
              unfold Utf8.pair_scalar in Hin. lia.
           ++ right. right. apply IH; [simpl in *; lia | exact Hin].
        -- apply in_app_or in Hin. destruct Hin as [Hin | Hin].
           ++ cbn in Hin.
              repeat (destruct Hin as [Hin | Hin]; [discriminate |]).
              destruct Hin.
           ++ right. apply IH; [simpl in *; lia | exact Hin].
    + destruct (Utf8.is_low_surrogate u);
        apply in_app_or in Hin; destruct Hin as [Hin | Hin].
      * cbn in Hin. repeat (destruct Hin as [Hin | Hin]; [discriminate |]).
        destruct Hin.
      * right. apply IH; [simpl in *; lia | exact Hin].
      * left. exact (encode_scalar_LF u Hin).
      * right. apply IH; [simpl in *; lia | exact Hin].
Qed.

Lemma encode_LF (s : jsstring) : In 10%N (Utf8.encode s) -> In LF s.
Proof. exact (@encode_LF_bounded _ s (le_n (List.length s))). Qed.

(** X1. A frame is one line: its last byte is a line feed and it holds no
    other line feed, whatever the text. A client that cuts the stream at
    line feeds gets the frames back. *)
Theorem frame_is_one_line (piece : jsstring) :
  exists line,
    frame piece = line ++ [10%N]
    /\ ~ In 10%N line
    /\ line = [48; 58; 34]%N ++ Utf8.encode (escape piece) ++ [34%N].
Proof.
  exists ([48; 58; 34]%N ++ Utf8.encode (escape piece) ++ [34%N]).
  split; [rewrite frame_bytes, <- !app_assoc; reflexivity |].
  split; [| reflexivity].
  intros H. cbn [app In] in H.
  destruct H as [H | [H | [H | H]]]; try discriminate.
  apply in_app_or in H. destruct H as [H | [H | []]]; [| discriminate].
  exact (escape_no_LF piece (@encode_LF _ H)).
Qed.

(** *** Frames are short *)

Lemma encode_cons_plain (u : code_unit) (r : jsstring) :
  Utf8.is_high_surrogate u = false -> Utf8.is_low_surrogate u = false ->
  Utf8.encode (u :: r) = Utf8.encode_scalar u ++ Utf8.encode r.
Proof. intros Hhi Hlo. cbn [Utf8.encode]. rewrite Hhi, Hlo. reflexivity. Qed.

Lemma encode_cons_lone_high (u : code_unit) (r : jsstring) :
  Utf8.is_high_surrogate u = true -> starts_low r = false ->
  Utf8.encode (u :: r) = Utf8.replacement ++ Utf8.encode r.
Proof.
  intros Hhi Hr. cbn [Utf8.encode]. rewrite Hhi.
  destruct r as [| v r']; [reflexivity |].
  cbn [starts_low] in Hr. rewrite Hr. reflexivity.
Qed.

Lemma encode_scalar_length (cp : N) :
  1 <= List.length (Utf8.encode_scalar cp) <= 4
  /\ ((cp < 65536)%N -> List.length (Utf8.encode_scalar cp) <= 3).
Proof.
  unfold Utf8.encode_scalar.
  destruct (cp <? 0x80)%N; [cbn; lia |].
  destruct (cp <? 0x800)%N; [cbn; lia |].
  destruct (N.ltb_spec cp 0x10000); cbn [List.length]; lia.
Qed.

Lemma escape_unit_head (v : code_unit) (e : jsstring) :
  Utf8.is_low_surrogate v = false -> starts_low (escape_unit v ++ e) = false.
Proof.
  intros Hv. unfold escape_unit.
  destruct (v =? QUOTE)%N; [reflexivity |].
  destruct (v =? LF)%N; [reflexivity | exact Hv].
Qed.

Lemma encode_escape_length_bounded :
  forall n piece,
    List.length piece <= n -> utf16 piece ->
    List.length (Utf8.encode (flat_map escape_unit piece))
    <= 3 * List.length piece.
Proof.
  induction n as [| n IH]; intros piece Hn H16.
  - destruct piece; [cbn; lia | simpl in Hn; lia].
  - destruct piece as [| u r]; [cbn; lia |].
    inversion H16 as [| ? ? Hu Hr]; subst.
    assert (IHr := IH r ltac:(simpl in Hn; lia) Hr).
    cbn [flat_map List.length].
    destruct (Utf8.is_high_surrogate u) eqn:Hhi.
    + rewrite (escape_unit_surrogate u) by (rewrite Hhi; reflexivity).
      cbn [app].
      destruct r as [| v r0].
      * cbn [flat_map Utf8.encode]. rewrite Hhi. cbn. lia.
      * destruct (Utf8.is_low_surrogate v) eqn:Hlo.
        -- cbn [flat_map].
           rewrite (escape_unit_surrogate v) by (rewrite Hlo; apply orb_true_r).
           cbn [app Utf8.encode]. rewrite Hhi, Hlo, length_app.
           inversion Hr as [| ? ? Hv Hr0]; subst.
           assert (IH0 := IH r0 ltac:(simpl in Hn; lia) Hr0).
           destruct (encode_scalar_length (Utf8.pair_scalar u v)) as [[_ H4] _].
           cbn [List.length]. lia.
        -- rewrite encode_cons_lone_high;
             [| exact Hhi | cbn [flat_map]; apply escape_unit_head; exact Hlo].
           rewrite length_app. cbn [Utf8.replacement List.length] in *. lia.
    + destruct (Utf8.is_low_surrogate u) eqn:Hlo.
      * rewrite (escape_unit_surrogate u) by (rewrite Hlo; apply orb_true_r).
        cbn [app Utf8.encode]. rewrite Hhi, Hlo, length_app.
        cbn [Utf8.replacement List.length]. lia.
      * unfold escape_unit at 1.
        destruct (u =? QUOTE)%N; [| destruct (u =? LF)%N].
        -- cbn [app].
           rewrite (encode_cons_plain BACKSLASH) by reflexivity.
           rewrite (encode_cons_plain QUOTE) by reflexivity.
           rewrite !length_app. cbn [Utf8.encode_scalar List.length]. cbn. lia.
        -- cbn [app].
           rewrite (encode_cons_plain BACKSLASH) by reflexivity.
           rewrite (encode_cons_plain 110%N) by reflexivity.
           rewrite !length_app. cbn. lia.
        -- cbn [app]. rewrite encode_cons_plain by assumption.
           rewrite length_app.
           destruct (encode_scalar_length u) as [_ H3]. specialize (H3 Hu).
           lia.
Qed.

Lemma utf16_slice (text : jsstring) (a b : nat) :
  utf16 text -> utf16 (slice text a b).
Proof.
  unfold utf16. rewrite !Forall_forall. intros H u Hu.
  apply H. exact (In_slice _ _ _ _ Hu).
Qed.

(** X2. A text of JavaScript is written by [streamText] as one frame for
    each started run of 40 code units, and every one of these frames has
    between 6 and 125 bytes: the five bytes of the envelope and at most
    three bytes for each code unit of the slice. *)
Theorem frames_are_short (text : jsstring) :
  utf16 text ->
  List.length (queue (streamText new_controller text emit))
  = (List.length text + 39) / 40
  /\ forall chunk,
       In chunk (queue (streamText new_controller text emit)) ->
       6 <= List.length chunk <= 125.
Proof.
  intros H16. rewrite streamText_frames. cbn [queue new_controller app].
  split; [rewrite length_map; apply slices_length |].
  intros chunk Hin. apply in_map_iff in Hin. destruct Hin as [piece [<- Hin]].
  pose proof (slices_bounds _ _ Hin) as Hlen. unfold chunkSize in Hlen.
  destruct (In_slices _ _ Hin) as [k [_ Hpiece]].
  assert (Hp16 : utf16 piece) by (rewrite Hpiece; apply utf16_slice; exact H16).
  pose proof (encode_escape_length_bounded (le_n (List.length piece)) Hp16)
    as Hup.
  rewrite frame_bytes, escape_one_pass, !length_app. cbn [List.length].
  split; [| lia].
  destruct (Utf8.encode (flat_map escape_unit piece)) as [| b bs] eqn:He.
  2:{ cbn [List.length]. lia. }
  exfalso. apply encode_nil_inv in He.
  rewrite <- escape_one_pass in He. apply escape_nil_inv in He.
  rewrite He in Hlen. simpl in Hlen. lia.
Qed.

(** *** Writing in two calls *)

Lemma slice_count_skip (text : jsstring) :
  text <> [] ->
  slice_count text = S (slice_count (skipn chunkSize text)).
Proof.
  intros Hne. unfold slice_count. rewrite length_skipn.
  assert (Hpos : 0 < List.length text)
    by (destruct text; [contradiction | simpl; lia]).
  pose proof (slice_count_step Hpos) as H.
  rewrite Nat.sub_0_r in H. exact H.
Qed.

Lemma slices_step (text : jsstring) :
  text <> [] ->
  slices text = firstn chunkSize text :: slices (skipn chunkSize text).
Proof.
  intros Hne. unfold slices. rewrite (slice_count_skip Hne).
  rewrite <- cons_seq, <- seq_shift. cbn [map]. rewrite map_map.
  f_equal.
  apply map_ext. intros k. unfold slice. rewrite skipn_skipn.
  replace (S k * chunkSize + chunkSize - S k * chunkSize)
    with (k * chunkSize + chunkSize - k * chunkSize) by lia.
  replace (k * chunkSize + chunkSize) with (S k * chunkSize) by lia.
  reflexivity.
Qed.

Lemma slices_app_blocks :
  forall n a b,
    List.length a = n * chunkSize ->
    slices (a ++ b) = slices a ++ slices b.
Proof.
  induction n as [| n IH]; intros a b Hlen.
  - destruct a; [reflexivity | discriminate].
  - assert (Ha : a <> []) by (intros ->; discriminate).
    assert (Hab : a ++ b <> []) by (destruct a; [contradiction | discriminate]).
    assert (Hge : chunkSize <= List.length a) by lia.
    rewrite (slices_step Hab), (slices_step Ha).
    rewrite firstn_app, skipn_app.
    replace (chunkSize - List.length a) with 0 by lia.
    cbn [firstn skipn]. rewrite app_nil_r.
    rewrite (IH (skipn chunkSize a) b) by (rewrite length_skipn; lia).
    reflexivity.
Qed.

(** X3. Writing a text in two calls of [streamText] gives the same stream as
    writing it in one, when the first part holds a whole number of slices
    (its length is a multiple of 40). *)
Theorem streamText_in_two_calls (c : controller) (a b : jsstring) :
  List.length a mod chunkSize = 0 ->
  streamText (streamText c a emit) b emit = streamText c (a ++ b) emit.
Proof.
  intros Hmod. rewrite !streamText_frames. cbn [queue closed].
  rewrite (slices_app_blocks (List.length a / chunkSize) a b).
  - rewrite map_app, app_assoc. reflexivity.
  - pose proof (Nat.div_mod_eq (List.length a) chunkSize) as H.
    rewrite Hmod in H. lia.
Qed.

(** *** The round trip, where it holds *)

(** X4. When every slice of a text is well formed and has no backslash
    before the letter n, the reader gets each slice back from its frame and
    the whole text back from the stream that [streamText] writes. *)
Theorem round_trip_where_it_holds (text : jsstring) :
  (forall p, In p (slices text) -> faithful p) ->
  (forall p, In p (slices text) -> payload (frame p) = Some p)
  /\ reconstruct (queue (streamText new_controller text emit)) = Some text.
Proof.
  intros H. split.
  - intros p Hp. apply payload_frame, H, Hp.
  - rewrite streamText_frames. cbn [queue new_controller app].
    rewrite reconstruct_frames by exact H.
    rewrite slices_concat. reflexivity.
Qed.

End FramerExtras.

(** ** More on the route *)

Module RouteExtras.

Import Framer Slices Route Tier2 Lifecycle.
Import EffectsFacts SlicesShape FrameFacts ProviderFacts RouteFacts PostFacts.
Import FramerExtras.

Section Route.
Context {num : Type} {NUM : JsNumber num}.
Implicit Types (w : world num) (req : Request num) (s prompt : jsstring).

(** X5. No exception escapes [POST]: every request gets one of four
    responses. A body that does not parse, and a last message whose content
    cannot be turned into text, get the 500 response before any
    collaborator is called; the 400 response to a missing question is
    given before any call too. The 500 response carries the fixed error
    body. (Nothing is said here of the other ways to the 500 response,
    which start from bodies outside [RequestBody].) *)
Theorem every_request_is_answered w req :
  exists resp,
    outcome (POST w req) = Normal resp
    /\ (resp = internal_error \/ resp = no_user_message
        \/ resp = missing_token \/ exists c, resp = stream_response c)
    /\ (json req = Throw
        \/ (exists parsed,
              json req = Normal parsed
              /\ outcome (latestMessage_of (messages parsed)) = Throw) ->
        resp = internal_error /\ trace (POST w req) = [])
    /\ (status resp = 500 ->
        body resp = Text (error_body (lit "Internal server error")))
    /\ (resp = no_user_message -> trace (POST w req) = []).
Proof.
  destruct (json req) as [parsed |] eqn:Hjson.
  2:{ exists internal_error.
      rewrite (POST_internal_error w req (or_introl Hjson)).
      split; [reflexivity |]. split; [left; reflexivity |].
      split; [intros _; split; reflexivity |].
      split; reflexivity. }
  destruct (outcome (latestMessage_of (messages parsed))) as [latest |]
    eqn:Hlatest.
  2:{ exists internal_error.
      rewrite (POST_internal_error w req
                 (or_intror (ex_intro _ parsed (conj Hjson Hlatest)))).
      split; [reflexivity |]. split; [left; reflexivity |].
      split; [intros _; split; reflexivity |].
      split; reflexivity. }
  assert (Hnot500 :
            ~ (Normal parsed = Throw
               \/ exists parsed' : RequestBody num,
                    Normal parsed = Normal parsed'
                    /\ outcome (latestMessage_of (messages parsed')) = Throw)).
  { intros [H | [parsed' [H1 H2]]]; [discriminate |].
    injection H1 as <-. rewrite Hlatest in H2. discriminate. }
  destruct (not_ latest) eqn:Hnot.
  - exists no_user_message.
    rewrite (POST_no_user_message w req Hjson Hlatest Hnot).
    split; [reflexivity |]. split; [right; left; reflexivity |].
    split; [intros H; destruct (Hnot500 H) |].
    split; [discriminate | reflexivity].
  - destruct latest as [s |]; [| discriminate].
    destruct (messages parsed) as [msgs |] eqn:Hmsgs; [| discriminate].
    assert (Hv : validated req msgs s).
    { split; [exists parsed; split; assumption |].
      split; [exact Hlatest |]. intros ->. discriminate. }
    destruct (POST_validated w Hv) as [c [_ HPOST]]. rewrite HPOST.
    destruct (env_truthy (HF_TOKEN w)).
    + exists (stream_response c). split; [reflexivity |].
      split; [right; right; right; exists c; reflexivity |].
      split; [intros H; destruct (Hnot500 H) |].
      split; discriminate.
    + exists missing_token. split; [reflexivity |].
      split; [right; right; left; reflexivity |].
      split; [intros H; destruct (Hnot500 H) |].
      split; discriminate.
Qed.

Lemma slices_not_nil (text_ : jsstring) : text_ <> [] -> slices text_ <> [].
Proof. intros Hne. rewrite (slices_step Hne). discriminate. Qed.

Lemma pieces_not_nil (text_ : jsstring) : pieces_of text_ <> [].
Proof.
  unfold pieces_of. destruct text_ as [| u t]; cbn [falsy];
    [discriminate | apply slices_not_nil; discriminate].
Qed.

(** X6. A response that streams is complete when [start] is done: its
    status is 200, it has the three headers of a text stream, and its
    stream is closed and holds at least one frame. *)
Theorem streams_are_closed_and_not_empty w req (resp : Response)
    (c : controller) :
  outcome (POST w req) = Normal resp ->
  body resp = Stream c ->
  closed c = true
  /\ queue c <> []
  /\ status resp = 200
  /\ headers resp = stream_headers.
Proof.
  intros Hout Hbody.
  destruct (POST_stream w req Hout Hbody)
    as [msgs [s [text1 [text2 [_ [_ [_ [_ [-> ->]]]]]]]]].
  split; [reflexivity |]. split; [| split; reflexivity].
  cbn [queue]. intros H. apply map_eq_nil in H.
  exact (pieces_not_nil text2 H).
Qed.

(** X7. The text that is streamed is the text of the first tier when it
    yields one, and then the second tier is not called; otherwise it is the
    first text of the second tier, whose attempts are the only second-tier
    calls; and when that is empty too the apology stands in. *)
Theorem the_first_text_is_streamed w req (msgs : list (ChatMessage num)) s
    (text1 : jsstring) :
  validated req msgs s ->
  env_truthy (HF_TOKEN w) = true ->
  outcome (tier1 w (assembled w msgs s)) = Normal text1 ->
  let prompt := prompt_of (assembled w msgs s) in
  let answer := if falsy text1
                then snd (first_text w prompt declared_order)
                else text1 in
  outcome (POST w req)
  = Normal (stream_response (Controller (map frame (pieces_of answer)) true))
  /\ pieces_of answer = (if falsy answer then [apology] else slices answer)
  /\ filter is_tier2 (trace (POST w req))
     = if falsy text1
       then map (attempt_event prompt)
                (fst (first_text w prompt declared_order))
       else [].
Proof.
  intros Hv Htok H1 prompt answer.
  destruct (POST_validated w Hv) as [c [Hstart HPOST]].
  rewrite Htok in HPOST.
  destruct (start_run w (assembled w msgs s)
              (prompt_of (assembled w msgs s)) new_controller)
    as [t1 [t2 [Ht1 [Ht2 Hrun]]]].
  rewrite H1 in Ht1. injection Ht1 as <-.
  rewrite Hrun, outcome_pair in Hstart. injection Hstart as <-.
  rewrite tier2_run, Htok, andb_true_r in Ht2.
  assert (Hanswer : t2 = answer).
  { unfold answer, prompt. destruct (falsy text1);
      rewrite outcome_pair in Ht2; injection Ht2 as <-; reflexivity. }
  subst t2.
  split; [rewrite HPOST, outcome_pair, deliver_run; reflexivity |].
  split; [reflexivity |].
  rewrite HPOST, trace_pair, Hrun, trace_pair, !filter_app.
  rewrite filter_embed, filter_retrieve, filter_tier1 by reflexivity.
  cbn [app]. rewrite tier2_run, Htok, andb_true_r.
  destruct (falsy text1); rewrite trace_pair;
    [apply filter_tier2_attempts | reflexivity].
Qed.

Lemma forallb_tier2_attempts prompt (l : list attempt) :
  forallb is_tier2 (map (attempt_event (num := num) prompt) l) = true.
Proof.
  induction l as [| [f m] l IH]; [reflexivity |].
  cbn [map forallb]. rewrite IH. destruct f; reflexivity.
Qed.

(** X8. The calls of a validated request follow the pipeline: first the one
    embedding call, for the trimmed text of the last message; then the
    similarity search, if any; then at most one call to the first tier;
    then the calls to the second tier. *)
Theorem calls_follow_the_pipeline w req (msgs : list (ChatMessage num)) s :
  validated req msgs s ->
  exists first_tier second_tier,
    trace (POST w req)
    = FeatureExtraction embedding_model s
      :: trace (retrieve w (embedding_for w s)) ++ first_tier ++ second_tier
    /\ forallb is_search (trace (retrieve w (embedding_for w s))) = true
    /\ forallb is_tier1 first_tier = true
    /\ List.length first_tier <= 1
    /\ forallb is_tier2 second_tier = true.
Proof.
  intros Hv. destruct (POST_validated w Hv) as [c [Hstart HPOST]].
  assert (Hsearch :
            forallb is_search (trace (retrieve w (embedding_for w s))) = true).
  { rewrite retrieve_trace. destruct (embedding_for w s); reflexivity. }
  rewrite HPOST, embed_run.
  destruct (env_truthy (HF_TOKEN w)).
  - destruct (start_run w (assembled w msgs s)
                (prompt_of (assembled w msgs s)) new_controller)
      as [t1 [t2 [Ht1 [Ht2 Hrun]]]].
    exists (trace (tier1 w (assembled w msgs s))),
      (trace (tier2 w (prompt_of (assembled w msgs s)) t1)).
    split; [rewrite !trace_pair, Hrun, trace_pair; reflexivity |].
    split; [exact Hsearch |].
    split; [| split].
    + destruct (tier1_total w (assembled w msgs s)) as [t [_ [-> | ->]]];
        reflexivity.
    + destruct (tier1_total w (assembled w msgs s)) as [t [_ [-> | ->]]];
        cbn [List.length]; lia.
    + rewrite tier2_run.
      destruct (falsy t1 && env_truthy (HF_TOKEN w)); rewrite trace_pair;
        [apply forallb_tier2_attempts | reflexivity].
  - exists [], []. rewrite !trace_pair, !app_nil_r.
    split; [reflexivity |]. split; [exact Hsearch |].
    split; [reflexivity |]. split; [cbn; lia | reflexivity].
Qed.

(** X9. [generateWithGroq] swallows every failure. It never throws; it
    makes one request when the key is set and none otherwise; and the text
    it returns is not empty only when that request was answered with a
    success status and a body whose first choice holds that text. *)
Theorem generateWithGroq_swallows_failures w (gm : list PromptMessage) :
  exists text_,
    generateWithGroq w gm
    = (Normal text_,
       if env_truthy (GROQ_API_KEY w)
       then [GroqChatCompletion groq_model gm 256 false] else [])
    /\ (text_ <> [] ->
        env_truthy (GROQ_API_KEY w) = true
        /\ exists res,
             fetch_groq w gm = Normal res
             /\ ok res = true
             /\ message_content res = Normal (Some text_))
    /\ (forall res t,
          env_truthy (GROQ_API_KEY w) = true ->
          fetch_groq w gm = Normal res -> ok res = true ->
          message_content res = Normal (Some t) -> text_ = t).
Proof.
  unfold generateWithGroq.
  destruct (env_truthy (GROQ_API_KEY w)); cbn [negb].
  2:{ exists []. split; [reflexivity |].
      split; [intros H; contradiction | discriminate]. }
  unfold call. destruct (fetch_groq w gm) as [res |].
  2:{ exists []. split; [reflexivity |].
      split; [intros H; contradiction | discriminate]. }
  rewrite bind_normal. destruct (ok res) eqn:Hok; cbn [negb].
  2:{ exists []. split; [reflexivity |].
      split; [intros H; contradiction |].
      intros res' t _ Hres Hok'. injection Hres as <-. congruence. }
  unfold lift. destruct (message_content res) as [[t |] |] eqn:Hc.
  - exists t. split; [reflexivity |]. split.
    + intros _. split; [reflexivity |]. exists res.
      split; [reflexivity |]. split; assumption.
    + intros res' t' _ Hres _ Hc'. injection Hres as <-. congruence.
  - exists []. split; [reflexivity |].
    split; [intros H; contradiction |].
    intros res' t' _ Hres _ Hc'. injection Hres as <-. congruence.
  - exists []. split; [reflexivity |].
    split; [intros H; contradiction |].
    intros res' t' _ Hres _ Hc'. injection Hres as <-. congruence.
Qed.

(** X10. The context is empty exactly when no search was made or the search
    failed. A search that succeeds gives a context between square brackets,
    also when it finds no document. *)
Theorem empty_context_means_no_result w (v : list (jsval num)) :
  (outcome (retrieve w v) = Normal []
   <-> (v = [] \/ find w v 10 = Throw))
  /\ (forall documents,
        v <> [] -> find w v 10 = Normal documents ->
        exists inner,
          outcome (retrieve w v) = Normal (lit "[" ++ inner ++ lit "]"))
  /\ (v <> [] -> find w v 10 = Normal [] ->
      outcome (retrieve w v) = Normal (lit "[]")).
Proof.
  destruct v as [| x rest].
  - rewrite retrieve_empty.
    split; [split; [intros _; left; reflexivity | reflexivity] |].
    split; [intros documents H; contradiction | intros H; contradiction].
  - rewrite retrieve_nonempty, outcome_pair.
    destruct (find w (x :: rest) 10) as [documents |].
    + split.
      * split; [discriminate |]. intros [H | H]; discriminate.
      * split.
        -- intros documents' _ H. injection H as <-.
           eexists. reflexivity.
        -- intros _ H. injection H as ->. reflexivity.
    + split; [split; [intros _; right; reflexivity | reflexivity] |].
      split; [intros documents _ H; discriminate | intros _ H; discriminate].
Qed.

End Route.

End RouteExtras.

(** ** The streaming variant: the stream of deltas *)

Module StreamingFacts.

Import Framer Slices Route Streaming.

(** [split] undoes [join]: the model of [split] loses nothing. *)
Lemma split_lines_not_nil (s : jsstring) : split_lines s <> [].
Proof.
  destruct s as [| u rest]; cbn [split_lines]; [discriminate |].
  destruct (u =? LF)%N; [discriminate |].
  destruct (split_lines rest); discriminate.
Qed.

Lemma join_split_lines (s : jsstring) : join [LF] (split_lines s) = s.
Proof.
  induction s as [| u rest IH]; [reflexivity |].
  cbn [split_lines].
  destruct (N.eqb_spec u LF) as [-> | Hu].
  - pose proof (split_lines_not_nil rest) as Hne.
    destruct (split_lines rest) as [| line lines] eqn:E; [contradiction |].
    cbn [join]. cbn [join] in IH. rewrite IH. reflexivity.
  - pose proof (split_lines_not_nil rest) as Hne.
    destruct (split_lines rest) as [| line lines] eqn:E; [contradiction |].
    destruct lines as [| l2 ls]; cbn [join] in *; rewrite <- IH; reflexivity.
Qed.

Lemma split_lines_no_LF (s line : jsstring) :
  In line (split_lines s) -> ~ In LF line.
Proof.
  revert line.
  induction s as [| u rest IH]; intros line Hin.
  - destruct Hin as [<- | []]. intros [].
  - cbn [split_lines] in Hin.
    destruct (N.eqb_spec u LF) as [-> | Hu].
    + destruct Hin as [<- | Hin]; [intros [] | exact (IH _ Hin)].
    + pose proof (split_lines_not_nil rest) as Hne.
      destruct (split_lines rest) as [| l ls] eqn:E; [contradiction |].
      destruct Hin as [<- | Hin].
      * intros [Hh | Ht]; [congruence |].
        exact (IH l (or_introl eq_refl) Ht).
      * exact (IH line (or_intror Hin)).
Qed.

(** A text that ends a line, followed by more text. *)
Lemma split_lines_snoc_LF (a b : jsstring) :
  exists front last_,
    split_lines a = front ++ [last_]
    /\ split_lines (a ++ LF :: b) = front ++ last_ :: split_lines b.
Proof.
  induction a as [| u rest IH].
  - exists [], []. split; reflexivity.
  - destruct IH as (front & last_ & Ha & Hab).
    cbn [app split_lines].
    destruct (N.eqb_spec u LF) as [-> | Hu].
    + exists ([] :: front), last_. rewrite Ha, Hab. split; reflexivity.
    + rewrite Ha, Hab.
      destruct front as [| f fs].
      * exists [], (u :: last_). split; reflexivity.
      * exists ((u :: f) :: fs), last_. split; reflexivity.
Qed.

Section Deltas.
Context {num : Type} {NUM : JsNumber num}.
Variable delta_content : jsstring -> completion (option jsstring).

#[local] Abbreviation on_line := (on_line delta_content).
#[local] Abbreviation on_lines := (on_lines delta_content).
#[local] Abbreviation read_loop := (read_loop delta_content).
#[local] Abbreviation delta_of := (delta_of delta_content).
#[local] Abbreviation deltas := (deltas delta_content).

(** One line: the loop body returns on a [[DONE]] line, and writes the
    frame of the delta of any other line that has one. *)
Lemma on_line_spec (q : list Utf8.bytes) (line : jsstring) :
  on_line q line
  = if is_done line then (q, true)
    else (q ++ map frame (deltas [line]), false).
Proof.
  unfold Streaming.on_line, is_done, Streaming.deltas, Streaming.delta_of.
  cbn [flat_map].
  destruct (startsWith data_prefix line); cbn [andb].
  2:{ cbn. rewrite app_nil_r. reflexivity. }
  destruct (JsString.eqb _ DONE); [reflexivity |].
  destruct (delta_content _) as [[content |] |]; cbn;
    try (rewrite app_nil_r; reflexivity).
  destruct (truthy content); cbn; [reflexivity |].
  rewrite app_nil_r. reflexivity.
Qed.

Lemma deltas_app (a b : list jsstring) :
  deltas (a ++ b) = deltas a ++ deltas b.
Proof. unfold Streaming.deltas. apply flat_map_app. Qed.

Lemma deltas_cons (line : jsstring) (rest : list jsstring) :
  deltas (line :: rest) = deltas [line] ++ deltas rest.
Proof. exact (deltas_app [line] rest). Qed.

Lemma on_lines_spec (q : list Utf8.bytes) (lines : list jsstring) :
  on_lines q lines
  = (q ++ map frame (deltas (fst (until_done lines))),
     snd (until_done lines)).
Proof.
  revert q.
  induction lines as [| line rest IH]; intros q.
  - cbn. rewrite app_nil_r. reflexivity.
  - cbn [Streaming.on_lines until_done].
    rewrite on_line_spec.
    destruct (is_done line); cbn [fst snd].
    + cbn. rewrite app_nil_r. reflexivity.
    + rewrite IH.
      rewrite (deltas_cons line (fst (until_done rest))), map_app, app_assoc.
      reflexivity.
Qed.

Lemma until_done_app (a b : list jsstring) :
  until_done (a ++ b)
  = if snd (until_done a) then until_done a
    else (fst (until_done a) ++ fst (until_done b), snd (until_done b)).
Proof.
  induction a as [| line rest IH].
  - cbn. destruct (until_done b); reflexivity.
  - cbn [app until_done].
    destruct (is_done line); [reflexivity |].
    cbn [fst snd]. rewrite IH.
    destruct (snd (until_done rest)) eqn:E; cbn [fst snd]; rewrite ?E;
      reflexivity.
Qed.

Lemma read_loop_spec (q : list Utf8.bytes) (vs : list jsstring) (e : ending) :
  read_loop q vs e
  = SseController
      (q ++ map frame (deltas (fst (until_done (lines_of vs)))))
      (if snd (until_done (lines_of vs)) then StreamClosed else end_state e).
Proof.
  revert q.
  induction vs as [| chunk rest IH]; intros q.
  - cbn. rewrite app_nil_r. destruct e; reflexivity.
  - cbn [Streaming.read_loop lines_of flat_map].
    rewrite on_lines_spec. cbn [fst snd].
    rewrite until_done_app.
    destruct (snd (until_done (split_lines chunk))) eqn:E;
      cbn [fst snd]; rewrite ?E; [reflexivity |].
    rewrite IH.
    rewrite deltas_app, map_app, app_assoc. reflexivity.
Qed.

Lemma delta_of_truthy (line content : jsstring) :
  delta_of line = Some content -> content <> [].
Proof.
  unfold Streaming.delta_of.
  destruct (startsWith data_prefix line); [| discriminate].
  destruct (delta_content _) as [[c |] |]; try discriminate.
  destruct c; cbn; [discriminate |].
  intros [= <-]. discriminate.
Qed.

Lemma In_deltas (lines : list jsstring) (content : jsstring) :
  In content (deltas lines)
  <-> exists line, In line lines /\ delta_of line = Some content.
Proof.
  unfold Streaming.deltas. rewrite in_flat_map.
  split; intros (line & Hin & H); exists line; (split; [exact Hin |]).
  - destruct (delta_of line); [| contradiction].
    destruct H as [-> | []]. reflexivity.
  - rewrite H. left. reflexivity.
Qed.

Lemma until_done_skip_empty (a b : list jsstring) :
  snd (until_done (a ++ [] :: b)) = snd (until_done (a ++ b))
  /\ deltas (fst (until_done (a ++ [] :: b)))
     = deltas (fst (until_done (a ++ b))).
Proof.
  rewrite !until_done_app.
  destruct (snd (until_done a)); [split; reflexivity |].
  cbn [until_done]. cbn [fst snd].
  change (is_done []) with false. cbn [fst snd].
  split; [reflexivity |].
  rewrite !deltas_app. rewrite (deltas_cons []). reflexivity.
Qed.

(** What [start] writes and whether it closes depend on the lines after
    some first lines only through the deltas and the end mark of those. *)
Lemma until_done_congruent (p q q' : list jsstring) :
  snd (until_done q) = snd (until_done q') ->
  deltas (fst (until_done q)) = deltas (fst (until_done q')) ->
  snd (until_done (p ++ q)) = snd (until_done (p ++ q'))
  /\ deltas (fst (until_done (p ++ q)))
     = deltas (fst (until_done (p ++ q'))).
Proof.
  intros Hs Hd. rewrite !until_done_app.
  destruct (snd (until_done p)); [split; reflexivity |].
  cbn [fst snd]. split; [exact Hs |].
  rewrite !deltas_app, Hd. reflexivity.
Qed.

(** Reads that end at line ends show [start] the lines of the body, but
    for empty lines. *)
Lemma aligned_reads (vs : list jsstring) :
  Forall ends_a_line vs ->
  snd (until_done (lines_of vs)) = snd (until_done (body_lines vs))
  /\ deltas (fst (until_done (lines_of vs)))
     = deltas (fst (until_done (body_lines vs))).
Proof.
  induction vs as [| v rest IH]; intros H.
  - split; reflexivity.
  - inversion H as [| v' rest' [a Ha] Hrest]; subst v' rest'.
    destruct (IH Hrest) as [IHs IHd].
    destruct (split_lines_snoc_LF a []) as (front & last_ & Hfront & Hv).
    destruct (split_lines_snoc_LF a (body_text rest))
      as (front' & last' & Hfront' & Hbody).
    rewrite Hfront in Hfront'. apply app_inj_tail in Hfront'.
    destruct Hfront' as [<- <-].
    assert (L1 : lines_of (v :: rest)
                 = (front ++ [last_]) ++ [] :: lines_of rest).
    { unfold lines_of. cbn [flat_map]. rewrite Ha, Hv. cbn [split_lines].
      rewrite <- !app_assoc. cbn [app]. reflexivity. }
    assert (L2 : body_lines (v :: rest)
                 = (front ++ [last_]) ++ body_lines rest).
    { unfold body_lines, body_text. cbn [concat]. rewrite Ha.
      rewrite <- app_assoc. cbn [app]. fold (body_text rest).
      rewrite Hbody, <- !app_assoc. cbn [app]. reflexivity. }
    rewrite L1, L2.
    destruct (until_done_skip_empty (front ++ [last_]) (lines_of rest))
      as [Hs Hd].
    destruct (until_done_congruent (front ++ [last_]) (lines_of rest)
                (body_lines rest) IHs IHd) as [Cs Cd].
    split; [rewrite Hs; exact Cs | rewrite Hd; exact Cd].
Qed.

End Deltas.

End StreamingFacts.

Module StreamingRouteFacts.

Import Framer Slices Route Streaming.
Import EffectsFacts.

Section Route.
Context {num : Type} {NUM : JsNumber num}.
Variable delta_content : jsstring -> completion (option jsstring).
Implicit Types (w : services num) (req : Request num).

Lemma streaming_embedding_run w (t : jsval num) :
  getHuggingFaceEmbedding w t
  = (match hf_featureExtraction w embedding_model t with
     | Normal _ => Normal (vector_for w t)
     | Throw => Throw
     end,
     [EmbeddingCall embedding_model t]).
Proof.
  unfold vector_for, Streaming.getHuggingFaceEmbedding, call, bind, outcome.
  cbn [fst snd].
  destruct (hf_featureExtraction w embedding_model t) as [response |];
    [| reflexivity].
  repeat match goal with
         | |- context [if ?b then _ else _] => destruct b
         end; reflexivity.
Qed.

Lemma search_run w (v : list (jsval num)) :
  search w v = (Normal (context_of w v), [SearchCall v 10]).
Proof.
  unfold context_of, search, try_catch, call, bind, ret, outcome.
  cbn [fst snd].
  destruct (collection_find w v 10) as [documents |]; reflexivity.
Qed.

(** The run of [POST] on a body that holds a conversation. *)
Lemma streaming_POST_run w req (parsed : RequestBody num)
    (msgs : list (ChatMessage num)) :
  json req = Normal parsed -> messages parsed = Some msgs ->
  POST delta_content w req
  = match hf_featureExtraction w embedding_model (latestMessage_of msgs) with
    | Throw =>
        (Normal internal_server_error,
         [EmbeddingCall embedding_model (latestMessage_of msgs)])
    | Normal _ =>
        let v := vector_for w (latestMessage_of msgs) in
        match template_text (latestMessage_of msgs) with
        | Throw =>
            (Normal internal_server_error,
             [EmbeddingCall embedding_model (latestMessage_of msgs);
              SearchCall v 10])
        | Normal q =>
            let gm := groqMessages (systemPrompt (context_of w v) q) msgs in
            (match fetch w gm with
             | Normal r =>
                 if response_ok r
                 then Normal (token_stream
                                (start delta_content (response_body r)))
                 else Normal internal_server_error
             | Throw => Normal internal_server_error
             end,
             [EmbeddingCall embedding_model (latestMessage_of msgs);
              SearchCall v 10;
              CompletionCall streaming_model gm 2000 true])
        end
    end.
Proof.
  intros Hjson Hmsgs.
  unfold Streaming.POST, try_catch, bind, Streaming.lift, call, ret, throw.
  rewrite Hjson. cbn [fst snd]. rewrite Hmsgs.
  rewrite streaming_embedding_run. cbn [fst snd].
  destruct (hf_featureExtraction w embedding_model (latestMessage_of msgs))
    as [response |]; [| reflexivity].
  rewrite search_run. cbn [fst snd].
  destruct (template_text (latestMessage_of msgs)) as [q |];
    cbn [fst snd]; [| reflexivity].
  cbv zeta.
  destruct (fetch w _) as [r |]; cbn [fst snd]; [| reflexivity].
  destruct (response_ok r); cbn [negb fst snd]; [reflexivity |].
  destruct (response_text r); reflexivity.
Qed.


End Route.

End StreamingRouteFacts.

(** ** The streaming variant: properties *)

Module StreamingExtras.

Import Framer Slices Route Streaming.
Import EffectsFacts StreamingFacts StreamingRouteFacts.

Section Stream.
Variable delta_content : jsstring -> completion (option jsstring).

#[local] Abbreviation start := (start delta_content).
#[local] Abbreviation delta_of := (delta_of delta_content).
#[local] Abbreviation deltas := (deltas delta_content).

Lemma start_spec (r : body_reader) :
  controller_after (start (Some r))
  = SseController
      (map frame (deltas (before_done (lines_of (values r)))))
      (if done_seen (lines_of (values r)) then StreamClosed
       else end_state (body_end r)).
Proof. exact (read_loop_spec delta_content [] (values r) (body_end r)). Qed.

Lemma until_done_none (lines : list jsstring) :
  (forall line, In line lines -> is_done line = false) ->
  until_done lines = (lines, false).
Proof.
  induction lines as [| line rest IH]; intros H; [reflexivity |].
  cbn [until_done].
  rewrite (H line (or_introl eq_refl)).
  rewrite IH by (intros l Hl; apply H; right; exact Hl).
  reflexivity.
Qed.

Lemma split_lines_one (line : jsstring) :
  ~ In LF line -> split_lines line = [line].
Proof.
  induction line as [| u rest IH]; intros H; [reflexivity |].
  cbn [split_lines].
  destruct (N.eqb_spec u LF) as [-> | Hu].
  - exfalso. apply H. left. reflexivity.
  - rewrite IH by (intros Hin; apply H; right; exact Hin). reflexivity.
Qed.

(** X11. What [start] writes, read by read. Each read is split into lines
    by itself. The stream holds the frame of every non-empty text delta
    that stands on a data line of a read before the first line of a read
    that is the end mark, in order, and nothing else; no frame is the frame
    of an empty text. The stream is closed exactly when a read holds the
    end mark on a line of its own; otherwise it is left open when the body
    ends, and put in error when a read fails. The lock of the reader is
    released in every case. (A line that a read boundary cuts counts as two
    lines, neither of which need be what the whole line is.) *)
Theorem start_writes_the_deltas (r : body_reader) :
  sent (controller_after (start (Some r)))
  = map frame (deltas (before_done (lines_of (values r))))
  /\ state (controller_after (start (Some r)))
     = (if done_seen (lines_of (values r)) then StreamClosed
        else match body_end r with
             | EndOfBody => StreamOpen
             | ReadFails => StreamErrored
             end)
  /\ (forall chunk, In chunk (sent (controller_after (start (Some r)))) ->
      exists line content,
        In line (lines_of (values r)) /\ delta_of line = Some content
        /\ content <> [] /\ chunk = frame content /\ chunk <> empty_frame)
  /\ lock_released (start (Some r)) = Some true.
Proof.
  rewrite start_spec. cbn [sent state].
  split; [reflexivity |]. split; [destruct (body_end r); reflexivity |].
  split; [| reflexivity].
  intros chunk Hin.
  apply in_map_iff in Hin. destruct Hin as (content & <- & Hin).
  apply In_deltas in Hin. destruct Hin as (line & Hline & Hdelta).
  exists line, content.
  assert (Hne : content <> []) by exact (delta_of_truthy _ _ Hdelta).
  split.
  - unfold before_done in Hline.
    clear - Hline. revert Hline.
    induction (lines_of (values r)) as [| l rest IH]; [intros [] |].
    cbn [until_done]. destruct (is_done l); [intros [] |].
    cbn [fst]. intros [<- | H]; [left; reflexivity | right; exact (IH H)].
  - split; [exact Hdelta |]. split; [exact Hne |]. split; [reflexivity |].
    exact (FrameFacts.frame_not_empty Hne).
Qed.

(** X12. Nothing is read after the end mark: once a piece of the body
    holds it, the pieces that follow and the way the body ends make no
    difference, and the stream is closed. *)
Theorem nothing_is_read_after_the_end_mark (before after : list jsstring)
    (e e' : ending) :
  done_seen (lines_of before) = true ->
  start (Some {| values := before ++ after; body_end := e |})
  = start (Some {| values := before; body_end := e' |})
  /\ state (controller_after
              (start (Some {| values := before ++ after; body_end := e |})))
     = StreamClosed.
Proof.
  intros Hdone.
  assert (E : forall vs en,
             Streaming.start delta_content
               (Some {| values := vs; body_end := en |})
             = {| controller_after :=
                    controller_after
                      (start (Some {| values := vs; body_end := en |}));
                  lock_released := Some true |}) by reflexivity.
  assert (Hu : until_done (lines_of (before ++ after))
               = until_done (lines_of before)).
  { unfold lines_of. rewrite flat_map_app.
    rewrite until_done_app.
    unfold done_seen, lines_of in Hdone. rewrite Hdone. reflexivity. }
  split.
  - rewrite (E (before ++ after) e), (E before e').
    rewrite !start_spec. cbn [values body_end].
    unfold before_done, done_seen. rewrite Hu.
    unfold done_seen in Hdone. rewrite Hdone. reflexivity.
  - rewrite start_spec. cbn [state values].
    unfold done_seen. rewrite Hu.
    unfold done_seen in Hdone. rewrite Hdone. reflexivity.
Qed.

(** X13. When every read ends at the end of a line, a body that holds no
    end mark and then ends leaves the stream open: the frame of every delta
    of the body is written, in order, and [close] is never called. *)
Theorem stream_stays_open_without_end_mark (r : body_reader) :
  Forall ends_a_line (values r) ->
  (forall line, In line (body_lines (values r)) -> is_done line = false) ->
  body_end r = EndOfBody ->
  controller_after (start (Some r))
  = SseController (map frame (deltas (body_lines (values r)))) StreamOpen.
Proof.
  intros Haligned Hnone Hend.
  destruct (aligned_reads delta_content Haligned) as [Hs Hd].
  rewrite (until_done_none _ Hnone) in Hs, Hd. cbn [fst snd] in Hs, Hd.
  rewrite start_spec. unfold before_done, done_seen.
  rewrite Hs, Hd, Hend. reflexivity.
Qed.

(** X14. Two reads may be taken as one when the first ends at the end of a
    line: the stream is the same. *)
Theorem reads_may_be_joined_at_a_line_end (before rest : list jsstring)
    (a b : jsstring) (e : ending) :
  start (Some {| values := before ++ (a ++ [LF]) :: b :: rest;
                 body_end := e |})
  = start (Some {| values := before ++ (a ++ LF :: b) :: rest;
                   body_end := e |}).
Proof.
  assert (E : forall vs,
             Streaming.start delta_content
               (Some {| values := vs; body_end := e |})
             = {| controller_after :=
                    controller_after
                      (start (Some {| values := vs; body_end := e |}));
                  lock_released := Some true |}) by reflexivity.
  rewrite (E (before ++ (a ++ [LF]) :: b :: rest)),
          (E (before ++ (a ++ LF :: b) :: rest)).
  rewrite !start_spec. cbn [values body_end].
  destruct (split_lines_snoc_LF a []) as (front & last_ & Ha & Ha1).
  destruct (split_lines_snoc_LF a b) as (front' & last' & Ha' & Hab).
  rewrite Ha in Ha'. apply app_inj_tail in Ha'. destruct Ha' as [<- <-].
  assert (L1 : lines_of (before ++ (a ++ [LF]) :: b :: rest)
               = (lines_of before ++ front ++ [last_])
                 ++ [] :: (split_lines b ++ lines_of rest)).
  { unfold lines_of. rewrite flat_map_app. cbn [flat_map].
    rewrite Ha1. cbn [split_lines].
    rewrite <- !app_assoc. cbn [app]. reflexivity. }
  assert (L2 : lines_of (before ++ (a ++ LF :: b) :: rest)
               = (lines_of before ++ front ++ [last_])
                 ++ (split_lines b ++ lines_of rest)).
  { unfold lines_of. rewrite flat_map_app. cbn [flat_map].
    rewrite Hab. rewrite <- !app_assoc. cbn [app]. reflexivity. }
  unfold before_done, done_seen. rewrite L1, L2.
  destruct (until_done_skip_empty delta_content
              (lines_of before ++ front ++ [last_])
              (split_lines b ++ lines_of rest)) as [Hs Hd].
  rewrite Hs, Hd. reflexivity.
Qed.

(** X15. An event that a read boundary cuts is lost: when neither half of
    the line is an event by itself, reading the two halves one after the
    other writes nothing, where reading the line in one piece writes the
    frame of its delta. *)
Theorem an_event_cut_by_a_read_is_lost (l1 l2 content : jsstring) :
  ~ In LF l1 -> ~ In LF l2 ->
  is_done (l1 ++ l2) = false -> delta_of (l1 ++ l2) = Some content ->
  is_done l1 = false -> delta_of l1 = None ->
  is_done l2 = false -> delta_of l2 = None ->
  sent (controller_after
          (start (Some {| values := [l1 ++ l2]; body_end := EndOfBody |})))
  = [frame content]
  /\ sent (controller_after
             (start (Some {| values := [l1; l2]; body_end := EndOfBody |})))
     = [].
Proof.
  intros H1 H2 Hd Hc Hd1 Hc1 Hd2 Hc2.
  assert (H12 : ~ In LF (l1 ++ l2)).
  { intros Hin. apply in_app_or in Hin. tauto. }
  rewrite !start_spec. cbn [sent values].
  unfold lines_of, before_done. cbn [flat_map].
  rewrite (@split_lines_one l1 H1), (@split_lines_one l2 H2),
    (@split_lines_one (l1 ++ l2) H12).
  cbn [app until_done]. rewrite Hd, Hd1, Hd2. cbn [fst].
  unfold Streaming.deltas. cbn [flat_map]. rewrite Hc, Hc1, Hc2.
  split; reflexivity.
Qed.

End Stream.

Section Route.
Context {num : Type} {NUM : JsNumber num}.
Variable delta_content : jsstring -> completion (option jsstring).
Implicit Types (w : services num) (req : Request num).

#[local] Abbreviation POST := (Streaming.POST delta_content).


(** X17. The calls of the streaming variant, for a body that holds a
    conversation. The embedding service is called first, with the content
    of the last message as it is; when that call fails the request fails
    with it. Otherwise the search is made, with limit 10 and whatever the
    vector is, also the empty one; then at most one completion call, which
    asks for a stream of at most 2000 tokens. The response is the token
    stream exactly when the embedding call succeeded, the question could be
    printed and the provider accepted the completion call. *)
Theorem streaming_route_calls w req (parsed : RequestBody num)
    (msgs : list (ChatMessage num)) :
  json req = Normal parsed -> messages parsed = Some msgs ->
  (hf_featureExtraction w embedding_model (latestMessage_of msgs) = Throw ->
   outcome (POST w req) = Normal internal_server_error
   /\ trace (POST w req)
      = [EmbeddingCall embedding_model (latestMessage_of msgs)])
  /\ (hf_featureExtraction w embedding_model (latestMessage_of msgs) <> Throw ->
      exists completions,
        trace (POST w req)
        = EmbeddingCall embedding_model (latestMessage_of msgs)
          :: SearchCall (vector_for w (latestMessage_of msgs)) 10
          :: completions
        /\ (completions = []
            \/ exists gm,
                 completions = [CompletionCall streaming_model gm 2000 true]))
  /\ ((exists stream, outcome (POST w req) = Normal (token_stream stream))
      <-> exists q r,
            hf_featureExtraction w embedding_model (latestMessage_of msgs)
              <> Throw
            /\ template_text (latestMessage_of msgs) = Normal q
            /\ fetch w (groqMessages
                          (systemPrompt
                             (context_of w
                                (vector_for w (latestMessage_of msgs))) q)
                          msgs) = Normal r
            /\ response_ok r = true).
Proof.
  intros Hjson Hmsgs.
  rewrite (streaming_POST_run delta_content w req Hjson Hmsgs).
  destruct (hf_featureExtraction w embedding_model (latestMessage_of msgs))
    as [response |].
  2:{ split; [intros _; split; reflexivity |].
      split; [intros H; destruct (H eq_refl) |].
      split; [intros (x & H); cbv in H; discriminate H |].
      intros (q & r & H & _). destruct (H eq_refl). }
  cbv zeta.
  split; [discriminate |].
  destruct (template_text (latestMessage_of msgs)) as [q |].
  2:{ split.
      - intros _. exists []. split; [reflexivity | left; reflexivity].
      - split; [intros (x & H); cbv in H; discriminate H |].
        intros (q & r & _ & H & _). discriminate. }
  split.
  - intros _. eexists. split; [reflexivity |]. right. eexists. reflexivity.
  - rewrite outcome_pair.
    destruct (fetch w _) as [r |] eqn:Hfetch.
    2:{ split; [intros (x & H); cbv in H; discriminate H |].
        intros (q' & r & _ & Hq & Hf & _).
        injection Hq as <-. rewrite Hfetch in Hf. discriminate. }
    destruct (response_ok r) eqn:Hok.
    + split; [| intros _; eexists; reflexivity].
      intros _. exists q, r.
      split; [discriminate |]. split; [reflexivity |].
      split; [exact Hfetch | exact Hok].
    + split; [intros (x & H); cbv in H; discriminate H |].
      intros (q' & r' & _ & Hq & Hf & Hok').
      injection Hq as <-. rewrite Hfetch in Hf. injection Hf as <-.
      congruence.
Qed.

(** X18. An empty conversation is not rejected: the embedding service is
    asked for the vector of [undefined], and the question that the prompt
    restates reads undefined. *)
Theorem empty_conversation_is_not_rejected w req (parsed : RequestBody num)
    (e : jsval num) (r : ProviderResponse) :
  json req = Normal parsed -> messages parsed = Some [] ->
  hf_featureExtraction w embedding_model JUndefined = Normal e ->
  fetch w [{| p_role := system;
              p_content :=
                Some (systemPrompt (context_of w (vector_for w JUndefined))
                        (lit "undefined")) |}] = Normal r ->
  response_ok r = true ->
  outcome (POST w req)
  = Normal (token_stream (Streaming.start delta_content (response_body r)))
  /\ trace (POST w req)
     = [EmbeddingCall embedding_model JUndefined;
        SearchCall (vector_for w JUndefined) 10;
        CompletionCall streaming_model
          [{| p_role := system;
              p_content :=
                Some (systemPrompt (context_of w (vector_for w JUndefined))
                        (lit "undefined")) |}] 2000 true].
Proof.
  intros Hjson Hmsgs Hembed Hfetch Hok.
  rewrite (streaming_POST_run delta_content w req Hjson Hmsgs).
  change (latestMessage_of (num := num) []) with (JUndefined (num := num)).
  rewrite Hembed. cbv zeta.
  change (template_text (num := num) JUndefined)
    with (Normal (lit "undefined")).
  cbv iota beta.
  change (groqMessages (num := num)
            (systemPrompt (context_of w (vector_for w JUndefined))
               (lit "undefined")) [])
    with [{| p_role := system;
             p_content :=
               Some (systemPrompt (context_of w (vector_for w JUndefined))
                       (lit "undefined")) |}].
  rewrite Hfetch, Hok. split; reflexivity.
Qed.

End Route.

End StreamingExtras.

(** ** The loading script *)

Module LoadFacts.

Import LoadDb.

(** *** The replacement of the tags *)

Lemma has_greater_than_In (s : jsstring) :
  has_greater_than s = true <-> In GREATER_THAN s.
Proof.
  unfold has_greater_than. rewrite existsb_exists.
  split.
  - intros (u & Hin & Hu). apply N.eqb_eq in Hu. subst u. exact Hin.
  - intros Hin. exists GREATER_THAN. split; [exact Hin | reflexivity].
Qed.

(** What is left of a string holds no sign that the string did not hold. *)
Lemma replace_tags_In (u : code_unit) (s : jsstring) (inside : bool) :
  In u (replace_tags inside s) -> In u s.
Proof.
  revert inside.
  induction s as [| v rest IH]; intros inside; [intros [] |].
  cbn [replace_tags].
  destruct inside.
  - destruct (v =? GREATER_THAN)%N; intros H; right; exact (IH _ H).
  - destruct ((v =? LESS_THAN)%N && has_greater_than rest).
    + intros H. right. exact (IH _ H).
    + intros [-> | H]; [left; reflexivity | right; exact (IH _ H)].
Qed.

Lemma replace_tags_has_greater_than (s : jsstring) (inside : bool) :
  has_greater_than s = false ->
  has_greater_than (replace_tags inside s) = false.
Proof.
  intros H.
  destruct (has_greater_than (replace_tags inside s)) eqn:E; [| reflexivity].
  apply has_greater_than_In in E. apply replace_tags_In in E.
  apply has_greater_than_In in E. congruence.
Qed.

Lemma replace_tags_no_tag (s : jsstring) (inside : bool) :
  has_tag (replace_tags inside s) = false.
Proof.
  revert inside.
  induction s as [| u rest IH]; intros inside; [reflexivity |].
  cbn [replace_tags].
  destruct inside.
  - destruct (u =? GREATER_THAN)%N; apply IH.
  - destruct ((u =? LESS_THAN)%N && has_greater_than rest) eqn:E;
      [apply IH |].
    cbn [has_tag]. rewrite IH, orb_false_r.
    apply andb_false_iff in E. destruct E as [E | E].
    + rewrite E. reflexivity.
    + rewrite (@replace_tags_has_greater_than rest false E).
      apply andb_false_r.
Qed.

Lemma strip_tags_without_tag (s : jsstring) :
  has_tag s = false -> strip_tags s = s.
Proof.
  unfold strip_tags.
  induction s as [| u rest IH]; intros H; [reflexivity |].
  cbn [has_tag] in H. apply orb_false_iff in H. destruct H as [H1 H2].
  cbn [replace_tags]. rewrite H1, (IH H2). reflexivity.
Qed.

Lemma replace_tags_length (s : jsstring) (inside : bool) :
  List.length (replace_tags inside s) <= List.length s.
Proof.
  revert inside.
  induction s as [| u rest IH]; intros inside; [apply Nat.le_refl |].
  cbn [replace_tags List.length].
  destruct inside.
  - destruct (u =? GREATER_THAN)%N; apply Nat.le_le_succ_r, IH.
  - destruct ((u =? LESS_THAN)%N && has_greater_than rest).
    + apply Nat.le_le_succ_r, IH.
    + cbn [List.length]. apply le_n_S, IH.
Qed.

(** Inside a match, everything goes up to the first greater-than sign. *)
Lemma replace_tags_to_the_end (m b : jsstring) :
  ~ In GREATER_THAN m ->
  replace_tags true (m ++ GREATER_THAN :: b) = replace_tags false b.
Proof.
  induction m as [| u rest IH]; intros H.
  - reflexivity.
  - cbn [app replace_tags].
    destruct (N.eqb_spec u GREATER_THAN) as [-> | Hu].
    + exfalso. apply H. left. reflexivity.
    + apply IH. intros Hin. apply H. right. exact Hin.
Qed.

(** *** The two loops *)

Section Script.
Context {num : Type} {NUM : JsNumber num}.
Implicit Types (w : setup num).

Lemma insert_chunks_cons w (chunk : jsstring) (rest : list jsstring) :
  insert_chunks w (chunk :: rest)
  = match embedding_of w ollama_model chunk with
    | Throw => (Throw, [OllamaEmbedding ollama_model chunk])
    | Normal v =>
        match insertOne w v chunk with
        | Throw => (Throw, [OllamaEmbedding ollama_model chunk;
                            InsertOne v chunk])
        | Normal _ =>
            (fst (insert_chunks w rest),
             OllamaEmbedding ollama_model chunk :: InsertOne v chunk
             :: snd (insert_chunks w rest))
        end
    end.
Proof.
  cbn [insert_chunks].
  unfold getOllamaEmbedding, call, bind. cbn [fst snd].
  destruct (embedding_of w ollama_model chunk) as [v |]; [| reflexivity].
  cbn [fst snd].
  destruct (insertOne w v chunk); reflexivity.
Qed.

Lemma load_pages_cons w (url : jsstring) (rest : list jsstring) :
  load_pages w (url :: rest)
  = match scrape w url with
    | Throw => (Throw, [Scrape url])
    | Normal page_ =>
        match splitText w (option_map strip_tags page_) with
        | Throw => (Throw, [Scrape url])
        | Normal chunks =>
            match fst (insert_chunks w chunks) with
            | Throw => (Throw, Scrape url :: snd (insert_chunks w chunks))
            | Normal _ =>
                (fst (load_pages w rest),
                 Scrape url :: snd (insert_chunks w chunks)
                 ++ snd (load_pages w rest))
            end
        end
    end.
Proof.
  cbn [load_pages].
  unfold scrapePage, LoadDb.lift, call, ret, bind. cbn [fst snd].
  destruct (scrape w url) as [page_ |]; [| reflexivity].
  cbn [fst snd].
  destruct (splitText w (option_map strip_tags page_)) as [chunks |];
    [| reflexivity].
  cbn [fst snd app].
  destruct (fst (insert_chunks w chunks)); reflexivity.
Qed.

Lemma chunks_of_loaded w (url : jsstring) (page_ : option jsstring)
    (chunks : list jsstring) :
  scrape w url = Normal page_ ->
  splitText w (option_map strip_tags page_) = Normal chunks ->
  chunks_of w url = chunks.
Proof. intros H1 H2. unfold chunks_of. rewrite H1, H2. reflexivity. Qed.

(** Where an insertion of the inner loop comes from. *)
Lemma insert_chunks_inserts w (chunks : list jsstring) (v : jsval num)
    (t : jsstring) :
  In (InsertOne v t) (snd (insert_chunks w chunks)) ->
  embedding_of w ollama_model t = Normal v /\ In t chunks.
Proof.
  induction chunks as [| chunk rest IH]; [intros [] |].
  rewrite insert_chunks_cons.
  destruct (embedding_of w ollama_model chunk) as [v0 |] eqn:E.
  2:{ intros [H | []]. discriminate. }
  destruct (insertOne w v0 chunk).
  - cbn [snd]. intros [H | [H | H]]; [discriminate | |].
    + injection H as <- <-. split; [exact E | left; reflexivity].
    + destruct (IH H) as [H1 H2]. split; [exact H1 | right; exact H2].
  - cbn [snd]. intros [H | [H | []]]; [discriminate |].
    injection H as <- <-. split; [exact E | left; reflexivity].
Qed.

Lemma load_pages_inserts w (urls : list jsstring) (v : jsval num)
    (t : jsstring) :
  In (InsertOne v t) (snd (load_pages w urls)) ->
  embedding_of w ollama_model t = Normal v
  /\ exists url, In url urls /\ In t (chunks_of w url).
Proof.
  induction urls as [| url rest IH]; [intros [] |].
  rewrite load_pages_cons.
  destruct (scrape w url) as [page_ |] eqn:Hs.
  2:{ intros [H | []]. discriminate. }
  destruct (splitText w (option_map strip_tags page_)) as [chunks |] eqn:Hc.
  2:{ intros [H | []]. discriminate. }
  pose proof (chunks_of_loaded w url Hs Hc) as Hchunks.
  assert (Hhere : In (InsertOne v t) (snd (insert_chunks w chunks)) ->
                  embedding_of w ollama_model t = Normal v
                  /\ exists url0, In url0 (url :: rest)
                                  /\ In t (chunks_of w url0)).
  { intros H. destruct (insert_chunks_inserts w chunks v t H) as [H1 H2].
    split; [exact H1 |]. exists url.
    split; [left; reflexivity | rewrite Hchunks; exact H2]. }
  destruct (fst (insert_chunks w chunks)).
  - cbn [snd]. intros [H | H]; [discriminate |].
    apply in_app_or in H. destruct H as [H | H]; [exact (Hhere H) |].
    destruct (IH H) as (H1 & url0 & H2 & H3).
    split; [exact H1 |]. exists url0. split; [right; exact H2 | exact H3].
  - cbn [snd]. intros [H | H]; [discriminate | exact (Hhere H)].
Qed.

(** The inner loop, when it completes. *)
Lemma insert_chunks_complete w (chunks : list jsstring) :
  fst (insert_chunks w chunks) = Normal tt ->
  filter is_insert (snd (insert_chunks w chunks))
  = map (fun chunk => InsertOne (vector_of w chunk) chunk) chunks
  /\ filter is_scrape (snd (insert_chunks w chunks)) = []
  /\ List.length (snd (insert_chunks w chunks)) = 2 * List.length chunks.
Proof.
  induction chunks as [| chunk rest IH]; [intros _; repeat split |].
  rewrite insert_chunks_cons. unfold vector_of at 1.
  destruct (embedding_of w ollama_model chunk) as [v |] eqn:E;
    [| discriminate].
  destruct (insertOne w v chunk); [| discriminate].
  cbn [fst snd]. intros H. destruct (IH H) as (H1 & H2 & H3).
  cbn [filter is_insert is_scrape map List.length].
  rewrite H1, H2, H3, E. split; [reflexivity |]. split; [reflexivity | lia].
Qed.

Lemma load_pages_complete w (urls : list jsstring) :
  fst (load_pages w urls) = Normal tt ->
  filter is_insert (snd (load_pages w urls)) = documents_of w urls
  /\ filter is_scrape (snd (load_pages w urls)) = map Scrape urls
  /\ List.length (snd (load_pages w urls))
     = List.length urls + 2 * List.length (documents_of w urls).
Proof.
  induction urls as [| url rest IH]; [intros _; repeat split |].
  rewrite load_pages_cons.
  destruct (scrape w url) as [page_ |] eqn:Hs; [| discriminate].
  destruct (splitText w (option_map strip_tags page_)) as [chunks |] eqn:Hc;
    [| discriminate].
  pose proof (chunks_of_loaded w url Hs Hc) as Hchunks.
  destruct (fst (insert_chunks w chunks)) as [[] |] eqn:Hi; [| discriminate].
  cbn [fst snd]. intros H. destruct (IH H) as (H1 & H2 & H3).
  destruct (insert_chunks_complete w chunks Hi) as (I1 & I2 & I3).
  unfold documents_of in *. cbn [flat_map]. rewrite Hchunks.
  cbn [filter is_insert is_scrape map List.length].
  rewrite !filter_app, !length_app, length_map, H1, H2, H3, I1, I2, I3.
  split; [reflexivity |]. split; [reflexivity |]. lia.
Qed.

Lemma load_pages_stops w (done_ left_ : list jsstring) :
  fst (load_pages w done_) = Throw ->
  load_pages w (done_ ++ left_) = load_pages w done_.
Proof.
  induction done_ as [| url rest IH]; [discriminate |].
  cbn [app]. rewrite !load_pages_cons.
  destruct (scrape w url) as [page_ |]; [| reflexivity].
  destruct (splitText w (option_map strip_tags page_)) as [chunks |];
    [| reflexivity].
  destruct (fst (insert_chunks w chunks)); [| reflexivity].
  cbn [fst]. intros H. rewrite (IH H). reflexivity.
Qed.

Lemma script_run w :
  script w
  = match createCollection_ w 768 dot_product with
    | Normal _ =>
        (fst (loadSampleData w),
         CreateCollection 768 dot_product :: snd (loadSampleData w))
    | Throw => (Throw, [CreateCollection 768 dot_product])
    end.
Proof.
  unfold script, createCollection, call, bind. cbn [fst snd].
  destruct (createCollection_ w 768 dot_product); reflexivity.
Qed.

End Script.

End LoadFacts.

Module LoadExtras.

Import LoadDb LoadFacts.

Section Script.
Context {num : Type} {NUM : JsNumber num}.
Implicit Types (w : setup num).

(** X19. [scrapePage] gives the page without its tags. What it gives holds
    no less-than sign with a greater-than sign after it, so stripping it
    again changes nothing; it is not longer than the page; and a page in
    which no less-than sign has a greater-than sign after it, such as one
    with an unclosed tag only, comes out as it is. A page that could not be
    read is an exception, a page that is [undefined] stays so. *)
Theorem scrapePage_strips_the_tags w (url : jsstring) :
  trace (scrapePage w url) = [Scrape url]
  /\ (scrape w url = Throw -> outcome (scrapePage w url) = Throw)
  /\ (scrape w url = Normal None ->
      outcome (scrapePage w url) = Normal None)
  /\ (forall page_, scrape w url = Normal (Some page_) ->
      outcome (scrapePage w url) = Normal (Some (strip_tags page_))
      /\ has_tag (strip_tags page_) = false
      /\ strip_tags (strip_tags page_) = strip_tags page_
      /\ List.length (strip_tags page_) <= List.length page_
      /\ (has_tag page_ = false -> strip_tags page_ = page_)).
Proof.
  unfold scrapePage, call, ret, bind, trace, outcome. cbn [fst snd].
  split; [destruct (scrape w url); cbn [fst snd]; reflexivity |].
  split; [intros ->; reflexivity |].
  split; [intros ->; reflexivity |].
  intros page_ ->. cbn [fst snd option_map].
  split; [reflexivity |].
  split; [apply replace_tags_no_tag |].
  split; [apply strip_tags_without_tag, replace_tags_no_tag |].
  split; [apply replace_tags_length |].
  apply strip_tags_without_tag.
Qed.

End Script.

(** X20. The replacement takes away everything from a less-than sign to the
    first greater-than sign after it, whatever stands between them, and goes
    on after it. *)
Theorem text_between_the_signs_is_removed (a m b : jsstring) :
  ~ In LESS_THAN a -> ~ In GREATER_THAN m ->
  strip_tags (a ++ LESS_THAN :: m ++ GREATER_THAN :: b) = a ++ strip_tags b.
Proof.
  intros Ha Hm. unfold strip_tags.
  induction a as [| u rest IH].
  - cbn [app replace_tags].
    change (LESS_THAN =? LESS_THAN)%N with true. cbn [andb].
    assert (E : has_greater_than (m ++ GREATER_THAN :: b) = true).
    { apply has_greater_than_In. apply in_or_app. right. left. reflexivity. }
    rewrite E. apply replace_tags_to_the_end. exact Hm.
  - cbn [app replace_tags].
    destruct (N.eqb_spec u LESS_THAN) as [-> | Hu].
    + exfalso. apply Ha. left. reflexivity.
    + cbn [andb]. rewrite IH; [reflexivity |].
      intros Hin. apply Ha. right. exact Hin.
Qed.

Section Load.
Context {num : Type} {NUM : JsNumber num}.
Implicit Types (w : setup num).

(** X21. Whatever happens during a run of the script, a document that it
    inserts holds a chunk of the stripped text of one of the eight pages,
    with the vector that the embedding server gave for that very chunk; and
    the collection was created before. *)
Theorem inserts_carry_their_own_vector w (v : jsval num) (t : jsstring) :
  In (InsertOne v t) (trace (script w)) ->
  embedding_of w ollama_model t = Normal v
  /\ (exists url, In url f1Data /\ In t (chunks_of w url))
  /\ createCollection_ w 768 dot_product = Normal tt
  /\ hd_error (trace (script w)) = Some (CreateCollection 768 dot_product).
Proof.
  unfold trace. rewrite script_run.
  destruct (createCollection_ w 768 dot_product) as [[] |].
  2:{ intros [H | []]. discriminate. }
  cbn [snd]. intros [H | H]; [discriminate |].
  destruct (load_pages_inserts w f1Data v t H) as [H1 H2].
  split; [exact H1 |]. split; [exact H2 |]. split; reflexivity.
Qed.

(** X22. A run of the script that completes has created the collection,
    with dimension 768 and the dot product, then scraped the eight pages in
    the order of the list, and inserted one document for each chunk of each
    page, in order, each after the embedding of its text. *)
Theorem a_complete_load w :
  outcome (script w) = Normal tt ->
  hd_error (trace (script w)) = Some (CreateCollection 768 dot_product)
  /\ filter is_scrape (trace (script w)) = map Scrape f1Data
  /\ filter is_insert (trace (script w)) = documents_of w f1Data
  /\ List.length (trace (script w))
     = 9 + 2 * List.length (documents_of w f1Data).
Proof.
  unfold trace, outcome. rewrite script_run.
  destruct (createCollection_ w 768 dot_product) as [[] |]; [| discriminate].
  cbn [fst snd]. intros H.
  destruct (load_pages_complete w f1Data H) as (H1 & H2 & H3).
  split; [reflexivity |].
  cbn [filter is_scrape is_insert List.length].
  unfold loadSampleData. rewrite H1, H2, H3.
  split; [reflexivity |]. split; reflexivity.
Qed.

(** X23. The first failure stops the load. When a call fails while some
    pages are loaded, the pages that come after them are not scraped, and
    the calls made before the failure stay as they are. When the
    collection cannot be created, the only call of the script is the
    attempt to create it: nothing is scraped and nothing is inserted. *)
Theorem a_failure_stops_the_load w (done_ left_ : list jsstring) :
  (outcome (load_pages w done_) = Throw ->
   load_pages w (done_ ++ left_) = load_pages w done_)
  /\ (createCollection_ w 768 dot_product = Throw ->
      script w = (Throw, [CreateCollection 768 dot_product])).
Proof.
  split.
  - intros H. exact (load_pages_stops w done_ left_ H).
  - intros Hc. rewrite script_run, Hc. reflexivity.
Qed.

End Load.

End LoadExtras.

(** ** The question *)

Module TrimFacts.

(** What [trim_start] takes away is white space, and what it leaves does
    not start with white space. *)
Lemma trim_start_split (s : jsstring) :
  exists spaces,
    s = spaces ++ trim_start s
    /\ forallb is_whitespace spaces = true
    /\ forall u rest, trim_start s = u :: rest -> is_whitespace u = false.
Proof.
  induction s as [| u s' IH].
  - exists []. repeat split. intros u rest H. discriminate H.
  - cbn [trim_start]. destruct (is_whitespace u) eqn:E.
    + destruct IH as (spaces & H1 & H2 & H3).
      exists (u :: spaces). split; [cbn [app]; rewrite <- H1; reflexivity |].
      split; [cbn [forallb]; rewrite E, H2; reflexivity | exact H3].
    + exists []. split; [reflexivity |]. split; [reflexivity |].
      intros v rest H. injection H as <- _. exact E.
Qed.

Lemma trim_start_fixed (s : jsstring) :
  (forall u rest, s = u :: rest -> is_whitespace u = false) ->
  trim_start s = s.
Proof.
  destruct s as [| u rest]; intros H; [reflexivity |].
  cbn [trim_start]. rewrite (H u rest eq_refl). reflexivity.
Qed.

Lemma trim_start_idempotent (s : jsstring) :
  trim_start (trim_start s) = trim_start s.
Proof.
  destruct (trim_start_split s) as (spaces & _ & _ & H).
  apply trim_start_fixed. exact H.
Qed.

(** [trim] leaves a string that neither starts nor ends with white space. *)
Lemma trim_ends (s : jsstring) :
  (forall u rest, trim s = u :: rest -> is_whitespace u = false)
  /\ (forall front u, trim s = front ++ [u] -> is_whitespace u = false).
Proof.
  unfold trim, trim_end.
  destruct (trim_start_split s) as (spaces1 & _ & _ & Hhead).
  destruct (trim_start_split (rev (trim_start s))) as (spaces2 & Hsplit & _ & Hlast).
  set (t := trim_start s) in *.
  set (r := trim_start (rev t)) in *.
  split.
  - intros u rest Hr.
    assert (Ht : t = rev r ++ rev spaces2).
    { rewrite <- rev_app_distr, <- Hsplit, rev_involutive. reflexivity. }
    rewrite Hr in Ht. exact (Hhead u (rest ++ rev spaces2) Ht).
  - intros front u Hr.
    assert (Hr' : r = u :: rev front).
    { rewrite <- (rev_involutive r), Hr, rev_app_distr. reflexivity. }
    exact (Hlast u (rev front) Hr').
Qed.

Lemma trim_fixed (s : jsstring) :
  (forall u rest, s = u :: rest -> is_whitespace u = false) ->
  (forall front u, s = front ++ [u] -> is_whitespace u = false) ->
  trim s = s.
Proof.
  intros Hhead Hlast. unfold trim, trim_end.
  rewrite (@trim_start_fixed s Hhead).
  rewrite trim_start_fixed; [apply rev_involutive |].
  intros u rest Hr. apply (Hlast (rev rest) u).
  rewrite <- (rev_involutive s), Hr. reflexivity.
Qed.

Lemma trim_idempotent (s : jsstring) : trim (trim s) = trim s.
Proof.
  destruct (trim_ends s) as [Hhead Hlast].
  exact (@trim_fixed (trim s) Hhead Hlast).
Qed.

End TrimFacts.

Module QuestionExtras.

Import Framer Slices Route Tier2 Lifecycle.
Import EffectsFacts RouteFacts TrimFacts.

Section Route.
Context {num : Type} {NUM : JsNumber num}.
Implicit Types (w : world num) (req : Request num) (s : jsstring).

(** X24. The question of a validated request is the text of the content of
    the last message, whatever its type, without the white space around it:
    it neither starts nor ends with white space, trimming it again changes
    nothing, and the messages before the last play no part in it. It is
    that text which the embedding service receives, in the first call of
    the request. *)
Theorem the_question_is_trimmed w req (msgs : list (ChatMessage num)) s :
  validated req msgs s ->
  (exists earlier m raw,
     msgs = earlier ++ [m]
     /\ toString (content m) = Normal raw
     /\ s = trim raw
     /\ latestMessage_of (Some msgs) = latestMessage_of (Some [m]))
  /\ trim s = s
  /\ (forall u rest, s = u :: rest -> is_whitespace u = false)
  /\ (forall front u, s = front ++ [u] -> is_whitespace u = false)
  /\ hd_error (trace (POST w req))
     = Some (FeatureExtraction embedding_model s).
Proof.
  intros Hv.
  assert (Hq : exists earlier m raw,
             msgs = earlier ++ [m]
             /\ toString (content m) = Normal raw
             /\ s = trim raw
             /\ latestMessage_of (Some msgs) = latestMessage_of (Some [m])).
  { destruct Hv as (_ & Hlatest & _).
    destruct (exists_last (l := msgs)) as (earlier & m & Hmsgs).
    { intros ->. discriminate Hlatest. }
    exists earlier, m.
    assert (Hsame : latestMessage_of (Some msgs) = latestMessage_of (Some [m])).
    { unfold latestMessage_of, last_element. rewrite Hmsgs.
      rewrite length_app. cbn [List.length].
      replace (List.length earlier + 1 - 1) with (List.length earlier) by lia.
      rewrite nth_error_app2 by apply Nat.le_refl.
      rewrite Nat.sub_diag. reflexivity. }
    rewrite Hsame in Hlatest.
    unfold latestMessage_of, last_element in Hlatest.
    cbn [List.length Nat.sub nth_error] in Hlatest.
    destruct (is_nullish (content m)); [discriminate Hlatest |].
    unfold lift, bind, outcome in Hlatest. cbn [fst snd] in Hlatest.
    destruct (toString (content m)) as [raw |]; [| discriminate Hlatest].
    exists raw. cbn in Hlatest. injection Hlatest as <-.
    split; [exact Hmsgs |]. split; [reflexivity |].
    split; [reflexivity | exact Hsame]. }
  split; [exact Hq |].
  destruct Hq as (earlier & m & raw & _ & _ & -> & _).
  split; [apply trim_idempotent |].
  split; [exact (proj1 (trim_ends raw)) |].
  split; [exact (proj2 (trim_ends raw)) |].
  destruct (POST_validated w Hv) as [c [_ HPOST]].
  rewrite HPOST, embed_run.
  destruct (env_truthy (HF_TOKEN w)); reflexivity.
Qed.

End Route.

End QuestionExtras.

(** ** The further properties on concrete inputs *)

Module ExtraRuns.

Import Framer Slices Reader Route Tier2 Lifecycle IntNumbers Scenarios Bounds.
Import FramerExtras RouteExtras QuestionExtras.

(** The validated request of the scenarios. *)
Lemma conversation_is_validated :
  validated (request_of conversation) conversation question.
Proof.
  split; [exists {| messages := Some conversation |}; split; reflexivity |].
  split; [reflexivity | discriminate].
Defined.

(** X2 on the text of the first-tier answer of the scenarios. *)
Lemma frames_are_short_witness :
  List.length (queue (streamText new_controller verstappen emit))
  = (List.length verstappen + 39) / 40
  /\ forall chunk,
       In chunk (queue (streamText new_controller verstappen emit)) ->
       6 <= List.length chunk <= 125.
Proof.
  apply (frames_are_short (text := verstappen)).
  unfold utf16. repeat (apply Forall_cons; [reflexivity |]). apply Forall_nil.
Defined.

(** X3 on the apology, cut after its first 40 code units. *)
Lemma streamText_in_two_calls_witness :
  streamText (streamText new_controller (firstn 40 apology) emit)
    (skipn 40 apology) emit
  = streamText new_controller (firstn 40 apology ++ skipn 40 apology) emit.
Proof.
  apply (@streamText_in_two_calls new_controller (firstn 40 apology)
           (skipn 40 apology)).
  reflexivity.
Defined.

(** X4 on the text of the first-tier answer of the scenarios. *)
Lemma round_trip_where_it_holds_witness :
  (forall p, In p (slices verstappen) -> payload (frame p) = Some p)
  /\ reconstruct (queue (streamText new_controller verstappen emit))
     = Some verstappen.
Proof.
  apply (@round_trip_where_it_holds verstappen).
  intros p [<- | []]. split; reflexivity.
Defined.

(** X6 on the healthy deployment. *)
Lemma streams_are_closed_and_not_empty_witness :
  closed (Controller [frame verstappen] true) = true
  /\ queue (Controller [frame verstappen] true) <> []
  /\ status (stream_response (Controller [frame verstappen] true)) = 200
  /\ headers (stream_response (Controller [frame verstappen] true))
     = stream_headers.
Proof.
  apply (@streams_are_closed_and_not_empty safe_integer int_number
           healthy
           (request_of conversation)
           (stream_response (Controller [frame verstappen] true))
           (Controller [frame verstappen] true)).
  - vm_compute. reflexivity.
  - reflexivity.
Defined.

(** X7 on the deployment where only one model of the second tier
    answers. *)
Lemma the_first_text_is_streamed_witness :
  outcome (POST flan_only (request_of conversation))
  = Normal (stream_response (Controller [frame verstappen] true)).
Proof.
  exact (proj1 (@the_first_text_is_streamed safe_integer int_number
                  flan_only
                  (request_of conversation) conversation question []
                  conversation_is_validated eq_refl eq_refl)).
Defined.

(** X8 on the healthy deployment. *)
Lemma calls_follow_the_pipeline_witness :
  exists first_tier second_tier,
    trace (POST healthy (request_of conversation))
    = FeatureExtraction embedding_model question
      :: trace (retrieve healthy (embedding_for healthy question))
         ++ first_tier ++ second_tier
    /\ forallb is_search
         (trace (retrieve healthy (embedding_for healthy question))) = true
    /\ forallb is_tier1 first_tier = true
    /\ List.length first_tier <= 1
    /\ forallb is_tier2 second_tier = true.
Proof.
  exact (@calls_follow_the_pipeline safe_integer int_number healthy
           (request_of conversation) conversation question
           conversation_is_validated).
Defined.

(** X24 on the healthy deployment. *)
Lemma the_question_is_trimmed_witness :
  trim question = question
  /\ hd_error (trace (POST healthy (request_of conversation)))
     = Some (FeatureExtraction embedding_model question).
Proof.
  pose proof (@the_question_is_trimmed safe_integer int_number healthy
                (request_of conversation) conversation question
                conversation_is_validated) as H.
  exact (conj (proj1 (proj2 H)) (proj2 (proj2 (proj2 (proj2 H))))).
Defined.

End ExtraRuns.

Module StreamRuns.

Import Framer Slices Route Streaming IntNumbers Scenarios StreamScenarios.
Import StreamingExtras.

(** X12 on a body that goes on after its end mark. *)
Lemma nothing_is_read_after_the_end_mark_witness :
  start parse_delta
    (Some {| values := values two_deltas ++ more_after_the_end;
             body_end := ReadFails |})
  = start parse_delta (Some two_deltas)
  /\ state (controller_after
              (start parse_delta
                 (Some {| values := values two_deltas ++ more_after_the_end;
                          body_end := ReadFails |})))
     = StreamClosed.
Proof.
  apply (@nothing_is_read_after_the_end_mark parse_delta (values two_deltas)
           more_after_the_end ReadFails EndOfBody).
  reflexivity.
Defined.

(** X13 on a body of two reads without end mark. *)
Lemma stream_stays_open_without_end_mark_witness :
  controller_after (start parse_delta (Some no_end_mark))
  = SseController [frame (lit "Max "); frame (lit "Verstappen.")] StreamOpen.
Proof.
  refine (@stream_stays_open_without_end_mark parse_delta no_end_mark _ _ _).
  - apply Forall_cons;
      [exists (sse (lit "Max ") ++ [LF]); reflexivity |].
    apply Forall_cons;
      [exists (sse (lit "Verstappen.") ++ [LF]); reflexivity |].
    apply Forall_nil.
  - intros line Hin.
    assert (F : forallb (fun l => negb (is_done l))
                  (body_lines (values no_end_mark)) = true) by reflexivity.
    rewrite forallb_forall in F. specialize (F line Hin).
    destruct (is_done line); [discriminate F | reflexivity].
  - reflexivity.
Defined.

Lemma no_line_feed (s : jsstring) :
  forallb (fun u => negb (u =? LF)%N) s = true -> ~ In LF s.
Proof.
  intros F Hin. rewrite forallb_forall in F. specialize (F LF Hin).
  discriminate F.
Defined.

(** X15 on an event that is cut after its first 30 code units. *)
Lemma an_event_cut_by_a_read_is_lost_witness :
  sent (controller_after
          (start parse_delta
             (Some {| values := [first_half ++ second_half];
                      body_end := EndOfBody |})))
  = [frame verstappen]
  /\ sent (controller_after
             (start parse_delta
                (Some {| values := [first_half; second_half];
                         body_end := EndOfBody |})))
     = [].
Proof.
  apply (@an_event_cut_by_a_read_is_lost parse_delta first_half second_half
           verstappen).
  - apply no_line_feed. reflexivity.
  - apply no_line_feed. reflexivity.
  - reflexivity.
  - reflexivity.
  - reflexivity.
  - reflexivity.
  - reflexivity.
  - reflexivity.
Defined.

(** X17 on the deployment of the scenarios. *)
Lemma streaming_route_calls_witness :
  exists completions,
    trace (POST parse_delta streaming (request_of conversation))
    = EmbeddingCall embedding_model (latestMessage_of conversation)
      :: SearchCall (vector_for streaming (latestMessage_of conversation)) 10
      :: completions
    /\ (completions = []
        \/ exists gm,
             completions = [CompletionCall streaming_model gm 2000 true]).
Proof.
  refine (proj1 (proj2 (@streaming_route_calls safe_integer int_number
                          parse_delta
                          streaming (request_of conversation)
                          {| messages := Some conversation |} conversation
                          eq_refl eq_refl)) _).
  discriminate.
Defined.

(** X18 on the deployment of the scenarios. *)
Lemma empty_conversation_is_not_rejected_witness :
  outcome (POST parse_delta streaming empty_conversation)
  = Normal (token_stream (start parse_delta (Some two_deltas))).
Proof.
  exact (proj1 (@empty_conversation_is_not_rejected safe_integer int_number
                  parse_delta
                  streaming empty_conversation {| messages := Some [] |}
                  vector
                  {| response_ok := true;
                     response_text := Normal [];
                     response_body := Some two_deltas |}
                  eq_refl eq_refl eq_refl eq_refl eq_refl)).
Defined.

End StreamRuns.

Module LoadRuns.

Import LoadDb IntNumbers Scenarios LoadScenarios.
Import LoadExtras.

Lemma none_of (c : code_unit) (s : jsstring) :
  forallb (fun u => negb (u =? c)%N) s = true -> ~ In c s.
Proof.
  intros F Hin. rewrite forallb_forall in F. specialize (F c Hin).
  rewrite N.eqb_refl in F. discriminate F.
Defined.

(** X20 on a text that holds the two signs and no tag. *)
Lemma text_between_the_signs_is_removed_witness :
  strip_tags (lit "1 " ++ LESS_THAN :: lit " 2 and 3 "
              ++ GREATER_THAN :: lit " 2")
  = lit "1 " ++ strip_tags (lit " 2").
Proof.
  apply (@text_between_the_signs_is_removed (lit "1 ") (lit " 2 and 3 ")
           (lit " 2")).
  - apply none_of. reflexivity.
  - apply none_of. reflexivity.
Defined.

(** X21 on the first document of a run where everything works. *)
Lemma inserts_carry_their_own_vector_witness :
  embedding_of all_up ollama_model first_chunk = Normal vector
  /\ (exists url, In url f1Data /\ In first_chunk (chunks_of all_up url))
  /\ createCollection_ all_up 768 dot_product = Normal tt
  /\ hd_error (trace (script all_up))
     = Some (CreateCollection 768 dot_product).
Proof.
  apply (@inserts_carry_their_own_vector safe_integer all_up vector
           first_chunk).
  do 3 right. left. reflexivity.
Defined.

(** X22 on a run where everything works. *)
Lemma a_complete_load_witness :
  hd_error (trace (script all_up)) = Some (CreateCollection 768 dot_product)
  /\ filter is_scrape (trace (script all_up)) = map Scrape f1Data
  /\ filter is_insert (trace (script all_up)) = documents_of all_up f1Data
  /\ List.length (trace (script all_up))
     = 9 + 2 * List.length (documents_of all_up f1Data).
Proof.
  apply (@a_complete_load safe_integer all_up). reflexivity.
Defined.

(** X23 on a run where the second page does not load, and on a run where
    the collection cannot be created. *)
Lemma a_failure_stops_the_load_witness :
  outcome (load_pages second_page_fails (firstn 2 f1Data)) = Throw
  /\ load_pages second_page_fails (firstn 2 f1Data ++ skipn 2 f1Data)
     = load_pages second_page_fails (firstn 2 f1Data)
  /\ filter is_scrape (trace (load_pages second_page_fails f1Data))
     = map Scrape (firstn 2 f1Data)
  /\ script no_collection = (Throw, [CreateCollection 768 dot_product]).
Proof.
  split; [reflexivity |].
  split.
  - exact (proj1 (@a_failure_stops_the_load safe_integer second_page_fails
                    (firstn 2 f1Data) (skipn 2 f1Data))
             eq_refl).
  - split.
    + change f1Data with (firstn 2 f1Data ++ skipn 2 f1Data) at 1.
      rewrite (proj1 (@a_failure_stops_the_load safe_integer
                        second_page_fails
                        (firstn 2 f1Data) (skipn 2 f1Data))
                 eq_refl).
      reflexivity.
    + exact (proj2 (@a_failure_stops_the_load safe_integer no_collection
                      [] [])
               eq_refl).
Defined.

End LoadRuns.
